(** * ccnudge: the settings-mutation and backup/restore protocol of lib/setup.js

    A shallow embedding of the configuration manager of ccnudge
    (setupNotification, enableNotifications, disableNotifications,
    removeNotification, getStatus and their helpers) together with the
    properties of the design document that concern it.  The last part goes
    beyond the design document: it covers the sound test [testSound], the
    clean-up of the uninstall script and the check of the install script.

    Modelling conventions.
    - A file holds either nothing, text that [JSON.parse] rejects, or a JSON
      object; [JSON.stringify] followed by [JSON.parse] is the identity on
      the documents built here, so a file stores the parsed document.
    - A JSON object is an association list in own-property order: an
      assignment to an existing key keeps its place, a new key goes last.
      (JavaScript lists integer-like keys first whenever they were added;
      that reordering is not modelled, and it changes no value a key maps
      to.)  Keys are distinct in every parsed document and the operations
      never create a duplicate.
    - JSON numbers are only ever tested for being zero; they are integers
      here.  Strings are sequences of code units below 256.
    - The document of a file is what [JSON.parse] reads from it, not its
      text: every write spells the whole document anew.  (An integer that no
      double holds is never read; no statement depends on one.)  Where a
      statement is about the text, [spelling], [JSON_parse] and
      [JSON_stringify] model it up to layout, with number literals as the
      file spells them.
    - Objects obtained from [JSON.parse] inherit from [Object.prototype]: a
      property read that misses the own properties finds the inherited one,
      and an assignment to [__proto__] goes to the inherited setter unless
      the object owns such a key.
    - The operations are asynchronous functions that run one after the
      other; each is a function from the two files to a result that carries
      the files it leaves and the lines it printed.
    - Writes to the file system succeed; the errors that are modelled are a
      settings file that does not parse, an unsupported platform, a sound
      that cannot be resolved and the type errors of [getStatus].
    - A settings document whose [hooks] member is a truthy value that is not
      an object (an array, a number, a string, [true]) is outside the data
      model: every operation answers [OutsideModel] on it.  ([testSound] and
      the two scripts only look for managed keys in it, which such a value
      does not have, so they are defined on it.)
    - [testSound] runs shell commands: its result is the trace of what it
      printed and ran, and whether a command succeeds is a capability of the
      host, like the file-system probes. *)

From Stdlib Require Import String Ascii List Bool ZArith Lia.
Import ListNotations.
Local Open Scope list_scope.
Local Open Scope string_scope.
Set Warnings "-register-all".

(** ** JSON values *)

Inductive json : Type :=
| JNull
| JBool (b : bool)
| JNum (n : Z)
| JStr (s : string)
| JArr (items : list json)
| JObj (members : list (string * json)).

Definition obj : Type := list (string * json).

(** [ToBoolean] on a JSON value. *)
Definition truthy (v : json) : bool :=
  match v with
  | JNull => false
  | JBool b => b
  | JNum n => negb (n =? 0)%Z
  | JStr s => negb (s =? "")
  | JArr _ => true
  | JObj _ => true
  end.

(** ** Own properties of an object *)

Fixpoint lookup (k : string) (o : obj) : option json :=
  match o with
  | [] => None
  | (k', v) :: o' => if k' =? k then Some v else lookup k o'
  end.

Definition has_own (k : string) (o : obj) : bool :=
  match lookup k o with Some _ => true | None => false end.

Definition keys (o : obj) : list string := map fst o.

(** [delete o[k]] *)
Definition remove (k : string) (o : obj) : obj :=
  filter (fun p => negb (fst p =? k)) o.

Definition update (k : string) (v : json) (o : obj) : obj :=
  map (fun p => if fst p =? k then (k, v) else p) o.

(** Writing an own data property: an existing key keeps its position, a new
    key goes last. *)
Definition define (k : string) (v : json) (o : obj) : obj :=
  if has_own k o then update k v o else (o ++ [(k, v)])%list.

(** ** Property access through [Object.prototype] *)

Definition object_prototype_methods : list string :=
  [ "constructor"; "__defineGetter__"; "__defineSetter__"; "hasOwnProperty";
    "__lookupGetter__"; "__lookupSetter__"; "isPrototypeOf";
    "propertyIsEnumerable"; "toString"; "valueOf"; "toLocaleString" ].

(** What [o[k]] evaluates to on a parsed object. *)
Inductive jsval : Type :=
| Own (v : json)
| Builtin          (* a function inherited from Object.prototype *)
| ProtoObject      (* Object.prototype itself, read through __proto__ *)
| Undefined.

Definition get (o : obj) (k : string) : jsval :=
  match lookup k o with
  | Some v => Own v
  | None =>
      if k =? "__proto__" then ProtoObject
      else if existsb (String.eqb k) object_prototype_methods then Builtin
      else Undefined
  end.

Definition to_boolean (x : jsval) : bool :=
  match x with
  | Own v => truthy v
  | Builtin => true
  | ProtoObject => true
  | Undefined => false
  end.

(** What [JSON.stringify] keeps of a property value: functions and
    [undefined] are skipped, [Object.prototype] has no enumerable key. *)
Definition serialised (x : jsval) : option json :=
  match x with
  | Own v => Some v
  | ProtoObject => Some (JObj [])
  | Builtin => None
  | Undefined => None
  end.

(** The serialisable content of [o] after [o[k] = x].  Without an own
    [__proto__] key the assignment reaches the inherited setter, which
    creates no property. *)
Definition put (o : obj) (k : string) (x : jsval) : obj :=
  if (k =? "__proto__") && negb (has_own k o) then o
  else match serialised x with
       | Some v => define k v o
       | None => remove k o
       end.

(** [Object.assign(target, source)] *)
Definition assign (target source : obj) : obj :=
  fold_left (fun acc p => put acc (fst p) (Own (snd p))) source target.

(** ** Files, console and results *)

Inductive file : Type :=
| Missing
| Unparsable (text : string)
| Parsed (doc : obj).

Record files : Type := mkFiles { settings_file : file; backup_file : file }.

Inductive error : Type :=
| ParseError
| UnsupportedPlatform
| SoundNotFound (path : string)
| TypeError.

(** The lines the operations print. *)
Inductive message : Type :=
| UsingDefaultSound (path : string)
| UsingSystemSound (path : string)
| Configured (event path : string)
| DesktopEnabled
| SavedTo
| NoPreviousConfiguration
| EventEnabled (event : string)
| NoBackupFor (event : string)
| EnabledAll (count : nat)
| NothingConfigured
| EventDisabled (event : string)
| NotConfiguredFor (event : string)
| DisabledAll (count : nat)
| Removed (event : string)
| StatusTitle
| StatusEnabled (count : nat)
| StatusEvent (event : string)
| StatusSound (text : string)
| StatusDesktop (enabled : bool)
| StatusDisabled (events : list string)
| StatusNotConfigured.

Inductive result (A : Type) : Type :=
| Returned (a : A) (fs : files) (log : list message)
| Threw (e : error) (fs : files) (log : list message)
| OutsideModel.

Arguments Returned {A} a fs log.
Arguments Threw {A} e fs log.
Arguments OutsideModel {A}.

(** An asynchronous function of the module: it runs on the two files. *)
Definition M (A : Type) : Type := files -> result A.

Definition ret {A} (a : A) : M A := fun fs => Returned a fs [].

Definition bind {A B} (m : M A) (k : A -> M B) : M B :=
  fun fs =>
    match m fs with
    | Returned a fs1 l1 =>
        match k a fs1 with
        | Returned b fs2 l2 => Returned b fs2 (l1 ++ l2)%list
        | Threw e fs2 l2 => Threw e fs2 (l1 ++ l2)%list
        | OutsideModel => OutsideModel
        end
    | Threw e fs1 l1 => Threw e fs1 l1
    | OutsideModel => OutsideModel
    end.

Notation "x <- m ;; k" := (bind m (fun x => k))
  (at level 61, m at next level, right associativity).
Notation "m ;; k" := (bind m (fun _ => k))
  (at level 61, right associativity).

Definition throw {A} (e : error) : M A := fun fs => Threw e fs [].
Definition console_log (m : message) : M unit := fun fs => Returned tt fs [m].
Definition outside {A} : M A := fun _ => OutsideModel.

(** The files an operation leaves, whether it returned or threw. *)
Definition files_after {A} (r : result A) : option files :=
  match r with
  | Returned _ fs _ => Some fs
  | Threw _ fs _ => Some fs
  | OutsideModel => None
  end.

Definition log_of {A} (r : result A) : list message :=
  match r with
  | Returned _ _ l => l
  | Threw _ _ l => l
  | OutsideModel => []
  end.

(** ** The two stores *)

Definition AVAILABLE_EVENTS : list (string * string) :=
  [ ("Stop - When Claude finishes responding", "Stop");
    ("SubagentStop - When subagent tasks complete", "SubagentStop");
    ("PostToolUse - After tool calls complete", "PostToolUse");
    ("PreToolUse - Before tool calls (advanced)", "PreToolUse");
    ("UserPromptSubmit - When user submits a prompt", "UserPromptSubmit");
    ("Notification - When Claude sends notifications", "Notification");
    ("SessionStart - When session starts/resumes", "SessionStart");
    ("SessionEnd - When session ends", "SessionEnd");
    ("PreCompact - Before compact operations", "PreCompact") ].

(** [AVAILABLE_EVENTS.map(e => e.value)] *)
Definition eventNames : list string := map snd AVAILABLE_EVENTS.

Definition managed (e : string) : bool := existsb (String.eqb e) eventNames.

Definition readSettings : M obj :=
  fun fs =>
    match settings_file fs with
    | Missing => Returned [] fs []
    | Unparsable _ => Threw ParseError fs []
    | Parsed doc => Returned doc fs []
    end.

Definition writeSettings (settings : obj) : M unit :=
  fun fs => Returned tt (mkFiles (Parsed settings) (backup_file fs)) [].

Definition writeBackup (doc : obj) : M unit :=
  fun fs => Returned tt (mkFiles (settings_file fs) (Parsed doc)) [].

Definition unlinkBackup : M unit :=
  fun fs => Returned tt (mkFiles (settings_file fs) Missing) [].

(** [null] when the file is absent or does not parse. *)
Definition getBackupConfig : M (option obj) :=
  fun fs =>
    match backup_file fs with
    | Parsed doc => Returned (Some doc) fs []
    | _ => Returned None fs []
    end.

(** The [hooks] member as the code sees it. *)
Inductive hooks_member : Type :=
| NoHooks                (* absent or falsy: [!settings.hooks] *)
| HooksMap (h : obj)
| HooksOther (v : json).

Definition settings_hooks (settings : obj) : hooks_member :=
  match lookup "hooks" settings with
  | None => NoHooks
  | Some (JObj h) => HooksMap h
  | Some v => if truthy v then HooksOther v else NoHooks
  end.

(** The managed events with a truthy entry, in the order of
    [AVAILABLE_EVENTS]. *)
Definition configured (h : obj) : list string :=
  filter (fun e => to_boolean (get h e)) eventNames.

(** The object [ccnudgeHooks] that [backupCurrentConfig] builds. *)
Definition snapshot (h : obj) : obj :=
  fold_left
    (fun acc e =>
       if to_boolean (get h e) then put acc e (get h e) else acc)
    eventNames [].

Definition backupCurrentConfig : M bool :=
  settings <- readSettings ;;
  match settings_hooks settings with
  | NoHooks => ret false
  | HooksOther _ => outside
  | HooksMap h =>
      let ccnudgeHooks := snapshot h in
      if (0 <? List.length (keys ccnudgeHooks))%nat
      then writeBackup ccnudgeHooks ;; ret true
      else ret false
  end.

(** ** The host: platform and file-system probes *)

Inductive platform : Type := Darwin | Linux | Win32 | OtherPlatform.

Record host : Type := mkHost {
  os_platform : platform;
  fs_access : string -> bool;             (* does [fs.access] succeed *)
  path_isAbsolute : string -> bool;
  path_join : string -> string -> string;
  path_resolve : string -> string
}.

Record platform_config : Type := mkConfig {
  command : string;
  defaultSound : string;
  soundsPath : string;
  extension : string;
  commandSuffix : option string
}.

Definition PLATFORM_CONFIGS (p : platform) : option platform_config :=
  match p with
  | Darwin =>
      Some (mkConfig "afplay" "/System/Library/Sounds/Glass.aiff"
              "/System/Library/Sounds" ".aiff" None)
  | Linux =>
      Some (mkConfig "paplay"
              "/usr/share/sounds/freedesktop/stereo/complete.oga"
              "/usr/share/sounds" ".oga" None)
  | Win32 =>
      Some (mkConfig "powershell -c (New-Object Media.SoundPlayer"
              "C:\Windows\Media\Windows Notify System Generic.wav"
              "C:\Windows\Media" ".wav" (Some ").PlaySync()"))
  | OtherPlatform => None
  end.

Definition dquote : string := String (ascii_of_nat 34) "".

Section Host.

Variable H : host.

Definition getPlatformConfig : M platform_config :=
  match PLATFORM_CONFIGS (os_platform H) with
  | Some config => ret config
  | None => throw UnsupportedPlatform
  end.

Definition buildSoundCommand (soundPath : string) : M string :=
  config <- getPlatformConfig ;;
  match os_platform H with
  | Win32 =>
      ret (command config ++ " '" ++ soundPath ++ "'"
           ++ match commandSuffix config with Some s => s | None => "undefined" end)
  | _ => ret (command config ++ " " ++ soundPath)
  end.

Definition buildDesktopNotifyCommand : option string :=
  match os_platform H with
  | Darwin =>
      Some ("osascript -e 'display notification " ++ dquote
            ++ "Claude Code has finished" ++ dquote ++ " with title " ++ dquote
            ++ "CCNudge" ++ dquote ++ " sound name " ++ dquote ++ dquote ++ "'")
  | Linux =>
      Some ("notify-send " ++ dquote ++ "CCNudge" ++ dquote ++ " " ++ dquote
            ++ "Claude Code has finished" ++ dquote)
  | Win32 =>
      Some ("powershell -c " ++ dquote
            ++ "New-BurntToastNotification -Text 'CCNudge', 'Claude Code has finished'"
            ++ dquote)
  | OtherPlatform => None
  end.

(** The sound-path block of [setupNotification]: default, absolute path,
    system sound name, path relative to the working directory, then the
    final existence check. *)
Definition resolveSound (config : platform_config) (soundPath : option string)
  : M string :=
  chosen <-
    match soundPath with
    | None =>
        console_log (UsingDefaultSound (defaultSound config)) ;;
        ret (defaultSound config)
    | Some p =>
        if p =? "" then
          console_log (UsingDefaultSound (defaultSound config)) ;;
          ret (defaultSound config)
        else if negb (path_isAbsolute H p) then
          let systemSoundPath :=
            path_join H (soundsPath config) (p ++ extension config) in
          if fs_access H systemSoundPath then
            console_log (UsingSystemSound systemSoundPath) ;;
            ret systemSoundPath
          else
            let absolutePath := path_resolve H p in
            if fs_access H absolutePath then ret absolutePath
            else throw (SoundNotFound p)
        else ret p
    end ;;
  if fs_access H chosen then ret chosen else throw (SoundNotFound chosen).

Definition command_entry (c : string) : json :=
  JObj [("type", JStr "command"); ("command", JStr c)].

(** The value stored at [hooks[event]]: one group holding the entries. *)
Definition hook_group (entries : list json) : json :=
  JArr [JObj [("hooks", JArr entries)]].

(** The mapping to work on once [settings.hooks] has been initialised. *)
Definition ensure_hooks (settings : obj) : M obj :=
  match settings_hooks settings with
  | NoHooks => ret []
  | HooksMap h => ret h
  | HooksOther _ => outside
  end.

Definition setupNotification
  (event : string) (soundPath : option string) (enableDesktopNotify : bool)
  : M unit :=
  config <- getPlatformConfig ;;
  _ <- backupCurrentConfig ;;
  soundPath <- resolveSound config soundPath ;;
  settings <- readSettings ;;
  h <- ensure_hooks settings ;;
  soundCommand <- buildSoundCommand soundPath ;;
  let hooks :=
    command_entry soundCommand ::
    (if enableDesktopNotify then
       match buildDesktopNotifyCommand with
       | Some notifyCommand => [command_entry notifyCommand]
       | None => []
       end
     else []) in
  writeSettings
    (define "hooks" (JObj (put h event (Own (hook_group hooks)))) settings) ;;
  console_log (Configured event soundPath) ;;
  (if enableDesktopNotify then console_log DesktopEnabled else ret tt) ;;
  console_log SavedTo.

End Host.

(** [if (event)]: no argument, [null] and the empty string all mean every
    event. *)
Definition given (event : option string) : option string :=
  match event with
  | Some e => if e =? "" then None else Some e
  | None => None
  end.

Definition enableNotifications (event : option string) : M unit :=
  backup <- getBackupConfig ;;
  match backup with
  | None => console_log NoPreviousConfiguration
  | Some backup =>
      settings <- readSettings ;;
      h <- ensure_hooks settings ;;
      match given event with
      | Some e =>
          if to_boolean (get backup e) then
            writeSettings
              (define "hooks" (JObj (put h e (get backup e))) settings) ;;
            console_log (EventEnabled e)
          else console_log (NoBackupFor e)
      | None =>
          writeSettings (define "hooks" (JObj (assign h backup)) settings) ;;
          console_log (EnabledAll (List.length (keys backup)))
      end
  end.

(** The end of [disableNotifications] and [removeNotification]: drop an
    empty [hooks], keep the mutated one otherwise. *)
Definition cleanup (h : obj) (settings : obj) : obj :=
  if (List.length (keys h) =? 0)%nat then remove "hooks" settings
  else define "hooks" (JObj h) settings.

Definition disableNotifications (event : option string) : M unit :=
  settings <- readSettings ;;
  match settings_hooks settings with
  | HooksOther _ => outside
  | NoHooks => console_log NothingConfigured
  | HooksMap h =>
      let configuredEvents := configured h in
      if (List.length configuredEvents =? 0)%nat then console_log NothingConfigured
      else
        _ <- backupCurrentConfig ;;
        match given event with
        | Some e =>
            if to_boolean (get h e) then
              console_log (EventDisabled e) ;;
              writeSettings (cleanup (remove e h) settings)
            else console_log (NotConfiguredFor e)
        | None =>
            console_log (DisabledAll (List.length configuredEvents)) ;;
            writeSettings
              (cleanup
                 (fold_left (fun acc evt => remove evt acc) configuredEvents h)
                 settings)
        end
  end.

Definition removeNotification (event : string) : M unit :=
  settings <- readSettings ;;
  match settings_hooks settings with
  | HooksOther _ => outside
  | NoHooks => console_log (NotConfiguredFor event)
  | HooksMap h =>
      if negb (to_boolean (get h event)) then
        console_log (NotConfiguredFor event)
      else
        unlinkBackup ;;
        writeSettings (cleanup (remove event h) settings) ;;
        console_log (Removed event)
  end.

(** ** Reading a configuration back: [getStatus] *)

(** [haystack.includes(needle)] *)
Fixpoint includes (haystack needle : string) : bool :=
  if prefix needle haystack then true
  else match haystack with
       | EmptyString => false
       | String _ rest => includes rest needle
       end.

(** The class [\s] on code units below 256. *)
Definition is_space (c : ascii) : bool :=
  existsb (Nat.eqb (nat_of_ascii c)) [9; 10; 11; 12; 13; 32; 160]%nat.

(** [\.(aiff|wav|mp3|oga)] anchored at the start of [s]. *)
Definition audio_extension (s : string) : option string :=
  if prefix ".aiff" s then Some ".aiff"
  else if prefix ".wav" s then Some ".wav"
  else if prefix ".mp3" s then Some ".mp3"
  else if prefix ".oga" s then Some ".oga"
  else None.

(** [[^\s]+\.(aiff|wav|mp3|oga)] anchored at the start of [s]: the run is
    greedy, so the longest run that an extension follows wins. *)
Fixpoint run_then_extension (s : string) : option string :=
  match s with
  | EmptyString => None
  | String c rest =>
      if is_space c then None
      else match run_then_extension rest with
           | Some m => Some (String c m)
           | None =>
               match audio_extension rest with
               | Some e => Some (String c e)
               | None => None
               end
           end
  end.

(** [s.match(/\/[^\s]+\.(aiff|wav|mp3|oga)/)]: the text of the leftmost
    match. *)
Fixpoint sound_path_match (s : string) : option string :=
  match s with
  | EmptyString => None
  | String c rest =>
      if Ascii.eqb c "/" then
        match run_then_extension rest with
        | Some m => Some (String c m)
        | None => sound_path_match rest
        end
      else sound_path_match rest
  end.

Definition sound_markers : list string :=
  ["afplay"; "paplay"; "Media.SoundPlayer"].

Definition desktop_markers : list string :=
  ["osascript"; "notify-send"; "New-BurntToastNotification"].

(** [v[0]] on a truthy JSON value. *)
Definition index0 (v : json) : option json :=
  match v with
  | JArr (x :: _) => Some x
  | JObj o => lookup "0" o
  | JStr (String c _) => Some (JStr (String c ""))
  | _ => None
  end.

(** [settings.hooks[event][0]?.hooks || []] *)
Definition group_hooks (x : jsval) : json :=
  match x with
  | Own v =>
      match index0 v with
      | Some (JObj g) =>
          match lookup "hooks" g with
          | Some hs => if truthy hs then hs else JArr []
          | None => JArr []
          end
      | _ => JArr []
      end
  | _ => JArr []
  end.

(** [h.command]: reading a property of [null] throws. *)
Definition command_of (h : json) : error + option json :=
  match h with
  | JNull => inl TypeError
  | JObj o => inr (lookup "command" o)
  | _ => inr None
  end.

(** [c?.includes(needle)]: only strings and arrays have the method. *)
Definition command_includes (c : option json) (needle : string)
  : error + bool :=
  match c with
  | None => inr false
  | Some JNull => inr false
  | Some (JStr s) => inr (includes s needle)
  | Some (JArr l) =>
      inr (existsb
             (fun x => match x with JStr s => s =? needle | _ => false end) l)
  | Some _ => inl TypeError
  end.

Fixpoint any_marker (c : option json) (markers : list string) : error + bool :=
  match markers with
  | [] => inr false
  | m :: ms =>
      match command_includes c m with
      | inl e => inl e
      | inr true => inr true
      | inr false => any_marker c ms
      end
  end.

Definition mentions (markers : list string) (h : json) : error + bool :=
  match command_of h with
  | inl e => inl e
  | inr c => any_marker c markers
  end.

(** [hooks.find(h => ...)] *)
Fixpoint find_hook (markers : list string) (hs : list json)
  : error + option json :=
  match hs with
  | [] => inr None
  | h :: rest =>
      match mentions markers h with
      | inl e => inl e
      | inr true => inr (Some h)
      | inr false => find_hook markers rest
      end
  end.

(** [hooks.some(h => ...)] *)
Fixpoint some_hook (markers : list string) (hs : list json) : error + bool :=
  match hs with
  | [] => inr false
  | h :: rest =>
      match mentions markers h with
      | inl e => inl e
      | inr true => inr true
      | inr false => some_hook markers rest
      end
  end.

Definition lift {A} (r : error + A) : M A :=
  match r with
  | inl e => throw e
  | inr a => ret a
  end.

(** Only an array has [find] and [some]. *)
Definition as_array (v : json) : M (list json) :=
  match v with
  | JArr l => ret l
  | _ => throw TypeError
  end.

(** The text after [Sound:] for the hook that [find] returned. *)
Definition sound_line (soundHook : json) : M unit :=
  match soundHook with
  | JObj o =>
      match lookup "command" o with
      | Some (JStr c) =>
          console_log
            (StatusSound
               match sound_path_match c with Some m => m | None => c end)
      | _ => throw TypeError
      end
  | _ => throw TypeError
  end.

Definition describe (event : string) (entry : jsval) : M unit :=
  console_log (StatusEvent event) ;;
  hooks <- as_array (group_hooks entry) ;;
  soundHook <- lift (find_hook sound_markers hooks) ;;
  match soundHook with
  | Some h => sound_line h
  | None => ret tt
  end ;;
  hasDesktopNotify <- lift (some_hook desktop_markers hooks) ;;
  console_log (StatusDesktop hasDesktopNotify).

Fixpoint for_each {A} (l : list A) (body : A -> M unit) : M unit :=
  match l with
  | [] => ret tt
  | x :: rest => body x ;; for_each rest body
  end.

Definition getStatus : M unit :=
  settings <- readSettings ;;
  backup <- getBackupConfig ;;
  h <- ensure_hooks settings ;;
  let configuredEvents := configured h in
  console_log StatusTitle ;;
  if (0 <? List.length configuredEvents)%nat then
    console_log (StatusEnabled (List.length configuredEvents)) ;;
    for_each configuredEvents (fun event => describe event (get h event))
  else
    match backup with
    | Some backup => console_log (StatusDisabled (keys backup))
    | None => console_log StatusNotConfigured
    end.

(** ** Every operation of the module *)

Inductive operation : Type :=
| Setup (event : string) (soundPath : option string) (desktopNotify : bool)
| Enable (event : option string)
| Disable (event : option string)
| Remove (event : string)
| Status.

Definition run (H : host) (op : operation) : M unit :=
  match op with
  | Setup event soundPath desktopNotify =>
      setupNotification H event soundPath desktopNotify
  | Enable event => enableNotifications event
  | Disable event => disableNotifications event
  | Remove event => removeNotification event
  | Status => getStatus
  end.

(** ** Playing a sound: [testSound] *)

(** What [testSound] prints and runs, in order; [Ran c] is the command [c]
    handed to the shell. *)
Inductive test_event : Type :=
| TestingConfigured
| TestingSound (path : string)
| Ran (command : string)
| Played.

Inductive test_error : Type :=
| Raised (e : error)
| ExecFailed (command : string)      (* the rejection of the shell, as is *)
| FailedToPlay (command : string).   (* the same, wrapped again *)

(** [Unmodelled]: a [hooks] member of the first Stop group that is an object
    owning a [length] key, whose comparison with zero is not modelled. *)
Inductive outcome : Type :=
| Finished (trace : list test_event)
| Failed (e : test_error) (trace : list test_event)
| Unmodelled.

Definition after (l : list test_event) (r : outcome) : outcome :=
  match r with
  | Finished l' => Finished (l ++ l')%list
  | Failed e l' => Failed e (l ++ l')%list
  | Unmodelled => Unmodelled
  end.

(** [settings?.hooks?.Stop?.[0]?.hooks] *)
Definition stop_hooks (settings : obj) : option json :=
  match lookup "hooks" settings with
  | Some (JObj h) =>
      match lookup "Stop" h with
      | Some v =>
          match index0 v with
          | Some (JObj g) => lookup "hooks" g
          | _ => None
          end
      | None => None
      end
  | _ => None
  end.

(** [hook.command.includes(needle)]: no optional chaining here, so a missing
    or [null] command throws. *)
Definition must_include (c : option json) (needle : string) : error + bool :=
  match c with
  | None => inl TypeError
  | Some JNull => inl TypeError
  | _ => command_includes c needle
  end.

Fixpoint includes_one_of (c : option json) (markers : list string)
  : error + bool :=
  match markers with
  | [] => inr false
  | m :: ms =>
      match must_include c m with
      | inl e => inl e
      | inr true => inr true
      | inr false => includes_one_of c ms
      end
  end.

Section Shell.

Variable H : host.

(** Does the shell run the command to a zero exit. *)
Variable shell : string -> bool.

(** The body of the loop over the configured hooks. *)
Definition play_hook (hook : json) : outcome :=
  match hook with
  | JNull => Failed (Raised TypeError) []
  | JObj o =>
      match lookup "type" o with
      | Some (JStr t) =>
          if t =? "command" then
            match includes_one_of (lookup "command" o) sound_markers with
            | inl e => Failed (Raised e) []
            | inr false => Finished []
            | inr true =>
                match lookup "command" o with
                | Some (JStr c) =>
                    if shell c then Finished [Ran c]
                    else Failed (ExecFailed c) [Ran c]
                | _ => Failed (Raised TypeError) []
                end
            end
          else Finished []
      | _ => Finished []
      end
  | _ => Finished []
  end.

Fixpoint play_hooks (hooks : list json) : outcome :=
  match hooks with
  | [] => Finished []
  | hook :: rest =>
      match play_hook hook with
      | Finished l => after l (play_hooks rest)
      | r => r
      end
  end.

(** The end of [testSound]: announce the path, build the command, run it. *)
Definition play_path (soundPath : string) (fs : files) : outcome :=
  match buildSoundCommand H soundPath fs with
  | Returned c _ _ =>
      if shell c then Finished [TestingSound soundPath; Ran c; Played]
      else Failed (FailedToPlay c) [TestingSound soundPath; Ran c]
  | Threw e _ _ => Failed (Raised e) [TestingSound soundPath]
  | OutsideModel => Unmodelled
  end.

(** [if (stopHook && stopHook.length > 0)]: the loop over a non-empty array
    (the characters of a non-empty string have no [type], so nothing runs),
    the default sound otherwise. *)
Definition play_configured (config : platform_config)
  (stopHook : option json) (fs : files) : outcome :=
  match stopHook with
  | Some (JArr (hook :: rest)) =>
      after [TestingConfigured]
        match play_hooks (hook :: rest) with
        | Finished l => Finished (l ++ [Played])%list
        | r => r
        end
  | Some (JStr (String _ _)) => Finished [TestingConfigured; Played]
  | Some (JObj o) =>
      if has_own "length" o then Unmodelled
      else play_path (defaultSound config) fs
  | _ => play_path (defaultSound config) fs
  end.

(** The search of [testSound] for a path that is not absolute: a system
    sound name, then a path relative to the working directory. *)
Definition test_path (config : platform_config) (p : string)
  : error + string :=
  if negb (path_isAbsolute H p) then
    let systemSoundPath :=
      path_join H (soundsPath config) (p ++ extension config) in
    if fs_access H systemSoundPath then inr systemSoundPath
    else
      let absolutePath := path_resolve H p in
      if fs_access H absolutePath then inr absolutePath
      else inl (SoundNotFound p)
  else inr p.

Definition testSound (soundPath : option string) (fs : files) : outcome :=
  match getPlatformConfig H fs with
  | Returned config _ _ =>
      match given soundPath with
      | None =>
          match readSettings fs with
          | Returned settings _ _ =>
              play_configured config (stop_hooks settings) fs
          | Threw e _ _ => Failed (Raised e) []
          | OutsideModel => Unmodelled
          end
      | Some p =>
          match test_path config p with
          | inl e => Failed (Raised e) []
          | inr path => play_path path fs
          end
      end
  | Threw e _ _ => Failed (Raised e) []
  | OutsideModel => Unmodelled
  end.

End Shell.

(** ** The install and uninstall scripts *)

(** [isAlreadyConfigured] of the install script: a settings file that is
    missing or does not parse counts as not configured. *)
Definition isAlreadyConfigured (fs : files) : bool :=
  match settings_file fs with
  | Parsed settings =>
      match lookup "hooks" settings with
      | Some (JObj h) => to_boolean (get h "Stop")
      | _ => false
      end
  | _ => false
  end.

(** The lines of the uninstall script. *)
Inductive notice : Type :=
| CleaningUp
| ConfigurationRemoved (count : nat)
| CouldNotCleanUp.

Definition ccnudgeEvents : list string :=
  [ "Stop"; "SubagentStop"; "PostToolUse"; "PreToolUse"; "UserPromptSubmit";
    "Notification"; "SessionStart"; "SessionEnd"; "PreCompact" ].

(** The loop of [cleanupSettings]: the mapping left and [removedCount]. *)
Definition remove_managed (h : obj) : obj * nat :=
  fold_left
    (fun st event =>
       if to_boolean (get (fst st) event)
       then (remove event (fst st), S (snd st))
       else st)
    ccnudgeEvents (h, 0%nat).

(** [cleanupSettings] of the uninstall script.  Everything runs inside one
    [try]: a settings file that does not parse ends the function with a
    note.  A [hooks] member that is not an object has none of the managed
    keys, so nothing is removed and nothing is written. *)
Definition cleanupSettings (fs : files) : files * list notice :=
  match settings_file fs with
  | Missing => (fs, [])
  | Unparsable _ => (fs, [CouldNotCleanUp])
  | Parsed settings =>
      match settings_hooks settings with
      | NoHooks => (mkFiles (settings_file fs) Missing, [])
      | HooksOther _ => (mkFiles (settings_file fs) Missing, [CleaningUp])
      | HooksMap h =>
          let (h', removedCount) := remove_managed h in
          if (0 <? removedCount)%nat then
            (mkFiles (Parsed (cleanup h' settings)) Missing,
             [CleaningUp; ConfigurationRemoved removedCount])
          else (mkFiles (settings_file fs) Missing, [CleaningUp])
      end
  end.

(** ** The text of a settings file *)

(** What a file spells, up to layout and escapes: the JSON text as a tree,
    each number as the decimal integer literal written in the file. *)
Inductive spelling : Type :=
| SNull
| SBool (b : bool)
| SNum (literal : Z)
| SStr (s : string)
| SArr (items : list spelling)
| SObj (members : list (string * spelling)).

(** The integer held by the double nearest to the integer [n]: 53
    significant bits, a tie going to the even significand. *)
Definition nearest_double (n : Z) : Z :=
  let a := Z.abs n in
  let dropped := (Z.log2 a - 52)%Z in
  if (dropped <=? 0)%Z then n
  else
    let q := Z.shiftr a dropped in
    let r := (a - Z.shiftl q dropped)%Z in
    let half := Z.shiftl 1 (dropped - 1) in
    let q' :=
      if (half <? r)%Z || ((r =? half)%Z && Z.odd q) then (q + 1)%Z else q in
    (Z.sgn n * Z.shiftl q' dropped)%Z.

(** [JSON.parse] on an integer literal: the nearest double; from [2^1024] on
    that is [Infinity], which is no JSON value. *)
Definition number_of_literal (n : Z) : option Z :=
  let m := nearest_double n in
  if (Z.abs m <? 2 ^ 1024)%Z then Some m else None.

(** [JSON.stringify] on an integral number: its digits below [10^21]; from
    there on an exponent is written, which no integer literal spells. *)
Definition literal_of_number (m : Z) : option Z :=
  if (Z.abs m <? 10 ^ 21)%Z then Some m else None.

(** [JSON.parse] of a text whose keys are distinct; [None] when a number of
    the text is read as [Infinity]. *)
Fixpoint JSON_parse (t : spelling) : option json :=
  match t with
  | SNull => Some JNull
  | SBool b => Some (JBool b)
  | SNum n =>
      match number_of_literal n with
      | Some m => Some (JNum m)
      | None => None
      end
  | SStr s => Some (JStr s)
  | SArr items =>
      match
        (fix each (l : list spelling) : option (list json) :=
           match l with
           | [] => Some []
           | x :: rest =>
               match JSON_parse x, each rest with
               | Some v, Some vs => Some (v :: vs)
               | _, _ => None
               end
           end) items
      with
      | Some vs => Some (JArr vs)
      | None => None
      end
  | SObj members =>
      match
        (fix each (l : list (string * spelling)) : option obj :=
           match l with
           | [] => Some []
           | (k, x) :: rest =>
               match JSON_parse x, each rest with
               | Some v, Some vs => Some ((k, v) :: vs)
               | _, _ => None
               end
           end) members
      with
      | Some vs => Some (JObj vs)
      | None => None
      end
  end.

(** [JSON.stringify], up to layout; [None] when a number is written with an
    exponent. *)
Fixpoint JSON_stringify (v : json) : option spelling :=
  match v with
  | JNull => Some SNull
  | JBool b => Some (SBool b)
  | JNum m =>
      match literal_of_number m with
      | Some n => Some (SNum n)
      | None => None
      end
  | JStr s => Some (SStr s)
  | JArr items =>
      match
        (fix each (l : list json) : option (list spelling) :=
           match l with
           | [] => Some []
           | x :: rest =>
               match JSON_stringify x, each rest with
               | Some t, Some ts => Some (t :: ts)
               | _, _ => None
               end
           end) items
      with
      | Some ts => Some (SArr ts)
      | None => None
      end
  | JObj members =>
      match
        (fix each (l : list (string * json)) : option (list (string * spelling)) :=
           match l with
           | [] => Some []
           | (k, x) :: rest =>
               match JSON_stringify x, each rest with
               | Some t, Some ts => Some ((k, t) :: ts)
               | _, _ => None
               end
           end) members
      with
      | Some ts => Some (SObj ts)
      | None => None
      end
  end.

(** What a text spells for the key [k] of its top-level object. *)
Definition spelled (k : string) (t : spelling) : option spelling :=
  match t with
  | SObj members =>
      match find (fun p => fst p =? k) members with
      | Some p => Some (snd p)
      | None => None
      end
  | _ => None
  end.

(** * The vocabulary of the statements *)

(** ** What a document holds *)

Definition top_entry (f : file) (k : string) : option json :=
  match f with
  | Parsed doc => lookup k doc
  | _ => None
  end.

Definition hooks_entry (f : file) (k : string) : option json :=
  match f with
  | Parsed doc =>
      match lookup "hooks" doc with
      | Some (JObj h) => lookup k h
      | _ => None
      end
  | _ => None
  end.

(** The document [readSettings] returns, when it returns one. *)
Definition read (f : file) : option obj :=
  match f with
  | Missing => Some []
  | Unparsable _ => None
  | Parsed doc => Some doc
  end.

(** The hooks member is absent, falsy or a mapping. *)
Definition in_model (f : file) : Prop :=
  match read f with
  | Some s =>
      match settings_hooks s with
      | HooksOther _ => False
      | _ => True
      end
  | None => True
  end.

(** The mapping an operation starts from: the parsed one, or the empty one
    that replaces a missing or falsy member. *)
Definition starting_hooks (s : obj) : obj :=
  match settings_hooks s with
  | HooksMap h => h
  | _ => []
  end.

(** ** What an operation addresses and writes *)

(** Does the call address the hooks entry [k]: by its event argument or,
    for a restore of every event, through a key of the backup. *)
Definition addresses (op : operation) (backup : file) (k : string) : bool :=
  match op with
  | Setup e _ _ => e =? k
  | Enable event =>
      match given event with
      | Some e => e =? k
      | None =>
          match backup with
          | Parsed b => has_own k b
          | _ => false
          end
      end
  | Disable event =>
      match given event with
      | Some e => e =? k
      | None => false
      end
  | Remove e => e =? k
  | Status => false
  end.

(** The settings file after a write: [hooks] set to [h'] in the document
    [s], or dropped from it when [h'] has no key left. *)
Definition rewritten (s h' : obj) (f' : file) : Prop :=
  f' = Parsed (define "hooks" (JObj h') s) \/ f' = Parsed (cleanup h' s).

(** The mapping [disableNotifications] leaves when no event is named. *)
Definition without_configured (h : obj) : obj :=
  fold_left (fun acc evt => remove evt acc) (configured h) h.

(** What a written settings document [d] shows of [hooks], by operation. *)
Definition hooks_key_rule (op : operation) (d : obj) : Prop :=
  match op with
  | Disable _ | Remove _ =>
      has_own "hooks" d = true <->
      exists k v, hooks_entry (Parsed d) k = Some v
  | Setup event _ _ =>
      has_own "hooks" d = true /\
      (event <> "__proto__" ->
       exists group, hooks_entry (Parsed d) event = Some (JArr [group]))
  | Enable _ => has_own "hooks" d = true
  | Status => False
  end.

(** ** What [setupNotification] installs *)

(** The sound path [setupNotification] settles on, when the search
    succeeds; the search reads no document. *)
Definition resolved (H : host) (config : platform_config)
  (soundPath : option string) : option string :=
  match resolveSound H config soundPath (mkFiles Missing Missing) with
  | Returned p _ _ => Some p
  | _ => None
  end.

(** The command [buildSoundCommand] returns on a supported platform. *)
Definition sound_command (H : host) (config : platform_config)
  (soundPath : string) : string :=
  match os_platform H with
  | Win32 =>
      command config ++ " '" ++ soundPath ++ "'"
      ++ match commandSuffix config with Some s => s | None => "undefined" end
  | _ => command config ++ " " ++ soundPath
  end.

(** The entries [setupNotification] installs. *)
Definition built_hooks (H : host) (soundCommand : string) (notify : bool)
  : list json :=
  command_entry soundCommand ::
  (if notify then
     match buildDesktopNotifyCommand H with
     | Some notifyCommand => [command_entry notifyCommand]
     | None => []
     end
   else []).

(** The document [setupNotification] writes over [s]. *)
Definition configured_document (H : host) (config : platform_config)
  (event path : string) (notify : bool) (s : obj) : obj :=
  define "hooks"
    (JObj (put (starting_hooks s) event
             (Own (hook_group
                     (built_hooks H (sound_command H config path) notify)))))
    s.

(** ** What [getStatus] prints and recovers *)

(** A result with [l] printed before it. *)
Definition with_log {A} (l : list message) (r : result A) : result A :=
  match r with
  | Returned a fs l' => Returned a fs (l ++ l')%list
  | Threw e fs l' => Threw e fs (l ++ l')%list
  | OutsideModel => OutsideModel
  end.

(** The status line: the one [getStatus] prints after its title. *)
Definition status_line (log : list message) : option message :=
  nth_error log 1.

Definition mentions_any (markers : list string) (cmd : string) : bool :=
  existsb (includes cmd) markers.

(** The text printed after [Sound:] for the command [cmd]. *)
Definition recovered_sound (cmd : string) : string :=
  match sound_path_match cmd with
  | Some m => m
  | None => cmd
  end.

Definition no_space (s : string) : bool :=
  forallb (fun c => negb (is_space c)) (list_ascii_of_string s).

Definition audio_extensions : list string := [".aiff"; ".wav"; ".mp3"; ".oga"].

(** The lines [getStatus] prints for an event that [setupNotification]
    configured with the sound command [cmd]. *)
Definition status_lines (event cmd : string) (notify : bool) : list message :=
  [ StatusEvent event;
    StatusSound (recovered_sound cmd);
    StatusDesktop (notify || mentions_any desktop_markers cmd) ].

(** ** Devices of the proofs *)

(** Steps that touch no file. *)
Definition pure {A} (m : M A) : Prop :=
  forall fs, match m fs with
             | Returned _ fs1 _ => fs1 = fs
             | Threw _ fs1 _ => fs1 = fs
             | OutsideModel => True
             end.

(** The entries of the names of [l] that are truthy in [h], one by one. *)
Definition selected (h : obj) (l : list string) : obj :=
  flat_map
    (fun e =>
       match lookup e h with
       | Some v => if truthy v then [(e, v)] else []
       | None => []
       end)
    l.

(** A key on which an assignment changes no key list: the object owns it,
    or it is [__proto__], which the inherited setter absorbs. *)
Definition settled (k : string) (o : obj) : Prop :=
  has_own k o = true \/ k = "__proto__".

(** What a run of in-place updates does to one entry. *)
Definition retarget (b : obj) (p : string * json) : string * json :=
  fold_left (fun q kv => if fst q =? fst kv then (fst kv, snd kv) else q) b p.

Ltac unfold_monad :=
  unfold lift, as_array, sound_line, ensure_hooks, readSettings, writeSettings,
    writeBackup, unlinkBackup, getBackupConfig, getPlatformConfig, bind, ret,
    throw, console_log, outside in *.

Ltac split_match :=
  match goal with
  | |- context [match ?x with _ => _ end] =>
      lazymatch x with
      | context [match _ with _ => _ end] => fail
      | _ => destruct x eqn:?
      end
  | H : context [match ?x with _ => _ end] |- _ =>
      lazymatch x with
      | context [match _ with _ => _ end] => fail
      | _ => destruct x eqn:?
      end
  end.

Ltac split_all := repeat (split_match; simpl in *; try discriminate).

(** ** Entries that [getStatus] can read *)

(** A hook whose [command] is absent, [null] or a string. *)
Definition plain_hook (hook : json) : bool :=
  match hook with
  | JNull => false
  | JObj o =>
      match lookup "command" o with
      | None => true
      | Some JNull => true
      | Some (JStr _) => true
      | Some _ => false
      end
  | _ => true
  end.

(** An entry whose first group lists plain hooks, or lists none. *)
Definition plain_entry (x : jsval) : bool :=
  match group_hooks x with
  | JArr hooks => forallb plain_hook hooks
  | _ => false
  end.

(** * Sample hosts and states *)

Definition starts_with_slash (p : string) : bool := prefix "/" p.

(** A POSIX-like host on which every file of [present] exists and the
    working directory is [/work]. *)
Definition posix (os : platform) (present : list string) : host :=
  mkHost os
    (fun p => existsb (String.eqb p) present)
    starts_with_slash
    (fun a b => a ++ "/" ++ b)
    (fun p => if starts_with_slash p then p else "/work/" ++ p).

Definition mac : host := posix Darwin ["/System/Library/Sounds/Glass.aiff"].

(** A Windows host on which the default sound exists. *)
Definition pc : host :=
  mkHost Win32
    (fun p => p =? "C:\Windows\Media\Windows Notify System Generic.wav")
    (fun p => prefix "C:\" p)
    (fun a b => a ++ "\" ++ b)
    (fun p => "C:\work\" ++ p).

Definition darwin_config : platform_config :=
  mkConfig "afplay" "/System/Library/Sounds/Glass.aiff"
    "/System/Library/Sounds" ".aiff" None.

Definition glass_group : json :=
  hook_group [command_entry "afplay /System/Library/Sounds/Glass.aiff"].

Definition tink_group : json :=
  hook_group [command_entry "afplay /System/Library/Sounds/Tink.aiff"].

(** What Setup of Stop with desktop notifications installs on macOS. *)
Definition stop_with_banner : json :=
  JArr [JObj [("hooks",
     JArr [command_entry "afplay /System/Library/Sounds/Glass.aiff";
           command_entry
             (match buildDesktopNotifyCommand mac with
              | Some c => c
              | None => EmptyString
              end)])]].

Definition nothing : files := mkFiles Missing Missing.

(** One managed and one unmanaged event, no backup yet. *)
Definition stop_and_custom : files :=
  mkFiles
    (Parsed [("model", JStr "opus");
             ("hooks", JObj [("Stop", glass_group); ("Custom", tink_group)])])
    Missing.

(** [stop_and_custom] once everything is disabled. *)
Definition custom_only : files :=
  mkFiles
    (Parsed [("model", JStr "opus"); ("hooks", JObj [("Custom", tink_group)])])
    (Parsed [("Stop", glass_group)]).

(** The Stop event enabled, with its backup. *)
Definition enabled_stop : files :=
  mkFiles
    (Parsed [("model", JStr "opus"); ("hooks", JObj [("Stop", glass_group)])])
    (Parsed [("Stop", glass_group)]).

(** The Stop event disabled: only the backup holds it. *)
Definition disabled_stop : files :=
  mkFiles (Parsed [("model", JStr "opus")]) (Parsed [("Stop", glass_group)]).


(** [enabled_stop] once the Stop event is removed. *)
Definition removed_stop : files :=
  mkFiles (Parsed [("model", JStr "opus")]) Missing.

(** A managed event next to an unmanaged one that has no group. *)
Definition stop_and_idle : files :=
  mkFiles
    (Parsed [("hooks", JObj [("Stop", glass_group); ("Custom", JArr [])])])
    Missing.

(** A shell on which every command succeeds. *)
Definition always_plays (command : string) : bool := true.

(** A settings file that does not parse. *)
Definition broken : files := mkFiles (Unparsable "{") Missing.

(** A settings file with one key, spelled with a literal that no double
    holds. *)
Definition big_number_file : spelling :=
  SObj [("big", SNum 9007199254740993)].

(** What [readSettings] reads from [big_number_file]. *)
Definition big_number_read : files :=
  mkFiles (Parsed [("big", JNum 9007199254740992)]) Missing.

(** * Properties *)

(** ** Own properties: lookup after each update *)

Lemma lookup_remove_eq (k : string) (o : obj) : lookup k (remove k o) = None.
Proof.
  induction o as [|[k' v] o IH]; simpl; auto.
  destruct (String.eqb_spec k' k); simpl; auto.
  destruct (String.eqb_spec k' k); congruence.
Qed.

Lemma lookup_remove_neq (k k' : string) (o : obj) :
  k <> k' -> lookup k (remove k' o) = lookup k o.
Proof.
  intros Hk. induction o as [|[k0 v] o IH]; simpl; auto.
  destruct (String.eqb_spec k0 k'); simpl.
  - subst. destruct (String.eqb_spec k' k); congruence.
  - rewrite IH. reflexivity.
Qed.

Lemma lookup_update_neq (k k' : string) (v : json) (o : obj) :
  k <> k' -> lookup k (update k' v o) = lookup k o.
Proof.
  intros Hk. induction o as [|[k0 v0] o IH]; simpl; auto.
  destruct (String.eqb_spec k0 k'); simpl.
  - subst. destruct (String.eqb_spec k' k); congruence.
  - rewrite IH. reflexivity.
Qed.

Lemma lookup_update_eq (k : string) (v : json) (o : obj) :
  lookup k (update k v o) = if has_own k o then Some v else None.
Proof.
  unfold has_own. induction o as [|[k0 v0] o IH]; simpl; auto.
  destruct (String.eqb_spec k0 k); simpl.
  - rewrite String.eqb_refl. reflexivity.
  - destruct (String.eqb_spec k0 k); congruence.
Qed.

Lemma lookup_app (k : string) (o1 o2 : obj) :
  lookup k (o1 ++ o2)%list =
  match lookup k o1 with Some v => Some v | None => lookup k o2 end.
Proof.
  induction o1 as [|[k0 v0] o1 IH]; simpl; auto.
  destruct (k0 =? k); auto.
Qed.

Lemma lookup_define_eq (k : string) (v : json) (o : obj) :
  lookup k (define k v o) = Some v.
Proof.
  unfold define. destruct (has_own k o) eqn:E.
  - rewrite lookup_update_eq, E. reflexivity.
  - rewrite lookup_app. unfold has_own in E.
    destruct (lookup k o); try discriminate.
    simpl. rewrite String.eqb_refl. reflexivity.
Qed.

Lemma lookup_define_neq (k k' : string) (v : json) (o : obj) :
  k <> k' -> lookup k (define k' v o) = lookup k o.
Proof.
  intros Hk. unfold define. destruct (has_own k' o).
  - apply lookup_update_neq, Hk.
  - rewrite lookup_app. destruct (lookup k o); auto.
    simpl. destruct (String.eqb_spec k' k); congruence.
Qed.

Lemma lookup_put_neq (k k' : string) (x : jsval) (o : obj) :
  k <> k' -> lookup k (put o k' x) = lookup k o.
Proof.
  intros Hk. unfold put.
  destruct ((k' =? "__proto__") && negb (has_own k' o)); auto.
  destruct (serialised x).
  - apply lookup_define_neq, Hk.
  - apply lookup_remove_neq, Hk.
Qed.

Lemma lookup_assign_other (k : string) (source target : obj) :
  has_own k source = false -> lookup k (assign target source) = lookup k target.
Proof.
  unfold assign, has_own. revert target.
  induction source as [|[k0 v0] source IH]; intros target Hk; simpl in *; auto.
  destruct (String.eqb_spec k0 k); try discriminate.
  rewrite IH by exact Hk. apply lookup_put_neq. congruence.
Qed.

Lemma lookup_remove_all_other (k : string) (l : list string) (o : obj) :
  ~ In k l ->
  lookup k (fold_left (fun acc evt => remove evt acc) l o) = lookup k o.
Proof.
  revert o. induction l as [|e l IH]; intros o Hk; simpl in *; auto.
  rewrite IH by tauto. apply lookup_remove_neq. intros ->. tauto.
Qed.

Lemma lookup_no_keys (k : string) (o : obj) :
  (List.length (keys o) =? 0)%nat = true -> lookup k o = None.
Proof. destruct o; simpl; [reflexivity | discriminate]. Qed.

(** ** Managed names are plain names *)

Lemma managed_In (e : string) : managed e = true <-> In e eventNames.
Proof.
  unfold managed. rewrite existsb_exists. split.
  - intros [x [Hx E]]. apply String.eqb_eq in E. subst. exact Hx.
  - intros Hx. exists e. split; [exact Hx | apply String.eqb_refl].
Qed.

Lemma configured_managed (h : obj) (e : string) :
  In e (configured h) -> managed e = true.
Proof.
  unfold configured. rewrite filter_In. intros [Hin _].
  apply managed_In, Hin.
Qed.

Lemma get_managed (h : obj) (e : string) :
  managed e = true ->
  get h e = match lookup e h with Some v => Own v | None => Undefined end.
Proof.
  intros Hm. apply managed_In in Hm. unfold get.
  destruct (lookup e h); auto.
  simpl in Hm.
  repeat (destruct Hm as [<- | Hm]; [reflexivity|]). contradiction.
Qed.

(** ** The hooks member and the documents written over it *)

Lemma settings_hooks_map (s h : obj) :
  settings_hooks s = HooksMap h <-> lookup "hooks" s = Some (JObj h).
Proof.
  unfold settings_hooks.
  destruct (lookup "hooks" s) as [[| b | n | str | l | o]|]; simpl;
    repeat match goal with
           | |- context [if ?c then _ else _] => destruct c
           end;
    split; congruence.
Qed.

Lemma settings_hooks_none (s : obj) (k : string) :
  settings_hooks s = NoHooks -> hooks_entry (Parsed s) k = None.
Proof.
  unfold settings_hooks, hooks_entry.
  destruct (lookup "hooks" s) as [[| b | n | str | l | o]|]; auto.
  discriminate.
Qed.

Lemma hooks_entry_start (s : obj) (k : string) :
  hooks_entry (Parsed s) k = lookup k (starting_hooks s).
Proof.
  unfold starting_hooks, hooks_entry, settings_hooks.
  destruct (lookup "hooks" s) as [[| b | n | str | l | o]|]; simpl; auto;
    repeat match goal with
           | |- context [if ?c then _ else _] => destruct c
           end; auto.
Qed.

Lemma hooks_entry_read (f : file) (s : obj) (k : string) :
  read f = Some s -> hooks_entry f k = lookup k (starting_hooks s).
Proof.
  destruct f; simpl; intros E; inversion E; subst.
  - reflexivity.
  - apply hooks_entry_start.
Qed.

Lemma top_entry_read (f : file) (s : obj) (k : string) :
  read f = Some s -> top_entry f k = lookup k s.
Proof. destruct f; simpl; intros E; inversion E; subst; reflexivity. Qed.

Lemma hooks_entry_define (s h : obj) (k : string) :
  hooks_entry (Parsed (define "hooks" (JObj h) s)) k = lookup k h.
Proof. unfold hooks_entry. rewrite lookup_define_eq. reflexivity. Qed.

Lemma hooks_entry_cleanup (s h : obj) (k : string) :
  hooks_entry (Parsed (cleanup h s)) k = lookup k h.
Proof.
  unfold cleanup. destruct (List.length (keys h) =? 0)%nat eqn:E.
  - rewrite (lookup_no_keys k h E). unfold hooks_entry.
    rewrite lookup_remove_eq. reflexivity.
  - apply hooks_entry_define.
Qed.

Lemma top_entry_define (s : obj) (v : json) (k : string) :
  k <> "hooks" -> top_entry (Parsed (define "hooks" v s)) k = lookup k s.
Proof. intros Hk. simpl. apply lookup_define_neq, Hk. Qed.

Lemma top_entry_cleanup (s h : obj) (k : string) :
  k <> "hooks" -> top_entry (Parsed (cleanup h s)) k = lookup k s.
Proof.
  intros Hk. unfold cleanup. destruct (List.length (keys h) =? 0)%nat; simpl.
  - apply lookup_remove_neq, Hk.
  - apply lookup_define_neq, Hk.
Qed.

(** ** What each operation leaves in the two files *)

Lemma backupCurrentConfig_files (fs : files) :
  forall fs', files_after (backupCurrentConfig fs) = Some fs' ->
    settings_file fs' = settings_file fs /\
    (backup_file fs' = backup_file fs \/
     exists s, read (settings_file fs) = Some s /\
               snapshot (starting_hooks s) <> [] /\
               backup_file fs' = Parsed (snapshot (starting_hooks s))).
Proof.
  destruct fs as [sf bf]. intros fs'.
  unfold backupCurrentConfig. unfold_monad. simpl.
  destruct sf as [|t|s]; simpl.
  - intros E; inversion E; auto.
  - intros E; inversion E; auto.
  - destruct (settings_hooks s) eqn:Hs; simpl; try discriminate.
    + intros E; inversion E; auto.
    + destruct (snapshot h) eqn:Hsnap; simpl; intros E; inversion E; subst;
        simpl; auto.
      split; auto. right. exists s. unfold starting_hooks.
      rewrite Hs, Hsnap. repeat split; auto; discriminate.
Qed.

Lemma describe_files (event : string) (entry : jsval) (fs fs' : files) :
  files_after (describe event entry fs) = Some fs' -> fs' = fs.
Proof.
  unfold describe. unfold_monad. intros E.
  split_all; inversion E; reflexivity.
Qed.

Lemma for_each_files {A} (l : list A) (body : A -> M unit) :
  (forall x fs fs', files_after (body x fs) = Some fs' -> fs' = fs) ->
  forall fs fs', files_after (for_each l body fs) = Some fs' -> fs' = fs.
Proof.
  intros Hbody. induction l as [|x l IH]; intros fs fs'; simpl.
  - unfold ret. simpl. congruence.
  - unfold bind. destruct (body x fs) as [a fs1 l1| e fs1 l1|] eqn:Ex.
    + assert (fs1 = fs) by (apply (Hbody x); rewrite Ex; reflexivity). subst.
      destruct (for_each l body fs) as [b fs2 l2| e fs2 l2|] eqn:El;
        simpl; try discriminate;
        intros E; inversion E; subst; apply IH; rewrite El; reflexivity.
    + simpl. intros E. apply (Hbody x). rewrite Ex. exact E.
    + discriminate.
Qed.

Lemma getStatus_files (fs fs' : files) :
  files_after (getStatus fs) = Some fs' -> fs' = fs.
Proof.
  unfold getStatus. unfold_monad. intros E.
  destruct (settings_file fs); simpl in E; try (inversion E; reflexivity);
    destruct (backup_file fs); simpl in E.
  all: repeat
    match type of E with
    | context [match settings_hooks ?s with _ => _ end] =>
        destruct (settings_hooks s); simpl in E; try discriminate
    | context [if ?c then _ else _] => destruct c eqn:?; simpl in E
    end.
  all: try (inversion E; reflexivity).
  all: match type of E with
       | context [for_each ?l ?b ?f] =>
           destruct (for_each l b f) as [a fs1 l1|e fs1 l1|] eqn:El;
             simpl in E; try discriminate;
             inversion E; subst;
             (apply (for_each_files l b); [|rewrite El; reflexivity]);
             intros x f0 f'; apply describe_files
       end.
Qed.

Lemma bind_files_after {A B} (m : M A) (k : A -> M B) (fs fs' : files) :
  files_after (bind m k fs) = Some fs' ->
  (exists a fs1 l1, m fs = Returned a fs1 l1 /\
                    files_after (k a fs1) = Some fs') \/
  (exists e l1, m fs = Threw e fs' l1).
Proof.
  unfold bind. destruct (m fs) as [a fs1 l1|e fs1 l1|]; try discriminate.
  - intros E. left. exists a, fs1, l1. split; auto.
    destruct (k a fs1); simpl in *; auto.
  - simpl. intros E. inversion E; subst. right. eauto.
Qed.

Lemma pure_ret {A} (a : A) : pure (ret a).
Proof. intros fs. reflexivity. Qed.

Lemma pure_throw {A} (e : error) : pure (@throw A e).
Proof. intros fs. reflexivity. Qed.

Lemma pure_log (m : message) : pure (console_log m).
Proof. intros fs. reflexivity. Qed.

Lemma pure_bind {A B} (m : M A) (k : A -> M B) :
  pure m -> (forall a, pure (k a)) -> pure (bind m k).
Proof.
  intros Hm Hk fs. unfold bind. specialize (Hm fs).
  destruct (m fs) as [a fs1 l1|e fs1 l1|]; auto. subst.
  specialize (Hk a fs). destruct (k a fs); auto.
Qed.

Lemma pure_getPlatformConfig (H : host) : pure (getPlatformConfig H).
Proof.
  unfold getPlatformConfig.
  destruct (PLATFORM_CONFIGS _); [apply pure_ret | apply pure_throw].
Qed.

Lemma pure_resolveSound (H : host) (c : platform_config) (p : option string) :
  pure (resolveSound H c p).
Proof.
  unfold resolveSound. apply pure_bind.
  - destruct p as [p|].
    + repeat match goal with
             | |- pure (if ?c then _ else _) => destruct c
             | |- pure (bind _ _) => apply pure_bind; [|intros ?]
             end;
        auto using pure_ret, pure_throw, pure_log.
    + apply pure_bind; [apply pure_log | intros; apply pure_ret].
  - intros a. destruct (fs_access H a); [apply pure_ret | apply pure_throw].
Qed.

Lemma pure_buildSoundCommand (H : host) (p : string) :
  pure (buildSoundCommand H p).
Proof.
  unfold buildSoundCommand. apply pure_bind.
  - apply pure_getPlatformConfig.
  - intros c. destruct (os_platform H); apply pure_ret.
Qed.

Lemma pure_files_after {A} (m : M A) (fs fs' : files) :
  pure m -> files_after (m fs) = Some fs' -> fs' = fs.
Proof.
  intros Hm E. specialize (Hm fs).
  destruct (m fs); simpl in E; inversion E; subst; auto.
Qed.

Lemma pure_returned {A} (m : M A) (fs fs1 : files) (a : A) (l : list message) :
  pure m -> m fs = Returned a fs1 l -> fs1 = fs.
Proof. intros Hm E. specialize (Hm fs). rewrite E in Hm. exact Hm. Qed.

Lemma pure_threw {A} (m : M A) (fs fs1 : files) (e : error) (l : list message) :
  pure m -> m fs = Threw e fs1 l -> fs1 = fs.
Proof. intros Hm E. specialize (Hm fs). rewrite E in Hm. exact Hm. Qed.

Lemma resolveSound_returns (H : host) (c : platform_config)
  (sp : option string) (p : string) :
  resolved H c sp = Some p ->
  forall fs, exists l, resolveSound H c sp fs = Returned p fs l.
Proof.
  unfold resolved, resolveSound. unfold_monad. intros E fs. simpl in *.
  destruct sp as [q|]; simpl in *.
  - destruct (q =? ""); simpl in *;
      [|destruct (path_isAbsolute H q); simpl in *;
        [|destruct (fs_access H (path_join H (soundsPath c) (q ++ extension c)));
          simpl in *;
          [|destruct (fs_access H (path_resolve H q)); simpl in *;
            try discriminate]]];
      match type of E with
      | context [fs_access H ?x] => destruct (fs_access H x); simpl in *
      end; inversion E; subst; eauto.
  - destruct (fs_access H (defaultSound c)); simpl in *; inversion E; eauto.
Qed.

Lemma resolveSound_fails (H : host) (c : platform_config) (sp : option string) :
  resolved H c sp = None ->
  forall fs, exists q l, resolveSound H c sp fs = Threw (SoundNotFound q) fs l.
Proof.
  unfold resolved, resolveSound. unfold_monad. intros E fs. simpl in *.
  destruct sp as [q|]; simpl in *.
  - destruct (q =? ""); simpl in *;
      [|destruct (path_isAbsolute H q); simpl in *;
        [|destruct (fs_access H (path_join H (soundsPath c) (q ++ extension c)));
          simpl in *;
          [|destruct (fs_access H (path_resolve H q)); simpl in *;
            eauto]]];
      match type of E with
      | context [fs_access H ?x] => destruct (fs_access H x); simpl in *
      end; try discriminate; eauto.
  - destruct (fs_access H (defaultSound c)); simpl in *;
      try discriminate; eauto.
Qed.

Lemma buildSoundCommand_returns (H : host) (c : platform_config) (p : string) :
  PLATFORM_CONFIGS (os_platform H) = Some c ->
  forall fs, buildSoundCommand H p fs = Returned (sound_command H c p) fs [].
Proof.
  intros Hc fs. unfold buildSoundCommand, sound_command, getPlatformConfig.
  unfold_monad. rewrite Hc. destruct (os_platform H); reflexivity.
Qed.

Lemma backupCurrentConfig_total (fs : files) (s : obj) :
  read (settings_file fs) = Some s ->
  in_model (settings_file fs) ->
  exists b fs1 l, backupCurrentConfig fs = Returned b fs1 l.
Proof.
  unfold in_model. intros Hr Hm. rewrite Hr in Hm.
  unfold backupCurrentConfig. unfold_monad.
  destruct (settings_file fs); simpl in *; inversion Hr; subst; simpl.
  - eauto.
  - destruct (settings_hooks s); simpl; try contradiction; eauto.
    destruct (0 <? _)%nat; simpl; eauto.
Qed.

Lemma readSettings_read (fs : files) :
  readSettings fs =
  match read (settings_file fs) with
  | Some s => Returned s fs []
  | None => Threw ParseError fs []
  end.
Proof. unfold readSettings, read. destruct (settings_file fs); reflexivity. Qed.

Lemma backupCurrentConfig_threw (fs fs1 : files) (e : error) (l : list message) :
  backupCurrentConfig fs = Threw e fs1 l ->
  fs1 = fs /\ read (settings_file fs) = None.
Proof.
  unfold backupCurrentConfig. unfold_monad.
  destruct (settings_file fs) eqn:Es; simpl.
  - discriminate.
  - intros E; inversion E; auto.
  - destruct (settings_hooks doc); simpl; try discriminate.
    destruct (0 <? _)%nat; simpl; discriminate.
Qed.

Lemma backupCurrentConfig_returned (fs fs1 : files) (b : bool) (l : list message) :
  backupCurrentConfig fs = Returned b fs1 l ->
  exists s, read (settings_file fs) = Some s /\ in_model (settings_file fs) /\
            settings_file fs1 = settings_file fs.
Proof.
  intros E.
  assert (Hf : files_after (backupCurrentConfig fs) = Some fs1)
    by (rewrite E; reflexivity).
  apply backupCurrentConfig_files in Hf. destruct Hf as [Hs _].
  revert E. unfold backupCurrentConfig, in_model. unfold_monad.
  destruct (settings_file fs) eqn:Es; simpl.
  - intros _. exists []. auto.
  - discriminate.
  - destruct (settings_hooks doc) eqn:Eh; simpl; try discriminate;
      intros _; exists doc; auto.
Qed.

Lemma setup_returned (H : host) (event : string) (sp : option string)
  (notify : bool) (fs fs' : files) (l : list message) :
  setupNotification H event sp notify fs = Returned tt fs' l ->
  exists c p s fs1,
    PLATFORM_CONFIGS (os_platform H) = Some c /\
    resolved H c sp = Some p /\
    read (settings_file fs) = Some s /\
    in_model (settings_file fs) /\
    files_after (backupCurrentConfig fs) = Some fs1 /\
    fs' = mkFiles (Parsed (configured_document H c event p notify s))
                  (backup_file fs1).
Proof.
  unfold setupNotification, getPlatformConfig.
  destruct (PLATFORM_CONFIGS (os_platform H)) as [c|] eqn:Ec;
    [|unfold bind, throw; discriminate].
  unfold bind at 1. unfold ret at 1.
  unfold bind at 1.
  destruct (backupCurrentConfig fs) as [b fs1 l1|e fs1 l1|] eqn:Eb;
    try discriminate.
  destruct (backupCurrentConfig_returned _ _ _ _ Eb) as [s [Hr [Hm Hs]]].
  unfold bind at 1.
  destruct (resolved H c sp) as [p|] eqn:Er.
  - destruct (resolveSound_returns H c sp p Er fs1) as [l2 ->].
    unfold bind at 1. rewrite readSettings_read, Hs, Hr.
    unfold bind at 1. unfold ensure_hooks.
    unfold in_model in Hm. rewrite Hr in Hm.
    destruct (settings_hooks s) eqn:Eh; try contradiction.
    all: unfold bind at 1, ret at 1; unfold bind at 1;
      rewrite (buildSoundCommand_returns H c p Ec);
      unfold_monad; simpl; destruct notify; simpl;
      intros E; inversion E; subst; exists c, p, s, fs1;
      unfold configured_document, starting_hooks, built_hooks; rewrite Eh;
      repeat split;
      first [ assumption | reflexivity | rewrite Eb; reflexivity
            | unfold in_model; rewrite Hr, Eh; exact I ].
  - destruct (resolveSound_fails H c sp Er fs1) as [q [l2 ->]]. discriminate.
Qed.

Lemma setup_threw (H : host) (event : string) (sp : option string)
  (notify : bool) (fs fs' : files) (e : error) (l : list message) :
  setupNotification H event sp notify fs = Threw e fs' l ->
  fs' = fs \/
  (exists q, e = SoundNotFound q) /\
  files_after (backupCurrentConfig fs) = Some fs'.
Proof.
  unfold setupNotification, getPlatformConfig.
  destruct (PLATFORM_CONFIGS (os_platform H)) as [c|] eqn:Ec;
    [|unfold bind, throw; intros E; inversion E; auto].
  unfold bind at 1. unfold ret at 1.
  unfold bind at 1.
  destruct (backupCurrentConfig fs) as [b fs1 l1|e1 fs1 l1|] eqn:Eb;
    try discriminate.
  - destruct (backupCurrentConfig_returned _ _ _ _ Eb) as [s [Hr [Hm Hs]]].
    unfold bind at 1.
    destruct (resolved H c sp) as [p|] eqn:Er.
    + destruct (resolveSound_returns H c sp p Er fs1) as [l2 ->].
      unfold bind at 1. rewrite readSettings_read, Hs, Hr.
      unfold bind at 1. unfold ensure_hooks.
      unfold in_model in Hm. rewrite Hr in Hm.
      destruct (settings_hooks s) eqn:Eh; try contradiction.
      all: unfold bind at 1, ret at 1; unfold bind at 1;
        rewrite (buildSoundCommand_returns H c p Ec);
        unfold_monad; simpl; destruct notify; simpl; discriminate.
    + destruct (resolveSound_fails H c sp Er fs1) as [q [l2 ->]].
      intros E; inversion E; subst. right. split; eauto.
  - apply backupCurrentConfig_threw in Eb. destruct Eb as [-> _].
    intros E; inversion E; auto.
Qed.

Lemma setup_returns (H : host) (event : string) (sp : option string)
  (notify : bool) (fs : files) (c : platform_config) (p : string) (s : obj) :
  PLATFORM_CONFIGS (os_platform H) = Some c ->
  resolved H c sp = Some p ->
  read (settings_file fs) = Some s ->
  in_model (settings_file fs) ->
  exists fs1 l,
    files_after (backupCurrentConfig fs) = Some fs1 /\
    setupNotification H event sp notify fs =
    Returned tt
      (mkFiles (Parsed (configured_document H c event p notify s))
               (backup_file fs1)) l.
Proof.
  intros Ec Er Hr Hm.
  destruct (backupCurrentConfig_total fs s Hr Hm) as [b [fs1 [l1 Eb]]].
  destruct (backupCurrentConfig_returned _ _ _ _ Eb) as [s' [Hr' [_ Hs]]].
  unfold setupNotification, getPlatformConfig. rewrite Ec.
  unfold bind at 1. unfold ret at 1.
  unfold bind at 1. rewrite Eb.
  unfold bind at 1.
  destruct (resolveSound_returns H c sp p Er fs1) as [l2 ->].
  unfold bind at 1. rewrite readSettings_read, Hs, Hr.
  unfold bind at 1. unfold ensure_hooks.
  unfold in_model in Hm. rewrite Hr in Hm.
  unfold configured_document, starting_hooks.
  destruct (settings_hooks s) eqn:Eh; try contradiction.
  all: unfold bind at 1, ret at 1; unfold bind at 1;
    rewrite (buildSoundCommand_returns H c p Ec);
    unfold_monad; simpl; destruct notify; simpl;
    eexists; eexists; (split; [reflexivity|]); reflexivity.
Qed.

(** ** The snapshot *)

Lemma managed_not_proto (e : string) :
  managed e = true -> (e =? "__proto__") = false.
Proof.
  intros Hm. apply managed_In in Hm. simpl in Hm.
  repeat (destruct Hm as [<- | Hm]; [reflexivity|]). contradiction.
Qed.

Lemma NoDup_eventNames : NoDup eventNames.
Proof.
  unfold eventNames. simpl.
  repeat (constructor; [simpl; intuition discriminate|]). constructor.
Qed.

Lemma has_own_app (k : string) (o1 o2 : obj) :
  has_own k (o1 ++ o2)%list = has_own k o1 || has_own k o2.
Proof.
  unfold has_own. rewrite lookup_app. destruct (lookup k o1); reflexivity.
Qed.

Lemma has_own_selected (h : obj) (k : string) (l : list string) :
  ~ In k l -> has_own k (selected h l) = false.
Proof.
  unfold selected. induction l as [|e l IH]; intros Hk; simpl in *; auto.
  rewrite has_own_app, IH by tauto. rewrite orb_false_r.
  destruct (lookup e h) as [v|]; auto. destruct (truthy v); auto.
  unfold has_own. simpl. destruct (String.eqb_spec e k); auto.
  subst. tauto.
Qed.

Lemma snapshot_from (h : obj) (l : list string) (acc : obj) :
  (forall e, In e l -> managed e = true) ->
  NoDup l ->
  (forall e, In e l -> has_own e acc = false) ->
  fold_left
    (fun acc e => if to_boolean (get h e) then put acc e (get h e) else acc)
    l acc
  = (acc ++ selected h l)%list.
Proof.
  revert acc. induction l as [|e l IH]; intros acc Hm Hnd Hacc; simpl.
  - rewrite app_nil_r. reflexivity.
  - inversion Hnd as [|? ? Hnotin Hnd']; subst.
    assert (He : managed e = true) by (apply Hm; left; reflexivity).
    rewrite (get_managed h e He).
    assert (Hstep :
      (if to_boolean match lookup e h with Some v => Own v | None => Undefined end
       then put acc e match lookup e h with Some v => Own v | None => Undefined end
       else acc)
      = (acc ++ match lookup e h with
                | Some v => if truthy v then [(e, v)] else []
                | None => []
                end)%list).
    { destruct (lookup e h) as [v|]; simpl; [|rewrite app_nil_r; reflexivity].
      destruct (truthy v); [|rewrite app_nil_r; reflexivity].
      unfold put, define. rewrite (managed_not_proto e He). simpl.
      rewrite (Hacc e) by (left; reflexivity). reflexivity. }
    rewrite Hstep, IH.
    + unfold selected. simpl. rewrite app_assoc. reflexivity.
    + intros x Hx. apply Hm. right. exact Hx.
    + exact Hnd'.
    + intros x Hx. rewrite has_own_app, (Hacc x) by (right; exact Hx).
      simpl. destruct (lookup e h) as [v|]; auto. destruct (truthy v); auto.
      unfold has_own. simpl. destruct (String.eqb_spec e x); auto.
      subst. contradiction.
Qed.

Lemma snapshot_selected (h : obj) : snapshot h = selected h eventNames.
Proof.
  unfold snapshot. rewrite snapshot_from; auto.
  - intros e He. apply managed_In, He.
  - apply NoDup_eventNames.
Qed.

Lemma keys_selected (h : obj) (l : list string) :
  (forall e, In e l -> managed e = true) ->
  keys (selected h l) = filter (fun e => to_boolean (get h e)) l.
Proof.
  unfold keys, selected. induction l as [|e l IH]; intros Hm; simpl; auto.
  rewrite map_app, IH by (intros x Hx; apply Hm; right; exact Hx).
  rewrite (get_managed h e) by (apply Hm; left; reflexivity).
  destruct (lookup e h) as [v|]; simpl; auto. destruct (truthy v); auto.
Qed.

Lemma keys_snapshot (h : obj) : keys (snapshot h) = configured h.
Proof.
  rewrite snapshot_selected. apply keys_selected.
  intros e He. apply managed_In, He.
Qed.

Lemma lookup_selected (h : obj) (k : string) (l : list string) :
  NoDup l -> In k l ->
  lookup k (selected h l) =
  match lookup k h with
  | Some v => if truthy v then Some v else None
  | None => None
  end.
Proof.
  unfold selected. induction l as [|e l IH]; intros Hnd Hk; simpl in *.
  - contradiction.
  - inversion Hnd as [|? ? Hnotin Hnd']; subst. rewrite lookup_app.
    destruct Hk as [-> | Hk].
    + destruct (lookup k h) as [v|] eqn:E; simpl.
      * destruct (truthy v); simpl.
        -- rewrite String.eqb_refl. reflexivity.
        -- pose proof (has_own_selected h k l Hnotin) as Hn.
           unfold has_own, selected in Hn.
           destruct (lookup k (flat_map _ l)); [discriminate | reflexivity].
      * pose proof (has_own_selected h k l Hnotin) as Hn.
        unfold has_own, selected in Hn.
        destruct (lookup k (flat_map _ l)); [discriminate | reflexivity].
    + assert (Hne : e <> k) by (intros ->; contradiction).
      specialize (IH Hnd' Hk).
      destruct (lookup e h) as [v|]; simpl; auto.
      destruct (truthy v); simpl; auto.
      destruct (String.eqb_spec e k); congruence.
Qed.

Lemma lookup_snapshot (h : obj) (k : string) :
  lookup k (snapshot h) =
  if managed k then
    match lookup k h with
    | Some v => if truthy v then Some v else None
    | None => None
    end
  else None.
Proof.
  rewrite snapshot_selected. destruct (managed k) eqn:Hm.
  - apply lookup_selected; [apply NoDup_eventNames | apply managed_In, Hm].
  - assert (Hn : ~ In k eventNames).
    { intros Hin. apply managed_In in Hin. congruence. }
    pose proof (has_own_selected h k eventNames Hn) as Ho.
    unfold has_own in Ho.
    destruct (lookup k (selected h eventNames)); [discriminate | reflexivity].
Qed.

Lemma In_configured (h : obj) (e : string) :
  In e (configured h) <->
  managed e = true /\ exists v, lookup e h = Some v /\ truthy v = true.
Proof.
  unfold configured. rewrite filter_In, <- managed_In. split.
  - intros [Hm Ht]. split; auto. rewrite (get_managed h e Hm) in Ht.
    destruct (lookup e h) as [v|]; simpl in Ht; [eauto | discriminate].
  - intros [Hm [v [Hv Ht]]]. split; auto.
    rewrite (get_managed h e Hm), Hv. exact Ht.
Qed.

Lemma lookup_without_configured (h : obj) (k : string) :
  lookup k (without_configured h) =
  if existsb (String.eqb k) (configured h) then None else lookup k h.
Proof.
  unfold without_configured. generalize (configured h) as l. intros l.
  revert h. induction l as [|e l IH]; intros h; simpl; auto.
  rewrite IH. destruct (String.eqb_spec k e).
  - subst. simpl. destruct (existsb _ l); auto. apply lookup_remove_eq.
  - simpl. destruct (existsb _ l); auto. apply lookup_remove_neq. exact n.
Qed.

(** ** The operations, case by case *)

Lemma enableNotifications_eq (event : option string) (fs : files) :
  enableNotifications event fs =
  match backup_file fs with
  | Parsed b =>
      match read (settings_file fs) with
      | None => Threw ParseError fs []
      | Some s =>
          match settings_hooks s with
          | HooksOther _ => OutsideModel
          | _ =>
              match given event with
              | Some e =>
                  if to_boolean (get b e) then
                    Returned tt
                      (mkFiles
                         (Parsed (define "hooks"
                                    (JObj (put (starting_hooks s) e (get b e)))
                                    s))
                         (Parsed b))
                      [EventEnabled e]
                  else Returned tt fs [NoBackupFor e]
              | None =>
                  Returned tt
                    (mkFiles
                       (Parsed (define "hooks"
                                  (JObj (assign (starting_hooks s) b)) s))
                       (Parsed b))
                    [EnabledAll (List.length (keys b))]
              end
          end
      end
  | _ => Returned tt fs [NoPreviousConfiguration]
  end.
Proof.
  destruct fs as [sf bf]. unfold enableNotifications, starting_hooks.
  unfold_monad. simpl.
  destruct bf as [|t|b]; simpl; auto.
  destruct sf as [|t|s]; simpl; auto.
  - destruct (given event) as [e|]; simpl; auto.
    destruct (to_boolean (get b e)); reflexivity.
  - destruct (settings_hooks s); simpl; auto;
      destruct (given event) as [e|]; simpl; auto;
      destruct (to_boolean (get b e)); reflexivity.
Qed.

Lemma disableNotifications_eq (event : option string) (fs : files) :
  disableNotifications event fs =
  match read (settings_file fs) with
  | None => Threw ParseError fs []
  | Some s =>
      match settings_hooks s with
      | HooksOther _ => OutsideModel
      | NoHooks => Returned tt fs [NothingConfigured]
      | HooksMap h =>
          match configured h with
          | [] => Returned tt fs [NothingConfigured]
          | _ =>
              match given event with
              | Some e =>
                  if to_boolean (get h e) then
                    Returned tt
                      (mkFiles (Parsed (cleanup (remove e h) s))
                               (Parsed (snapshot h)))
                      [EventDisabled e]
                  else
                    Returned tt
                      (mkFiles (settings_file fs) (Parsed (snapshot h)))
                      [NotConfiguredFor e]
              | None =>
                  Returned tt
                    (mkFiles (Parsed (cleanup (without_configured h) s))
                             (Parsed (snapshot h)))
                    [DisabledAll (List.length (configured h))]
              end
          end
      end
  end.
Proof.
  destruct fs as [sf bf].
  unfold disableNotifications, backupCurrentConfig, without_configured.
  unfold_monad. simpl.
  destruct sf as [|t|s]; simpl; auto.
  destruct (settings_hooks s) as [|h|v] eqn:Eh; simpl; auto.
  destruct (configured h) as [|e0 l0] eqn:Ec; simpl; auto.
  rewrite Eh. simpl. rewrite keys_snapshot, Ec. simpl.
  destruct (given event) as [e|]; simpl; auto.
  destruct (to_boolean (get h e)); reflexivity.
Qed.

Lemma removeNotification_eq (event : string) (fs : files) :
  removeNotification event fs =
  match read (settings_file fs) with
  | None => Threw ParseError fs []
  | Some s =>
      match settings_hooks s with
      | HooksOther _ => OutsideModel
      | NoHooks => Returned tt fs [NotConfiguredFor event]
      | HooksMap h =>
          if to_boolean (get h event) then
            Returned tt
              (mkFiles (Parsed (cleanup (remove event h) s)) Missing)
              [Removed event]
          else Returned tt fs [NotConfiguredFor event]
      end
  end.
Proof.
  destruct fs as [sf bf]. unfold removeNotification. unfold_monad. simpl.
  destruct sf as [|t|s]; simpl; auto.
  destruct (settings_hooks s) as [|h|v]; simpl; auto.
  destruct (to_boolean (get h event)); reflexivity.
Qed.

Lemma unmanaged_not_configured (h : obj) (k : string) :
  managed k = false -> existsb (String.eqb k) (configured h) = false.
Proof.
  intros Hk. destruct (existsb _ _) eqn:E; auto.
  apply existsb_exists in E. destruct E as [x [Hx Ex]].
  apply String.eqb_eq in Ex. subst.
  apply configured_managed in Hx. congruence.
Qed.

Lemma rewritten_frame (f f' : file) (s h' : obj) (k : string) :
  read f = Some s ->
  rewritten s h' f' ->
  (k <> "hooks" -> top_entry f' k = top_entry f k) /\
  (lookup k h' = lookup k (starting_hooks s) ->
   hooks_entry f' k = hooks_entry f k).
Proof.
  intros Hr Hw. rewrite (top_entry_read f s k Hr), (hooks_entry_read f s k Hr).
  destruct Hw as [-> | ->]; split; intros Hk.
  - apply top_entry_define, Hk.
  - rewrite hooks_entry_define. exact Hk.
  - apply top_entry_cleanup, Hk.
  - rewrite hooks_entry_cleanup. exact Hk.
Qed.

Lemma starting_hooks_map (s h : obj) :
  settings_hooks s = HooksMap h -> starting_hooks s = h.
Proof. unfold starting_hooks. intros ->. reflexivity. Qed.

(** ** [getStatus] touches no file *)

Lemma getStatus_threw (fs fs' : files) (e : error) (l : list message) :
  getStatus fs = Threw e fs' l -> fs' = fs.
Proof.
  intros E. apply getStatus_files. rewrite E. reflexivity.
Qed.

(** ** Entries written by name *)

Lemma lookup_put_own (k : string) (v : json) (o : obj) :
  k <> "__proto__" -> lookup k (put o k (Own v)) = Some v.
Proof.
  intros Hk. unfold put. apply String.eqb_neq in Hk. rewrite Hk. simpl.
  apply lookup_define_eq.
Qed.

Lemma settings_hooks_define (s h : obj) :
  settings_hooks (define "hooks" (JObj h) s) = HooksMap h.
Proof. apply settings_hooks_map, lookup_define_eq. Qed.

Lemma lookup_snapshot_unmanaged (h : obj) (k : string) :
  managed k = false -> lookup k (snapshot h) = None.
Proof. intros Hk. rewrite lookup_snapshot, Hk. reflexivity. Qed.

(** ** Restoring a snapshot *)

Lemma lookup_assign (k : string) (target source : obj) :
  NoDup (keys source) ->
  has_own "__proto__" source = false ->
  lookup k (assign target source) =
  match lookup k source with
  | Some v => Some v
  | None => lookup k target
  end.
Proof.
  unfold assign. revert target.
  induction source as [|[k0 v0] source IH]; intros target Hnd Hp; simpl in *;
    auto.
  inversion Hnd as [|? ? Hnotin Hnd']; subst.
  unfold has_own in Hp. simpl in Hp.
  destruct (String.eqb_spec k0 "__proto__") as [|Hk0]; [discriminate|].
  destruct (String.eqb_spec k0 k) as [->|Hne].
  - assert (Hk : has_own k source = false).
    { unfold has_own. destruct (lookup k source) eqn:E; auto.
      exfalso. apply Hnotin. clear - E.
      induction source as [|[k1 v1] source IH]; simpl in *; [discriminate|].
      destruct (String.eqb_spec k1 k); auto. }
    pose proof (lookup_assign_other k source (put target k (Own v0)) Hk) as Ha.
    unfold assign in Ha. rewrite Ha. apply lookup_put_own, Hk0.
  - rewrite IH; auto.
    destruct (lookup k source); auto. apply lookup_put_neq. congruence.
Qed.

Lemma NoDup_configured (h : obj) : NoDup (configured h).
Proof. apply NoDup_filter, NoDup_eventNames. Qed.

Lemma snapshot_has_no_proto (h : obj) : has_own "__proto__" (snapshot h) = false.
Proof.
  unfold has_own. rewrite lookup_snapshot_unmanaged; reflexivity.
Qed.

Lemma lookup_assign_snapshot (k : string) (target h : obj) :
  lookup k (assign target (snapshot h)) =
  match lookup k (snapshot h) with
  | Some v => Some v
  | None => lookup k target
  end.
Proof.
  apply lookup_assign.
  - rewrite keys_snapshot. apply NoDup_configured.
  - apply snapshot_has_no_proto.
Qed.

Lemma settings_hooks_cleanup (h s : obj) :
  settings_hooks (cleanup h s) <> HooksMap h -> 
  settings_hooks (cleanup h s) = NoHooks /\ h = [].
Proof.
  unfold cleanup. destruct h as [|p h]; simpl.
  - intros _. split; auto. unfold settings_hooks.
    rewrite lookup_remove_eq. reflexivity.
  - rewrite settings_hooks_define. congruence.
Qed.

Lemma starting_hooks_cleanup (h s : obj) : starting_hooks (cleanup h s) = h.
Proof.
  unfold starting_hooks.
  destruct (settings_hooks (cleanup h s)) eqn:E.
  - destruct (settings_hooks_cleanup h s) as [_ ->]; congruence.
  - unfold cleanup in E. destruct h as [|p h']; simpl in E.
    + unfold settings_hooks in E. rewrite lookup_remove_eq in E. discriminate.
    + rewrite settings_hooks_define in E. congruence.
  - destruct (settings_hooks_cleanup h s) as [E' _]; congruence.
Qed.

Lemma cleanup_in_model (h s : obj) : in_model (Parsed (cleanup h s)).
Proof.
  unfold in_model. simpl.
  destruct (settings_hooks (cleanup h s)) eqn:E; auto.
  destruct (settings_hooks_cleanup h s) as [E' _]; congruence.
Qed.

Lemma lookup_restored (h : obj) (k : string) :
  lookup k (assign (without_configured h) (snapshot h)) = lookup k h.
Proof.
  rewrite lookup_assign_snapshot, lookup_snapshot, lookup_without_configured.
  destruct (managed k) eqn:Hm.
  - destruct (lookup k h) as [v|] eqn:Hv.
    + destruct (truthy v) eqn:Ht; auto.
      destruct (existsb (String.eqb k) (configured h)) eqn:Ex; auto.
      apply existsb_exists in Ex. destruct Ex as [x [Hx Ex]].
      apply String.eqb_eq in Ex. subst x.
      apply In_configured in Hx. destruct Hx as [_ [v' [Hv' Ht']]].
      congruence.
    + destruct (existsb _ _); reflexivity.
  - rewrite unmanaged_not_configured; auto.
Qed.

(** ** Updates in place and the second [Object.assign] *)

Lemma keys_update (k : string) (v : json) (o : obj) :
  keys (update k v o) = keys o.
Proof.
  unfold keys, update. rewrite map_map. apply map_ext.
  intros [k0 v0]. simpl. destruct (String.eqb_spec k0 k); simpl; congruence.
Qed.

Lemma has_own_keys (k : string) (o : obj) :
  has_own k o = existsb (String.eqb k) (keys o).
Proof.
  unfold has_own. induction o as [|[k0 v0] o IH]; simpl; auto.
  rewrite (String.eqb_sym k k0). destruct (k0 =? k); simpl; auto.
Qed.

Lemma has_own_update (k k' : string) (v : json) (o : obj) :
  has_own k' (update k v o) = has_own k' o.
Proof. rewrite !has_own_keys, keys_update. reflexivity. Qed.

Lemma update_absent (k : string) (v : json) (o : obj) :
  has_own k o = false -> update k v o = o.
Proof.
  unfold has_own, update. induction o as [|[k0 v0] o IH]; simpl; auto.
  destruct (String.eqb_spec k0 k); [discriminate|].
  intros Hk. rewrite IH by exact Hk. reflexivity.
Qed.

Lemma update_update (k : string) (v v' : json) (o : obj) :
  update k v (update k v' o) = update k v o.
Proof.
  unfold update. rewrite map_map. apply map_ext.
  intros [k0 v0]. simpl. destruct (String.eqb_spec k0 k); simpl.
  - rewrite String.eqb_refl. reflexivity.
  - destruct (String.eqb_spec k0 k); congruence.
Qed.

Lemma update_app (k : string) (v : json) (o1 o2 : obj) :
  update k v (o1 ++ o2)%list = (update k v o1 ++ update k v o2)%list.
Proof. unfold update. apply map_app. Qed.

Lemma has_own_define (k : string) (v : json) (o : obj) :
  has_own k (define k v o) = true.
Proof. unfold has_own. rewrite lookup_define_eq. reflexivity. Qed.

Lemma update_define (k : string) (v v' : json) (o : obj) :
  update k v (define k v' o) = define k v o.
Proof.
  unfold define. destruct (has_own k o) eqn:E.
  - apply update_update.
  - rewrite update_app, (update_absent k v o E). simpl.
    rewrite String.eqb_refl. reflexivity.
Qed.

Lemma define_define (k : string) (v v' : json) (o : obj) :
  define k v (define k v' o) = define k v o.
Proof.
  unfold define at 1. rewrite has_own_define. apply update_define.
Qed.

Lemma remove_remove (k : string) (o : obj) : remove k (remove k o) = remove k o.
Proof.
  unfold remove. induction o as [|[k0 v0] o IH]; simpl; auto.
  destruct (k0 =? k) eqn:E; simpl; auto. rewrite E. simpl. congruence.
Qed.

Lemma has_own_remove (k : string) (o : obj) : has_own k (remove k o) = false.
Proof. unfold has_own. rewrite lookup_remove_eq. reflexivity. Qed.

Lemma remove_absent (k : string) (o : obj) :
  has_own k o = false -> remove k o = o.
Proof.
  unfold has_own, remove. induction o as [|[k0 v0] o IH]; simpl; auto.
  destruct (String.eqb_spec k0 k); [discriminate|].
  simpl. intros Hk. rewrite IH by exact Hk. reflexivity.
Qed.

Lemma put_put (o : obj) (k : string) (x : jsval) :
  put (put o k x) k x = put o k x.
Proof.
  unfold put at 2 3.
  destruct ((k =? "__proto__") && negb (has_own k o)) eqn:G.
  - unfold put. rewrite G. reflexivity.
  - destruct (serialised x) as [v|] eqn:Ex; unfold put; rewrite Ex.
    + rewrite has_own_define, andb_false_r. apply define_define.
    + rewrite has_own_remove. simpl.
      destruct (k =? "__proto__"); simpl; auto. apply remove_remove.
Qed.

Lemma has_own_In (k : string) (o : obj) :
  has_own k o = true <-> In k (keys o).
Proof.
  rewrite has_own_keys, existsb_exists. split.
  - intros [x [Hx E]]. apply String.eqb_eq in E. subst. exact Hx.
  - intros Hk. exists k. split; [exact Hk | apply String.eqb_refl].
Qed.

Lemma has_own_entry (p : string * json) (o : obj) :
  In p o -> has_own (fst p) o = true.
Proof. intros Hp. apply has_own_In. unfold keys. apply in_map, Hp. Qed.

Lemma put_settled (k : string) (v : json) (o : obj) :
  settled k o -> put o k (Own v) = update k v o.
Proof.
  unfold settled, put, define. simpl. destruct (has_own k o) eqn:E.
  - rewrite andb_false_r. reflexivity.
  - intros [Hk | ->]; [discriminate|]. simpl.
    symmetry. apply update_absent, E.
Qed.

Lemma has_own_put (k k' : string) (v : json) (o : obj) :
  has_own k o = true -> has_own k (put o k' (Own v)) = true.
Proof.
  intros Hk. unfold put, define. simpl.
  destruct ((k' =? "__proto__") && negb (has_own k' o)); auto.
  destruct (has_own k' o).
  - rewrite has_own_update. exact Hk.
  - rewrite has_own_app, Hk. reflexivity.
Qed.

Lemma settled_put_same (k : string) (v : json) (o : obj) :
  settled k (put o k (Own v)).
Proof.
  unfold settled, put. simpl.
  destruct (String.eqb_spec k "__proto__"); auto.
  simpl. left. apply has_own_define.
Qed.

Lemma settled_put (k k' : string) (v : json) (o : obj) :
  settled k o -> settled k (put o k' (Own v)).
Proof. intros [Hk | Hk]; [left; apply has_own_put, Hk | right; exact Hk]. Qed.

Lemma settled_update (k k' : string) (v : json) (o : obj) :
  settled k o -> settled k (update k' v o).
Proof.
  intros [Hk | Hk]; [left; rewrite has_own_update; exact Hk | right; exact Hk].
Qed.

Lemma settled_assign (k : string) (target source : obj) :
  settled k target -> settled k (assign target source).
Proof.
  unfold assign. revert target.
  induction source as [|[k0 v0] source IH]; intros target Hk; simpl; auto.
  apply IH, settled_put, Hk.
Qed.

Lemma assign_settles (k : string) (target source : obj) :
  In k (keys source) -> settled k (assign target source).
Proof.
  unfold assign. revert target.
  induction source as [|[k0 v0] source IH]; intros target Hk; simpl in *.
  - contradiction.
  - destruct Hk as [-> | Hk].
    + apply (settled_assign k _ source), settled_put_same.
    + apply IH, Hk.
Qed.

Lemma assign_updates (target source : obj) :
  (forall k, In k (keys source) -> settled k target) ->
  assign target source =
  fold_left (fun acc kv => update (fst kv) (snd kv) acc) source target.
Proof.
  unfold assign. revert target.
  induction source as [|[k0 v0] source IH]; intros target Hs; simpl in *; auto.
  rewrite put_settled by (apply Hs; left; reflexivity).
  apply IH. intros k Hk. apply settled_update, Hs. right. exact Hk.
Qed.

Lemma updates_retarget (b : obj) (o : obj) :
  fold_left (fun acc kv => update (fst kv) (snd kv) acc) b o
  = map (retarget b) o.
Proof.
  revert o. induction b as [|[k v] b IH]; intros o; simpl.
  - unfold retarget. simpl. symmetry. apply map_id.
  - rewrite IH. unfold update. rewrite map_map. apply map_ext.
    intros p. reflexivity.
Qed.

Lemma retarget_by_key (b : obj) (p : string * json) (w : json) :
  In (fst p) (keys b) -> retarget b p = retarget b (fst p, w).
Proof.
  unfold retarget. revert p w.
  induction b as [|[k v] b IH]; intros p w Hk; simpl in *.
  - contradiction.
  - destruct (String.eqb_spec (fst p) k) as [E|E]; auto.
    destruct Hk as [Hk | Hk]; [congruence|].
    rewrite (IH p w Hk). reflexivity.
Qed.

Lemma retarget_fresh (b : obj) (p : string * json) :
  ~ In (fst p) (keys b) -> retarget b p = p.
Proof.
  unfold retarget. revert p.
  induction b as [|[k v] b IH]; intros p Hk; simpl in *; auto.
  destruct (String.eqb_spec (fst p) k) as [E|E]; [exfalso; auto|].
  apply IH. tauto.
Qed.

Lemma In_put_other (p : string * json) (o : obj) (k : string) (x : jsval) :
  In p (put o k x) -> fst p <> k -> In p o.
Proof.
  unfold put, define, update, remove. intros Hp Hk.
  destruct ((k =? "__proto__") && negb (has_own k o)); auto.
  destruct (serialised x) as [v|].
  - destruct (has_own k o).
    + apply in_map_iff in Hp. destruct Hp as [q [Eq Hq]].
      destruct (String.eqb_spec (fst q) k); subst; simpl in *; tauto.
    + apply in_app_or in Hp. destruct Hp as [Hp | [<- | []]]; auto.
      simpl in Hk. congruence.
  - apply filter_In in Hp. tauto.
Qed.

Lemma In_put_same (p : string * json) (o : obj) (v : json) :
  In p (put o (fst p) (Own v)) -> snd p = v.
Proof.
  destruct p as [k w]. unfold put, define, update. simpl. intros Hp.
  destruct (has_own k o) eqn:E.
  - rewrite andb_false_r in Hp.
    apply in_map_iff in Hp. destruct Hp as [[k1 w1] [Eq Hq]]. simpl in Eq.
    destruct (String.eqb_spec k1 k); congruence.
  - assert (Hno : ~ In (k, w) o).
    { intros Hin. apply has_own_entry in Hin. simpl in Hin. congruence. }
    destruct (k =? "__proto__"); simpl in Hp; [contradiction|].
    apply in_app_or in Hp. destruct Hp as [Hp | [Hp | []]];
      [contradiction | congruence].
Qed.

Lemma In_assign_untouched (p : string * json) (target source : obj) :
  In p (assign target source) -> ~ In (fst p) (keys source) -> In p target.
Proof.
  unfold assign. revert target.
  induction source as [|[k0 v0] source IH]; intros target Hp Hk; simpl in *;
    auto.
  apply (In_put_other p target k0 (Own v0));
    [|intros E; apply Hk; left; congruence].
  apply IH; tauto.
Qed.

Lemma assign_fixed_entries (source target : obj) (p : string * json) :
  In p (assign target source) -> retarget source p = p.
Proof.
  revert target. induction source as [|[k v] source IH]; intros target Hp.
  - reflexivity.
  - change (assign target ((k, v) :: source))
      with (assign (put target k (Own v)) source) in Hp.
    change (retarget ((k, v) :: source) p)
      with (retarget source (if fst p =? k then (k, v) else p)).
    destruct (String.eqb_spec (fst p) k) as [E|E]; [|apply (IH _ Hp)].
    destruct (in_dec string_dec k (keys source)) as [Hin | Hout].
    + transitivity (retarget source p); [|apply (IH _ Hp)].
      subst k. symmetry. apply retarget_by_key. exact Hin.
    + rewrite retarget_fresh by exact Hout.
      subst k. apply In_assign_untouched in Hp; [|exact Hout].
      apply In_put_same in Hp. destruct p; simpl in *; congruence.
Qed.

Lemma assign_assign (target source : obj) :
  assign (assign target source) source = assign target source.
Proof.
  rewrite (assign_updates (assign target source) source)
    by (intros k Hk; apply assign_settles, Hk).
  rewrite updates_retarget.
  rewrite <- (map_id (assign target source)) at 2.
  apply map_ext_in. intros p Hp. apply (assign_fixed_entries _ _ _ Hp).
Qed.

Lemma configured_without_configured (h : obj) :
  configured (without_configured h) = [].
Proof.
  destruct (configured (without_configured h)) as [|e l] eqn:E; auto.
  assert (Hin : In e (configured (without_configured h)))
    by (rewrite E; left; reflexivity).
  apply In_configured in Hin. destruct Hin as [Hm [v [Hv Ht]]].
  rewrite lookup_without_configured in Hv.
  destruct (existsb (String.eqb e) (configured h)) eqn:Ex; [discriminate|].
  assert (Hc : In e (configured h)) by (apply In_configured; eauto).
  assert (Hx : existsb (String.eqb e) (configured h) = true).
  { apply existsb_exists. exists e. split; [exact Hc | apply String.eqb_refl]. }
  congruence.
Qed.

(** ** What [getStatus] prints *)

Lemma result_eta {A} (r : result A) :
  match r with
  | Returned b fs l => Returned b fs l
  | Threw e fs l => Threw e fs l
  | OutsideModel => OutsideModel
  end = r.
Proof. destruct r; reflexivity. Qed.

Lemma getStatus_eq (fs : files) :
  getStatus fs =
  match read (settings_file fs) with
  | None => Threw ParseError fs []
  | Some s =>
      match settings_hooks s with
      | HooksOther _ => OutsideModel
      | _ =>
          let h := starting_hooks s in
          match configured h with
          | [] =>
              match backup_file fs with
              | Parsed b => Returned tt fs [StatusTitle; StatusDisabled (keys b)]
              | _ => Returned tt fs [StatusTitle; StatusNotConfigured]
              end
          | _ =>
              with_log
                [StatusTitle; StatusEnabled (List.length (configured h))]
                (for_each (configured h)
                   (fun event => describe event (get h event)) fs)
          end
      end
  end.
Proof.
  destruct fs as [sf bf]. unfold getStatus, starting_hooks.
  unfold ensure_hooks, readSettings, getBackupConfig, bind at 1 2 3.
  cbn [settings_file backup_file].
  assert (Hgo : forall h,
    bind (console_log StatusTitle)
      (fun _ =>
         if (0 <? List.length (configured h))%nat
         then bind (console_log (StatusEnabled (List.length (configured h))))
                (fun _ => for_each (configured h)
                            (fun event => describe event (get h event)))
         else match (match bf with Parsed d => Some d | _ => None end) with
              | Some backup => console_log (StatusDisabled (keys backup))
              | None => console_log StatusNotConfigured
              end) (mkFiles sf bf)
    = match configured h with
      | [] =>
          match bf with
          | Parsed b =>
              Returned tt (mkFiles sf bf) [StatusTitle; StatusDisabled (keys b)]
          | _ => Returned tt (mkFiles sf bf) [StatusTitle; StatusNotConfigured]
          end
      | _ =>
          with_log [StatusTitle; StatusEnabled (List.length (configured h))]
            (for_each (configured h)
               (fun event => describe event (get h event)) (mkFiles sf bf))
      end).
  { intros h. unfold bind, console_log.
    destruct (configured h) as [|e0 l0]; simpl.
    - destruct bf; reflexivity.
    - match goal with
      | |- _ = with_log _ ?r => destruct r
      end; reflexivity. }
  destruct sf as [|t|s]; simpl.
  - destruct bf; simpl; apply (Hgo []).
  - destruct bf; reflexivity.
  - destruct (settings_hooks s) as [|h|v]; destruct bf; simpl; auto;
      rewrite !result_eta; first [ apply (Hgo []) | apply (Hgo h) ].
Qed.

Lemma describe_inside (event : string) (x : jsval) (fs : files) :
  describe event x fs <> OutsideModel.
Proof.
  unfold describe. unfold_monad. split_all; discriminate.
Qed.

Lemma describe_log (event : string) (x : jsval) (fs : files) :
  exists rest,
    log_of (describe event x fs) = StatusEvent event :: rest /\
    (forall e, ~ In (StatusEvent e) rest) /\
    (forall evs, ~ In (StatusDisabled evs) rest).
Proof.
  unfold describe. unfold_monad.
  split_all; eexists; (split; [reflexivity|]);
    split; intros ? Hin; simpl in Hin;
    repeat (destruct Hin as [Hin | Hin]; [discriminate|]); exact Hin.
Qed.

Lemma for_each_describe_inside (h : obj) (l : list string) (fs : files) :
  for_each l (fun event => describe event (get h event)) fs <> OutsideModel.
Proof.
  revert fs. induction l as [|e l IH]; intros fs; simpl.
  - discriminate.
  - unfold bind.
    pose proof (describe_inside e (get h e) fs) as Hd.
    destruct (describe e (get h e) fs) as [a f1 l1|x f1 l1|];
      [|discriminate|congruence].
    specialize (IH f1).
    match goal with
    | |- context [for_each l ?b f1] => destruct (for_each l b f1)
    end; [discriminate|discriminate|congruence].
Qed.

Lemma In_log_bind {A B} (m : M A) (k : A -> M B) (fs : files) (x : message) :
  In x (log_of (bind m k fs)) ->
  In x (log_of (m fs)) \/ exists a f1, In x (log_of (k a f1)).
Proof.
  unfold bind. destruct (m fs) as [a f1 l1|e f1 l1|]; simpl; auto.
  destruct (k a f1) as [b f2 l2|e f2 l2|] eqn:Ek; simpl;
    intros Hin; try contradiction;
    apply in_app_or in Hin; destruct Hin as [Hin | Hin]; auto;
    right; exists a, f1; rewrite Ek; exact Hin.
Qed.

Lemma for_each_describe_log (h : obj) (l : list string) (fs : files) :
  (forall e, In (StatusEvent e)
               (log_of (for_each l
                          (fun event => describe event (get h event)) fs)) ->
             In e l) /\
  (forall evs, ~ In (StatusDisabled evs)
                 (log_of (for_each l
                            (fun event => describe event (get h event)) fs))).
Proof.
  revert fs. induction l as [|e0 l IH]; intros fs; simpl.
  - split; intros ? Hin; exact Hin.
  - split; intros y Hin; apply In_log_bind in Hin;
      destruct (describe_log e0 (get h e0) fs) as [rest [El [Hev Hdis]]];
      rewrite El in Hin; simpl in Hin;
      destruct Hin as [[Hin | Hin] | [a [f1 Hin]]].
    + left. congruence.
    + exfalso. apply (Hev y Hin).
    + right. apply (proj1 (IH f1) y Hin).
    + discriminate.
    + apply (Hdis y Hin).
    + apply (proj2 (IH f1) y Hin).
Qed.

(** ** The events [getStatus] lists *)

Lemma configured_nonempty (h : obj) :
  configured h <> [] <->
  exists e v, managed e = true /\ lookup e h = Some v /\ truthy v = true.
Proof.
  split.
  - destruct (configured h) as [|e l] eqn:E; [congruence|]. intros _.
    assert (Hin : In e (configured h)) by (rewrite E; left; reflexivity).
    apply In_configured in Hin. destruct Hin as [Hm [v Hv]]. eauto.
  - intros [e [v [Hm Hv]]] E.
    assert (Hin : In e (configured h)) by (apply In_configured; eauto).
    rewrite E in Hin. exact Hin.
Qed.

Lemma status_event_is_configured (fs : files) (e : string) :
  In (StatusEvent e) (log_of (getStatus fs)) ->
  exists s, read (settings_file fs) = Some s /\
            In e (configured (starting_hooks s)).
Proof.
  rewrite getStatus_eq.
  destruct (read (settings_file fs)) as [s|]; simpl; [|contradiction].
  intros Hin. exists s. split; auto.
  assert (Hgo :
    In (StatusEvent e)
      (log_of
         (match configured (starting_hooks s) with
          | [] =>
              match backup_file fs with
              | Parsed b =>
                  Returned tt fs [StatusTitle; StatusDisabled (keys b)]
              | _ => Returned tt fs [StatusTitle; StatusNotConfigured]
              end
          | _ =>
              with_log
                [StatusTitle;
                 StatusEnabled (List.length (configured (starting_hooks s)))]
                (for_each (configured (starting_hooks s))
                   (fun event => describe event (get (starting_hooks s) event))
                   fs)
          end)) ->
    In e (configured (starting_hooks s))).
  { pose proof (for_each_describe_log (starting_hooks s)
                  (configured (starting_hooks s)) fs) as [Hev _].
    destruct (configured (starting_hooks s)) as [|e0 l0].
    - destruct (backup_file fs); simpl; intuition discriminate.
    - destruct (for_each (e0 :: l0) _ fs); simpl in *; intros H0;
        try contradiction;
        (destruct H0 as [H0 | [H0 | H0]]; [discriminate | discriminate |]);
        apply Hev, H0. }
  destruct (settings_hooks s); simpl in Hin;
    [apply Hgo, Hin | apply Hgo, Hin | contradiction].
Qed.

Lemma status_disabled_has_backup (fs : files) (evs : list string) :
  In (StatusDisabled evs) (log_of (getStatus fs)) ->
  exists b, backup_file fs = Parsed b.
Proof.
  rewrite getStatus_eq.
  destruct (read (settings_file fs)) as [s|]; simpl; [|contradiction].
  intros Hin.
  assert (Hgo :
    In (StatusDisabled evs)
      (log_of
         (match configured (starting_hooks s) with
          | [] =>
              match backup_file fs with
              | Parsed b =>
                  Returned tt fs [StatusTitle; StatusDisabled (keys b)]
              | _ => Returned tt fs [StatusTitle; StatusNotConfigured]
              end
          | _ =>
              with_log
                [StatusTitle;
                 StatusEnabled (List.length (configured (starting_hooks s)))]
                (for_each (configured (starting_hooks s))
                   (fun event => describe event (get (starting_hooks s) event))
                   fs)
          end)) ->
    exists b, backup_file fs = Parsed b).
  { pose proof (for_each_describe_log (starting_hooks s)
                  (configured (starting_hooks s)) fs) as [_ Hdis].
    destruct (configured (starting_hooks s)) as [|e0 l0].
    - destruct (backup_file fs); simpl; eauto; intuition discriminate.
    - destruct (for_each (e0 :: l0) _ fs); simpl in *; intros H0;
        try contradiction;
        (destruct H0 as [H0 | [H0 | H0]]; [discriminate | discriminate |]);
        exfalso; apply (Hdis evs H0). }
  destruct (settings_hooks s); simpl in Hin;
    [apply Hgo, Hin | apply Hgo, Hin | contradiction].
Qed.

(** ** The clean-up of an empty [hooks] *)

Lemma cleanup_rule (h s : obj) :
  has_own "hooks" (cleanup h s) = true <->
  exists k v, hooks_entry (Parsed (cleanup h s)) k = Some v.
Proof.
  split.
  - intros Ho. destruct h as [|[k v] h].
    + unfold cleanup in Ho. simpl in Ho. rewrite has_own_remove in Ho.
      discriminate.
    + exists k, v. rewrite hooks_entry_cleanup. simpl.
      rewrite String.eqb_refl. reflexivity.
  - intros [k [v Hk]]. unfold hooks_entry in Hk. unfold has_own.
    destruct (lookup "hooks" (cleanup h s)); [reflexivity | discriminate].
Qed.

(** ** The lines printed for a configured event *)

Lemma any_marker_string (cmd : string) (markers : list string) :
  any_marker (Some (JStr cmd)) markers = inr (mentions_any markers cmd).
Proof.
  unfold mentions_any. induction markers as [|m ms IH]; simpl; auto.
  destruct (includes cmd m); simpl; auto.
Qed.

Lemma mentions_command_entry (markers : list string) (cmd : string) :
  mentions markers (command_entry cmd) = inr (mentions_any markers cmd).
Proof. unfold mentions. simpl. apply any_marker_string. Qed.

Lemma sound_command_marked (H : host) (c : platform_config) (p : string) :
  PLATFORM_CONFIGS (os_platform H) = Some c ->
  mentions_any sound_markers (sound_command H c p) = true.
Proof.
  unfold sound_command, mentions_any, PLATFORM_CONFIGS.
  destruct (os_platform H); intros E; inversion E; subst; simpl command;
    simpl commandSuffix; apply existsb_exists.
  - exists "afplay". split; [simpl; auto | reflexivity].
  - exists "paplay". split; [simpl; auto | reflexivity].
  - exists "Media.SoundPlayer". split; [simpl; auto | reflexivity].
Qed.

Lemma notify_command_marked (H : host) (c : platform_config) :
  PLATFORM_CONFIGS (os_platform H) = Some c ->
  exists ncmd, buildDesktopNotifyCommand H = Some ncmd /\
               mentions_any desktop_markers ncmd = true.
Proof.
  unfold buildDesktopNotifyCommand, PLATFORM_CONFIGS.
  destruct (os_platform H); intros E; inversion E; subst;
    eexists; split; reflexivity.
Qed.

Lemma describe_configured (H : host) (c : platform_config) (event p : string)
  (notify : bool) (fs : files) :
  PLATFORM_CONFIGS (os_platform H) = Some c ->
  describe event
    (Own (hook_group (built_hooks H (sound_command H c p) notify))) fs
  = Returned tt fs (status_lines event (sound_command H c p) notify).
Proof.
  intros Hc. unfold describe, status_lines, built_hooks.
  destruct (notify_command_marked H c Hc) as [ncmd [-> Hn]].
  pose proof (sound_command_marked H c p Hc) as Hs.
  set (cmd := sound_command H c p) in *.
  unfold bind at 1. unfold console_log at 1.
  unfold bind at 1. unfold group_hooks, hook_group, index0, as_array. 
  cbn [lookup String.eqb Ascii.eqb Bool.eqb truthy ret].
  unfold bind at 1.
  assert (Hfind : forall rest,
            find_hook sound_markers (command_entry cmd :: rest)
            = inr (Some (command_entry cmd))).
  { intros rest. cbn [find_hook]. rewrite mentions_command_entry, Hs.
    reflexivity. }
  assert (Hsome :
    some_hook desktop_markers
      (command_entry cmd :: (if notify then [command_entry ncmd] else []))
    = inr (notify || mentions_any desktop_markers cmd)).
  { cbn [some_hook]. rewrite mentions_command_entry.
    destruct (mentions_any desktop_markers cmd).
    - rewrite orb_true_r. reflexivity.
    - destruct notify; cbn [some_hook]; [|reflexivity].
      rewrite mentions_command_entry, Hn. reflexivity. }
  rewrite Hfind. unfold lift at 1, ret at 1.
  unfold bind at 1. unfold sound_line, command_entry at 1.
  cbn [lookup String.eqb Ascii.eqb Bool.eqb].
  unfold console_log at 1. unfold bind at 1.
  rewrite Hsome. unfold lift, ret, console_log, recovered_sound. reflexivity.
Qed.

Lemma run_then_extension_suffix (body ext : string) :
  In ext audio_extensions ->
  body <> "" ->
  no_space body = true ->
  run_then_extension (body ++ ext) = Some (body ++ ext).
Proof.
  intros Hext. induction body as [|ch body IH]; intros Hne Hsp.
  - congruence.
  - unfold no_space in Hsp. simpl in Hsp. apply andb_true_iff in Hsp.
    destruct Hsp as [Hc Hrest]. apply negb_true_iff in Hc.
    simpl. rewrite Hc.
    destruct body as [|ch' body'].
    + simpl. simpl in Hext.
      destruct Hext as [<- | [<- | [<- | [<- | []]]]]; reflexivity.
    + rewrite IH; [reflexivity | discriminate | exact Hrest].
Qed.

Lemma recovered_sound_posix (H : host) (c : platform_config)
  (body ext : string) :
  os_platform H = Darwin \/ os_platform H = Linux ->
  PLATFORM_CONFIGS (os_platform H) = Some c ->
  In ext audio_extensions ->
  body <> "" ->
  no_space body = true ->
  recovered_sound (sound_command H c ("/" ++ body ++ ext))
  = "/" ++ body ++ ext.
Proof.
  intros Hos Hc Hext Hne Hsp.
  unfold recovered_sound, sound_command.
  destruct Hos as [Hos | Hos]; rewrite Hos in *; simpl in Hc;
    inversion Hc; subst; simpl;
    rewrite (run_then_extension_suffix body ext Hext Hne Hsp); reflexivity.
Qed.

Lemma for_each_returned_lines (h : obj) (l : list string) (e : string)
  (lines : list message) :
  In e l ->
  (forall f, describe e (get h e) f = Returned tt f lines) ->
  forall fs fs' log,
    for_each l (fun event => describe event (get h event)) fs
    = Returned tt fs' log ->
    exists pre post, log = (pre ++ lines ++ post)%list.
Proof.
  intros Hin Hlines. induction l as [|e0 l IH]; intros fs fs' log; simpl in *.
  - contradiction.
  - unfold bind.
    destruct (describe e0 (get h e0) fs) as [a f1 l1|x f1 l1|] eqn:Ed;
      try discriminate.
    destruct (for_each l (fun event => describe event (get h event)) f1)
      as [b f2 l2|x f2 l2|] eqn:El; try discriminate.
    intros E. inversion E; subst.
    destruct (string_dec e0 e) as [->|Hne].
    + rewrite Hlines in Ed. inversion Ed; subst.
      exists [], l2. reflexivity.
    + destruct Hin as [Hin | Hin]; [congruence|].
      destruct (IH Hin f1 fs' l2 El) as [pre [post ->]].
      exists (l1 ++ pre)%list, post. rewrite <- app_assoc. reflexivity.
Qed.

Lemma resolved_default (H : host) (c : platform_config) (p : string) :
  resolved H c None = Some p -> p = defaultSound c.
Proof.
  unfold resolved, resolveSound. unfold_monad. simpl.
  destruct (fs_access H (defaultSound c)); simpl; congruence.
Qed.

(** ** The two scenarios of the design document *)

(** Setup of Stop on an empty document installs the sound entry, then the
    desktop entry; disabling drops [hooks] and fills the backup; enabling
    brings the entry back. *)
Example scenario_setup_disable_enable :
  files_after (run mac (Setup "Stop" None true) nothing)
  = Some (mkFiles (Parsed [("hooks", JObj [("Stop", stop_with_banner)])])
                  Missing)
  /\ files_after
       (run mac (Disable None)
          (mkFiles (Parsed [("hooks", JObj [("Stop", stop_with_banner)])])
                   Missing))
     = Some (mkFiles (Parsed []) (Parsed [("Stop", stop_with_banner)]))
  /\ files_after
       (run mac (Enable None)
          (mkFiles (Parsed []) (Parsed [("Stop", stop_with_banner)])))
     = Some (mkFiles (Parsed [("hooks", JObj [("Stop", stop_with_banner)])])
                     (Parsed [("Stop", stop_with_banner)])).
Proof. repeat split. Qed.

(** Disabling one of two configured events removes that one only and
    snapshots both. *)
Example scenario_disable_one_of_two :
  files_after
    (run mac (Disable (Some "Stop"))
       (mkFiles
          (Parsed [("hooks", JObj [("Stop", glass_group);
                                   ("PostToolUse", tink_group)])])
          Missing))
  = Some (mkFiles
            (Parsed [("hooks", JObj [("PostToolUse", tink_group)])])
            (Parsed [("Stop", glass_group); ("PostToolUse", tink_group)])).
Proof. reflexivity. Qed.

(** * The claims *)

(** ** C1: disabling everything, then enabling everything *)

(** C1.  On a settings document whose [hooks] mapping has an entry for at
    least one managed event (an entry the code sees: a truthy value, as
    every sequence of hook groups is), [disableNotifications] without event
    followed by [enableNotifications] without event both return; afterwards
    the [hooks] entry of every managed event is the one it was before the
    disable, and every other top-level key and every unmanaged [hooks]
    entry is unchanged after either call. *)
Theorem disable_then_enable_restores :
  forall (fs : files) (s h : obj),
    read (settings_file fs) = Some s ->
    settings_hooks s = HooksMap h ->
    (exists e v, managed e = true /\ lookup e h = Some v /\ truthy v = true) ->
    exists fs1 l1 fs2 l2,
      disableNotifications None fs = Returned tt fs1 l1 /\
      enableNotifications None fs1 = Returned tt fs2 l2 /\
      (forall e, managed e = true ->
         hooks_entry (settings_file fs2) e = hooks_entry (settings_file fs) e) /\
      (forall k, managed k = false ->
         hooks_entry (settings_file fs1) k = hooks_entry (settings_file fs) k /\
         hooks_entry (settings_file fs2) k = hooks_entry (settings_file fs) k) /\
      (forall k, k <> "hooks" ->
         top_entry (settings_file fs1) k = top_entry (settings_file fs) k /\
         top_entry (settings_file fs2) k = top_entry (settings_file fs) k).
Proof.
  intros fs s h Hr Hh [e [v [Hm [Hv Ht]]]].
  assert (Hin : In e (configured h)) by (apply In_configured; eauto).
  rewrite disableNotifications_eq, Hr, Hh.
  destruct (configured h) as [|e0 l0] eqn:Ec; [contradiction|].
  rewrite <- Ec. simpl given. cbv iota.
  do 4 eexists. split; [reflexivity|].
  rewrite enableNotifications_eq. cbn [settings_file backup_file read given].
  assert (Hnot : forall x, settings_hooks (cleanup (without_configured h) s)
                           <> HooksOther x).
  { intros x E. pose proof (cleanup_in_model (without_configured h) s) as Hi.
    unfold in_model in Hi. simpl in Hi. rewrite E in Hi. exact Hi. }
  rewrite starting_hooks_cleanup.
  destruct (settings_hooks (cleanup (without_configured h) s)) eqn:Es;
    [| |exfalso; eapply Hnot; reflexivity].
  all: split; [reflexivity|];
    cbn [settings_file backup_file];
    (split; [|split]); intros key Hkey;
    try match goal with |- _ /\ _ => split end;
    rewrite ?(hooks_entry_read (settings_file fs) s key Hr),
      ?(starting_hooks_map s h Hh),
      ?hooks_entry_define, ?hooks_entry_cleanup,
      ?(top_entry_read (settings_file fs) s key Hr);
    try apply lookup_restored;
    try (rewrite lookup_without_configured, unmanaged_not_configured;
         auto; fail);
    try (apply top_entry_cleanup; exact Hkey);
    try (rewrite top_entry_define by exact Hkey; unfold cleanup;
         destruct (List.length (keys (without_configured h)) =? 0)%nat;
         [apply lookup_remove_neq | apply lookup_define_neq]; exact Hkey).
Qed.

Lemma disable_then_enable_restores_witness :
  exists fs1 l1 fs2 l2,
    disableNotifications None stop_and_custom = Returned tt fs1 l1 /\
    enableNotifications None fs1 = Returned tt fs2 l2 /\
    (forall e, managed e = true ->
       hooks_entry (settings_file fs2) e
       = hooks_entry (settings_file stop_and_custom) e) /\
    (forall k, managed k = false ->
       hooks_entry (settings_file fs1) k
       = hooks_entry (settings_file stop_and_custom) k /\
       hooks_entry (settings_file fs2) k
       = hooks_entry (settings_file stop_and_custom) k) /\
    (forall k, k <> "hooks" ->
       top_entry (settings_file fs1) k
       = top_entry (settings_file stop_and_custom) k /\
       top_entry (settings_file fs2) k
       = top_entry (settings_file stop_and_custom) k).
Proof.
  apply (disable_then_enable_restores stop_and_custom
           [("model", JStr "opus");
            ("hooks", JObj [("Stop", glass_group); ("Custom", tink_group)])]
           [("Stop", glass_group); ("Custom", tink_group)]).
  - reflexivity.
  - reflexivity.
  - exists "Stop", glass_group. repeat split.
Defined.

(** ** C2: what the operations leave alone *)

(** C2 (as amended).  Every operation leaves every top-level key other than
    [hooks] with the value it had; it leaves the [hooks] entry of an
    unmanaged name [K] with the value it had unless the call addresses that
    very name through its event argument or, for a restore of every event,
    through a key of the backup.  The values compared are the parsed ones:
    what [JSON.parse] reads for the key from the settings file before the
    call and after it.  The text of the value is not compared: a write
    spells it anew. *)
Theorem unaddressed_keys_preserved :
  forall (H : host) (op : operation) (fs fs' : files) (K : string),
    files_after (run H op fs) = Some fs' ->
    (K <> "hooks" ->
     top_entry (settings_file fs') K = top_entry (settings_file fs) K) /\
    (managed K = false ->
     addresses op (backup_file fs) K = false ->
     hooks_entry (settings_file fs') K = hooks_entry (settings_file fs) K).
Proof.
  intros H op fs fs' K Hrun.
  assert (Hsame : settings_file fs' = settings_file fs ->
    (K <> "hooks" ->
     top_entry (settings_file fs') K = top_entry (settings_file fs) K) /\
    (managed K = false ->
     addresses op (backup_file fs) K = false ->
     hooks_entry (settings_file fs') K = hooks_entry (settings_file fs) K)).
  { intros ->. auto. }
  destruct op as [event sp notify | event | event | event |]; simpl in *.
  - (* setupNotification *)
    destruct (setupNotification H event sp notify fs)
      as [[] fs1 l|e fs1 l|] eqn:E; simpl in Hrun; inversion Hrun; subst.
    + apply setup_returned in E.
      destruct E as [c [p [s [fs1 [_ [_ [Hr [_ [_ ->]]]]]]]]].
      unfold configured_document. simpl settings_file.
      match goal with
      | |- context [define "hooks" (JObj ?h') s] =>
          destruct (rewritten_frame (settings_file fs) _ s h' K Hr
                      (or_introl eq_refl)) as [Htop Hhooks]
      end.
      split; [exact Htop|]. intros _ Ha. apply Hhooks.
      apply lookup_put_neq. apply String.eqb_neq in Ha. congruence.
    + apply setup_threw in E. destruct E as [-> | [_ Hb]]; auto.
      apply backupCurrentConfig_files in Hb. apply Hsame, Hb.
  - (* enableNotifications *)
    rewrite enableNotifications_eq in Hrun.
    destruct (backup_file fs) as [|t|b]; simpl in Hrun;
      try (inversion Hrun; subst; auto; fail).
    destruct (read (settings_file fs)) as [s|] eqn:Hr; simpl in Hrun;
      [|inversion Hrun; subst; auto].
    assert (Hgo : forall h', fs' = mkFiles
                    (Parsed (define "hooks" (JObj h') s)) (Parsed b) ->
                  (managed K = false ->
                   addresses (Enable event) (Parsed b) K = false ->
                   lookup K h' = lookup K (starting_hooks s)) ->
      (K <> "hooks" ->
       top_entry (settings_file fs') K = top_entry (settings_file fs) K) /\
      (managed K = false ->
       addresses (Enable event) (Parsed b) K = false ->
       hooks_entry (settings_file fs') K = hooks_entry (settings_file fs) K)).
    { intros h' -> Hl. simpl settings_file.
      destruct (rewritten_frame (settings_file fs) _ s h' K Hr
                  (or_introl eq_refl)) as [Htop Hhooks].
      split; auto. }
    simpl in Hgo.
    destruct (settings_hooks s) eqn:Eh; try discriminate;
      destruct (given event) as [e|];
      try destruct (to_boolean (get b e));
      inversion Hrun; subst; auto;
      apply (Hgo _ eq_refl); intros _ Ha;
      first [ apply lookup_put_neq; apply String.eqb_neq in Ha; congruence
            | apply lookup_assign_other; exact Ha ].
  - (* disableNotifications *)
    rewrite disableNotifications_eq in Hrun.
    destruct (read (settings_file fs)) as [s|] eqn:Hr; simpl in Hrun;
      [|inversion Hrun; subst; auto].
    destruct (settings_hooks s) as [|h|v] eqn:Eh; simpl in Hrun;
      try (inversion Hrun; subst; auto; fail).
    destruct (configured h) as [|e0 l0] eqn:Ec;
      [inversion Hrun; subst; auto|].
    rewrite <- Ec in *.
    destruct (given event) as [e|]; [destruct (to_boolean (get h e))|];
      inversion Hrun; subst; simpl settings_file; auto;
      match goal with
      | |- context [Parsed (cleanup ?h' s)] =>
          destruct (rewritten_frame (settings_file fs) _ s h' K Hr
                      (or_intror eq_refl)) as [Htop Hhooks]
      end;
      (split; [exact Htop|]); intros Hk Ha; apply Hhooks;
      rewrite (starting_hooks_map s h Eh).
    + apply lookup_remove_neq. apply String.eqb_neq in Ha. congruence.
    + rewrite lookup_without_configured, unmanaged_not_configured; auto.
  - (* removeNotification *)
    rewrite removeNotification_eq in Hrun.
    destruct (read (settings_file fs)) as [s|] eqn:Hr; simpl in Hrun;
      [|inversion Hrun; subst; auto].
    destruct (settings_hooks s) as [|h|v] eqn:Eh; simpl in Hrun;
      try (inversion Hrun; subst; auto; fail).
    destruct (to_boolean (get h event));
      inversion Hrun; subst; simpl settings_file; auto.
    destruct (rewritten_frame (settings_file fs) _ s (remove event h) K Hr
                (or_intror eq_refl)) as [Htop Hhooks].
    split; [exact Htop|]. intros Hk Ha. apply Hhooks.
    rewrite (starting_hooks_map s h Eh).
    apply lookup_remove_neq. apply String.eqb_neq in Ha. congruence.
  - (* getStatus *)
    apply getStatus_files in Hrun. subst. auto.
Qed.

Lemma unaddressed_keys_preserved_witness :
  files_after (run mac (Disable None) stop_and_custom) = Some custom_only
  /\ top_entry (settings_file custom_only) "model"
     = top_entry (settings_file stop_and_custom) "model"
  /\ hooks_entry (settings_file custom_only) "Custom"
     = hooks_entry (settings_file stop_and_custom) "Custom".
Proof.
  split; [reflexivity|]. split.
  - apply (unaddressed_keys_preserved mac (Disable None) stop_and_custom
             custom_only "model"); [reflexivity | discriminate].
  - apply (unaddressed_keys_preserved mac (Disable None) stop_and_custom
             custom_only "Custom"); reflexivity.
Defined.

(** A literal below [2^53] in magnitude is read as the number it spells, and
    that number is written with the same digits. *)
Lemma safe_literal_kept (n : Z) :
  (Z.abs n < 2 ^ 53)%Z ->
  number_of_literal n = Some n /\ literal_of_number n = Some n.
Proof.
  intros Hn.
  assert (Hd : nearest_double n = n).
  { unfold nearest_double.
    assert (Hl : (Z.log2 (Z.abs n) - 52 <= 0)%Z).
    { destruct (Z.eq_dec (Z.abs n) 0) as [E | E].
      - rewrite E. simpl. lia.
      - assert (Z.log2 (Z.abs n) < 53)%Z by (apply Z.log2_lt_pow2; lia). lia. }
    apply Z.leb_le in Hl. rewrite Hl. reflexivity. }
  unfold number_of_literal, literal_of_number. rewrite Hd.
  assert (H1 : (Z.abs n <? 2 ^ 1024)%Z = true).
  { apply Z.ltb_lt. eapply Z.lt_trans; [exact Hn|]. reflexivity. }
  assert (H2 : (Z.abs n <? 10 ^ 21)%Z = true).
  { apply Z.ltb_lt. eapply Z.lt_trans; [exact Hn|]. reflexivity. }
  rewrite H1, H2. split; reflexivity.
Qed.

(** C2 (as stated) fails in two ways.  [removeNotification] for a name
    outside the enumerated set deletes that entry of [hooks].  And the value
    of a key that no call addresses is not byte-identical after a write: a
    settings file that spells [big] as 9007199254740993 is read with the
    double 9007199254740992 for it, and [setupNotification] for Stop, which
    leaves that parsed value alone, writes the document back with [big]
    spelled 9007199254740992. *)
Lemma preservation_as_stated_fails :
  (managed "Custom" = false
   /\ hooks_entry (settings_file stop_and_custom) "Custom" = Some tink_group
   /\ files_after (run mac (Remove "Custom") stop_and_custom)
      = Some (mkFiles
                (Parsed [("model", JStr "opus");
                         ("hooks", JObj [("Stop", glass_group)])])
                Missing)
   /\ hooks_entry (Parsed [("model", JStr "opus");
                           ("hooks", JObj [("Stop", glass_group)])]) "Custom"
      = None)
  /\
  (spelled "big" big_number_file = Some (SNum 9007199254740993)
   /\ JSON_parse big_number_file = Some (JObj [("big", JNum 9007199254740992)])
   /\ addresses (Setup "Stop" None false) (backup_file big_number_read) "big"
      = false
   /\ files_after (run mac (Setup "Stop" None false) big_number_read)
      = Some (mkFiles
                (Parsed [("big", JNum 9007199254740992);
                         ("hooks", JObj [("Stop", glass_group)])])
                Missing)
   /\ exists t,
        JSON_stringify
          (JObj [("big", JNum 9007199254740992);
                 ("hooks", JObj [("Stop", glass_group)])])
        = Some t
        /\ spelled "big" t = Some (SNum 9007199254740992)).
Proof.
  split.
  - repeat split.
  - split; [reflexivity|]. split; [vm_compute; reflexivity|].
    split; [reflexivity|]. split; [vm_compute; reflexivity|].
    eexists. split; vm_compute; reflexivity.
Qed.

(** ** C3: the state a failed operation leaves *)




(** ** C4: removing an event *)

(** C4 (as amended).  For a managed event, [removeNotification] returns,
    and a following [getStatus] never lists the event as enabled.  When the
    event had an entry in [hooks] the backup file is gone afterwards and
    [getStatus] names nothing as recoverable; when it had none, the call
    changes neither file, so a backup that was there stays. *)
Theorem remove_then_status :
  forall (event : string) (fs : files) (s : obj),
    managed event = true ->
    read (settings_file fs) = Some s ->
    in_model (settings_file fs) ->
    exists fs1 l1,
      removeNotification event fs = Returned tt fs1 l1 /\
      ~ In (StatusEvent event) (log_of (getStatus fs1)) /\
      (to_boolean (get (starting_hooks s) event) = true ->
       backup_file fs1 = Missing /\
       forall evs, ~ In (StatusDisabled evs) (log_of (getStatus fs1))) /\
      (to_boolean (get (starting_hooks s) event) = false -> fs1 = fs).
Proof.
  intros event fs s Hev Hr Hm.
  assert (Hnot : to_boolean (get (starting_hooks s) event) = false ->
                 ~ In (StatusEvent event) (log_of (getStatus fs))).
  { intros Hf Hin. apply status_event_is_configured in Hin.
    destruct Hin as [s' [Hr' Hin]]. rewrite Hr in Hr'. inversion Hr'; subst s'.
    unfold configured in Hin. apply filter_In in Hin. destruct Hin as [_ Ht].
    congruence. }
  rewrite removeNotification_eq, Hr. unfold in_model in Hm. rewrite Hr in Hm.
  unfold starting_hooks in *.
  destruct (settings_hooks s) as [|h|v] eqn:Eh; [| |contradiction].
  - assert (Hf : to_boolean (get [] event) = false)
      by (rewrite (get_managed [] event Hev); reflexivity).
    exists fs. eexists. split; [reflexivity|].
    split; [apply Hnot, Hf|]. rewrite Hf. split; [discriminate | reflexivity].
  - destruct (to_boolean (get h event)) eqn:Et.
    + eexists. eexists. split; [reflexivity|]. simpl backup_file.
      split; [|split; [|discriminate]].
      * intros Hin. apply status_event_is_configured in Hin.
        destruct Hin as [s' [Hr' Hin]]. simpl in Hr'. inversion Hr'; subst s'.
        rewrite starting_hooks_cleanup in Hin.
        apply In_configured in Hin. destruct Hin as [_ [v [Hv _]]].
        rewrite lookup_remove_eq in Hv. discriminate.
      * intros _. split; [reflexivity|]. intros evs Hin.
        apply status_disabled_has_backup in Hin. destruct Hin as [b Hb].
        discriminate.
    + exists fs. eexists. split; [reflexivity|].
      split; [auto|]. split; [discriminate | reflexivity].
Qed.

Lemma remove_then_status_witness :
  exists fs1 l1,
    removeNotification "Stop" stop_and_custom = Returned tt fs1 l1 /\
    ~ In (StatusEvent "Stop") (log_of (getStatus fs1)) /\
    backup_file fs1 = Missing.
Proof.
  destruct (remove_then_status "Stop" stop_and_custom
              [("model", JStr "opus");
               ("hooks", JObj [("Stop", glass_group); ("Custom", tink_group)])]
              eq_refl eq_refl I)
    as [fs1 [l1 [Hrun [Hnot [Hyes _]]]]].
  exists fs1, l1. split; [exact Hrun|]. split; [exact Hnot|].
  apply Hyes. reflexivity.
Defined.

(** C4 (as stated) fails: once the hooks are disabled, [removeNotification]
    finds no entry, returns early, and the backup stays; [getStatus] goes on
    listing the event as recoverable. *)
Lemma remove_after_disable_keeps_backup :
  managed "Stop" = true
  /\ run mac (Remove "Stop") disabled_stop
     = Returned tt disabled_stop [NotConfiguredFor "Stop"]
  /\ backup_file disabled_stop = Parsed [("Stop", glass_group)]
  /\ run mac Status disabled_stop
     = Returned tt disabled_stop [StatusTitle; StatusDisabled ["Stop"]].
Proof. repeat split. Qed.

(** ** C5: when the hooks key is written *)

(** C5 (as amended).  An operation either leaves the settings file as it
    was or writes a document for which: after [disableNotifications] and
    [removeNotification] the [hooks] key is present if and only if an entry
    of some name, whatever its value, remains in it (so these never write
    an empty [hooks]); after [setupNotification] the key is present and,
    for every event other than [__proto__], holds a one-group sequence for
    the event; after [enableNotifications] the key is present. *)
Theorem hooks_key_after_write :
  forall (H : host) (op : operation) (fs fs1 : files),
    files_after (run H op fs) = Some fs1 ->
    settings_file fs1 = settings_file fs \/
    exists d, settings_file fs1 = Parsed d /\ hooks_key_rule op d.
Proof.
  intros H op fs fs1 Hrun.
  destruct op as [event sp notify | event | event | event |]; simpl in Hrun.
  - destruct (setupNotification H event sp notify fs)
      as [[] f l|e f l|] eqn:E; simpl in Hrun; inversion Hrun; subst.
    + apply setup_returned in E.
      destruct E as [c [p [s [fs0 [_ [_ [_ [_ [_ ->]]]]]]]]].
      right. eexists. split; [reflexivity|]. unfold hooks_key_rule.
      unfold configured_document. split; [apply has_own_define|].
      intros Hp. eexists. rewrite hooks_entry_define.
      apply lookup_put_own, Hp.
    + apply setup_threw in E. destruct E as [-> | [_ Hb]]; auto.
      apply backupCurrentConfig_files in Hb. left. apply Hb.
  - rewrite enableNotifications_eq in Hrun.
    destruct (backup_file fs) as [|t|b]; simpl in Hrun;
      try (inversion Hrun; subst; auto; fail).
    destruct (read (settings_file fs)) as [s|]; simpl in Hrun;
      [|inversion Hrun; subst; auto].
    destruct (settings_hooks s); try discriminate;
      destruct (given event) as [e|];
      try destruct (to_boolean (get b e));
      inversion Hrun; subst; auto;
      right; eexists; (split; [reflexivity|]); apply has_own_define.
  - rewrite disableNotifications_eq in Hrun.
    destruct (read (settings_file fs)) as [s|]; simpl in Hrun;
      [|inversion Hrun; subst; auto].
    destruct (settings_hooks s) as [|h|v]; simpl in Hrun;
      try (inversion Hrun; subst; auto; fail).
    destruct (configured h); [inversion Hrun; subst; auto|].
    destruct (given event) as [e|]; [destruct (to_boolean (get h e))|];
      inversion Hrun; subst; auto;
      right; eexists; (split; [reflexivity|]); apply cleanup_rule.
  - rewrite removeNotification_eq in Hrun.
    destruct (read (settings_file fs)) as [s|]; simpl in Hrun;
      [|inversion Hrun; subst; auto].
    destruct (settings_hooks s) as [|h|v]; simpl in Hrun;
      try (inversion Hrun; subst; auto; fail).
    destruct (to_boolean (get h event));
      inversion Hrun; subst; auto.
    right. eexists. split; [reflexivity|]. apply cleanup_rule.
  - apply getStatus_files in Hrun. subst. auto.
Qed.

Lemma hooks_key_after_write_witness :
  files_after (run mac (Remove "Stop") enabled_stop) = Some removed_stop
  /\ (settings_file removed_stop = settings_file enabled_stop \/
      exists d,
        settings_file removed_stop = Parsed d /\
        hooks_key_rule (Remove "Stop") d).
Proof.
  split; [reflexivity|].
  apply (hooks_key_after_write mac (Remove "Stop") enabled_stop).
  reflexivity.
Defined.

(** C5 (as stated) fails: the clean-up counts keys, so after
    [disableNotifications] the document keeps a [hooks] key whose only
    entry is an unmanaged event with an empty sequence. *)
Lemma disable_keeps_hooks_without_groups :
  run mac (Disable None) stop_and_idle
  = Returned tt
      (mkFiles (Parsed [("hooks", JObj [("Custom", JArr [])])])
               (Parsed [("Stop", glass_group)]))
      [DisabledAll 1]
  /\ has_own "hooks" [("hooks", JObj [("Custom", JArr [])])] = true
  /\ hooks_entry (Parsed [("hooks", JObj [("Custom", JArr [])])]) "Custom"
     = Some (JArr []).
Proof. repeat split. Qed.

(** ** C6: reading back what was set up *)

(** C6 (as amended).  For a managed event, a sound argument that resolves
    to [p] (the platform default when the argument is null) and a flag
    [notify], [setupNotification] returns and a following [getStatus]
    answers ENABLED; the lines it prints for the event are the sound
    reference it matches in the sound command and a desktop flag that is
    [notify] or-ed with whether the sound command itself mentions a
    desktop marker.  On macOS and Linux the sound reference is [p] itself
    whenever [p] is a slash, a run without white space and one of the
    extensions aiff, wav, mp3, oga. *)
Theorem setup_then_status :
  forall (H : host) (event : string) (sp : option string) (notify : bool)
         (fs : files) (c : platform_config) (p : string) (s : obj),
    managed event = true ->
    PLATFORM_CONFIGS (os_platform H) = Some c ->
    resolved H c sp = Some p ->
    read (settings_file fs) = Some s ->
    in_model (settings_file fs) ->
    (sp = None -> p = defaultSound c) /\
    exists fs1 l1 d1,
      setupNotification H event sp notify fs = Returned tt fs1 l1 /\
      settings_file fs1 = Parsed d1 /\
      In event (configured (starting_hooks d1)) /\
      (exists n,
         status_line (log_of (getStatus fs1)) = Some (StatusEnabled (S n))) /\
      describe event (get (starting_hooks d1) event) fs1
      = Returned tt fs1 (status_lines event (sound_command H c p) notify) /\
      (forall fs2 l2,
         getStatus fs1 = Returned tt fs2 l2 ->
         exists pre post,
           l2 = (pre ++ status_lines event (sound_command H c p) notify
                     ++ post)%list) /\
      (forall body ext,
         os_platform H = Darwin \/ os_platform H = Linux ->
         p = "/" ++ body ++ ext ->
         In ext audio_extensions ->
         body <> "" ->
         no_space body = true ->
         recovered_sound (sound_command H c p) = p).
Proof.
  intros H event sp notify fs c p s Hev Hc Hp Hr Hm.
  split; [intros ->; apply (resolved_default H c p Hp)|].
  destruct (setup_returns H event sp notify fs c p s Hc Hp Hr Hm)
    as [fs0 [l1 [_ Hset]]].
  eexists. exists l1. eexists. split; [exact Hset|].
  cbn [settings_file]. split; [reflexivity|].
  set (g := hook_group (built_hooks H (sound_command H c p) notify)).
  set (h1 := put (starting_hooks s) event (Own g)).
  assert (Ed : starting_hooks (configured_document H c event p notify s) = h1).
  { apply starting_hooks_map. unfold configured_document.
    apply settings_hooks_define. }
  assert (Hproto : event <> "__proto__").
  { apply String.eqb_neq, managed_not_proto, Hev. }
  assert (Hl : lookup event h1 = Some g).
  { apply lookup_put_own, Hproto. }
  assert (Hin : In event (configured h1)).
  { apply In_configured. split; [exact Hev|]. exists g. split; [exact Hl|].
    reflexivity. }
  assert (Hget : get h1 event = Own g).
  { rewrite (get_managed h1 event Hev), Hl. reflexivity. }
  rewrite Ed, Hget.
  split; [exact Hin|].
  assert (Hstat : forall f,
    getStatus
      (mkFiles (Parsed (configured_document H c event p notify s)) f)
    = with_log [StatusTitle; StatusEnabled (List.length (configured h1))]
        (for_each (configured h1)
           (fun ev => describe ev (get h1 ev))
           (mkFiles (Parsed (configured_document H c event p notify s)) f))).
  { intros f. rewrite getStatus_eq. cbn [settings_file read].
    unfold configured_document at 1. rewrite settings_hooks_define.
    cbv zeta. rewrite Ed.
    destruct (configured h1) as [|e0 l0]; [contradiction | reflexivity]. }
  split; [|split; [|split]].
  - rewrite Hstat.
    pose proof (for_each_describe_inside h1 (configured h1)
                  (mkFiles (Parsed (configured_document H c event p notify s))
                     (backup_file fs0))) as Hinside.
    destruct (configured h1) as [|e0 l0]; [contradiction|].
    exists (List.length l0).
    destruct (for_each (e0 :: l0) _ _); [reflexivity|reflexivity|congruence].
  - apply (describe_configured H c event p notify _ Hc).
  - intros fs2 l2. rewrite Hstat.
    destruct (for_each (configured h1) _ _) as [[] f2 lg|x f2 lg|] eqn:El;
      simpl; try discriminate.
    intros E. inversion E; subst.
    destruct (for_each_returned_lines h1 (configured h1) event
                (status_lines event (sound_command H c p) notify) Hin)
      with (fs := mkFiles (Parsed (configured_document H c event p notify s))
                    (backup_file fs0)) (fs' := fs2) (log := lg)
      as [pre [post ->]].
    + intros f. rewrite Hget.
      apply (describe_configured H c event p notify f Hc).
    + exact El.
    + exists (StatusTitle :: StatusEnabled (List.length (configured h1)) :: pre),
        post. reflexivity.
  - intros body ext Hos -> Hext Hne Hsp.
    apply recovered_sound_posix; assumption.
Qed.

Lemma setup_then_status_witness :
  exists fs1 l1,
    setupNotification mac "Stop" None true nothing
    = Returned tt fs1 l1 /\
    getStatus fs1
    = Returned tt fs1
        [StatusTitle; StatusEnabled 1; StatusEvent "Stop";
         StatusSound "/System/Library/Sounds/Glass.aiff"; StatusDesktop true] /\
    recovered_sound
      (sound_command mac
         darwin_config "/System/Library/Sounds/Glass.aiff")
    = "/System/Library/Sounds/Glass.aiff".
Proof.
  destruct (setup_then_status mac "Stop" None true nothing darwin_config
              "/System/Library/Sounds/Glass.aiff" []
              eq_refl eq_refl eq_refl eq_refl I)
    as [_ [fs1 [l1 [d1 [Hset [_ [_ [_ [_ [_ Hrec]]]]]]]]]].
  exists fs1, l1. split; [exact Hset|]. split.
  - vm_compute in Hset. inversion Hset; subst. reflexivity.
  - apply (Hrec "System/Library/Sounds/Glass" ".aiff").
    + left. reflexivity.
    + reflexivity.
    + simpl. auto.
    + discriminate.
    + reflexivity.
Defined.

(** C6 (as stated) fails.  On Windows the default sound has no slash, so
    [getStatus] prints the whole command as the sound; and a sound file
    whose name holds a desktop marker makes [getStatus] report desktop
    notifications although none were asked for. *)
Lemma status_does_not_recover_setup :
  (exists st l,
     run pc (Setup "Stop" None false) nothing = Returned tt st l /\
     run pc Status st
     = Returned tt st
         [StatusTitle; StatusEnabled 1; StatusEvent "Stop";
          StatusSound
            "powershell -c (New-Object Media.SoundPlayer 'C:\Windows\Media\Windows Notify System Generic.wav').PlaySync()";
          StatusDesktop false]) /\
  (exists st l,
     run (posix Linux ["/tmp/notify-send.wav"])
       (Setup "Stop" (Some "/tmp/notify-send.wav") false) nothing
     = Returned tt st l /\
     run (posix Linux ["/tmp/notify-send.wav"]) Status st
     = Returned tt st
         [StatusTitle; StatusEnabled 1; StatusEvent "Stop";
          StatusSound "/tmp/notify-send.wav"; StatusDesktop true]).
Proof.
  split; eexists; eexists; split; reflexivity.
Qed.

(** ** C7: doing it twice *)

(** C7.  A second [enableNotifications] with the same argument against the
    same backup leaves the settings and the backup exactly as the first
    call left them (so the entries it restores are those of a single call),
    and so does a second [disableNotifications] without event. *)
Theorem second_call_changes_nothing :
  (forall (event : option string) (fs fs1 : files),
      files_after (enableNotifications event fs) = Some fs1 ->
      files_after (enableNotifications event fs1) = Some fs1) /\
  (forall (fs fs1 : files),
      files_after (disableNotifications None fs) = Some fs1 ->
      files_after (disableNotifications None fs1) = Some fs1).
Proof.
  split.
  - intros event fs fs1 Hrun.
    assert (Hsame : fs1 = fs ->
                    files_after (enableNotifications event fs1) = Some fs1).
    { intros ->. rewrite Hrun. reflexivity. }
    rewrite enableNotifications_eq in Hrun.
    destruct (backup_file fs) as [|t|b] eqn:Eb; simpl in Hrun;
      try (inversion Hrun; subst; auto; fail).
    destruct (read (settings_file fs)) as [s|] eqn:Hr; simpl in Hrun;
      [|inversion Hrun; subst; auto].
    assert (Hagain : forall h',
      (match given event with
       | Some e => put h' e (get b e)
       | None => assign h' b
       end) = h' ->
      (match given event with
       | Some e => to_boolean (get b e)
       | None => true
       end) = true ->
      fs1 = mkFiles (Parsed (define "hooks" (JObj h') s)) (Parsed b) ->
      files_after (enableNotifications event fs1) = Some fs1).
    { intros h' Hfix Hyes ->. rewrite enableNotifications_eq.
      cbn [settings_file backup_file read].
      rewrite settings_hooks_define.
      rewrite (starting_hooks_map _ h' (settings_hooks_define s h')).
      destruct (given event) as [e|]; [rewrite Hyes|];
        rewrite Hfix, define_define; reflexivity. }
    destruct (settings_hooks s) eqn:Eh; try discriminate;
      destruct (given event) as [e|] eqn:Eg;
      try destruct (to_boolean (get b e)) eqn:Et;
      inversion Hrun; subst; auto;
      eapply Hagain; try reflexivity;
      first [ apply put_put | apply assign_assign ].
  - intros fs fs1 Hrun.
    assert (Hsame : fs1 = fs ->
                    files_after (disableNotifications None fs1) = Some fs1).
    { intros ->. rewrite Hrun. reflexivity. }
    rewrite disableNotifications_eq in Hrun.
    destruct (read (settings_file fs)) as [s|] eqn:Hr; simpl in Hrun;
      [|inversion Hrun; subst; auto].
    destruct (settings_hooks s) as [|h|v] eqn:Eh; simpl in Hrun;
      try (inversion Hrun; subst; auto; fail).
    destruct (configured h) as [|e0 l0] eqn:Ec;
      [inversion Hrun; subst; auto|].
    inversion Hrun; subst. rewrite disableNotifications_eq.
    cbn [settings_file backup_file read].
    destruct (settings_hooks (cleanup (without_configured h) s)) as [|h'|v]
      eqn:Es; auto.
    + assert (Eh' : starting_hooks (cleanup (without_configured h) s) = h')
        by (apply starting_hooks_map, Es).
      rewrite starting_hooks_cleanup in Eh'. subst h'.
      rewrite configured_without_configured. reflexivity.
    + exfalso. pose proof (cleanup_in_model (without_configured h) s) as Hi.
      unfold in_model in Hi. simpl in Hi. rewrite Es in Hi. exact Hi.
Qed.

Lemma second_call_changes_nothing_witness :
  (files_after (enableNotifications None disabled_stop) = Some enabled_stop
   /\ files_after (enableNotifications None enabled_stop) = Some enabled_stop)
  /\ (files_after (disableNotifications None stop_and_custom) = Some custom_only
      /\ files_after (disableNotifications None custom_only) = Some custom_only).
Proof.
  split; (split; [reflexivity|]).
  - apply (proj1 second_call_changes_nothing None disabled_stop). reflexivity.
  - apply (proj2 second_call_changes_nothing stop_and_custom). reflexivity.
Defined.

(** ** C8: the three answers of getStatus *)

(** C8 (as amended).  On a settings file that parses, the status line of
    [getStatus] is ENABLED exactly when some managed event has a truthy
    entry in [hooks]; otherwise it is DISABLED, with the keys of the backup,
    exactly when the backup file parses (to an empty object as well);
    otherwise it is NOT CONFIGURED. *)
Theorem status_line_printed :
  forall (fs : files) (s : obj),
    read (settings_file fs) = Some s ->
    in_model (settings_file fs) ->
    status_line (log_of (getStatus fs)) =
    Some match configured (starting_hooks s) with
         | [] =>
             match backup_file fs with
             | Parsed b => StatusDisabled (keys b)
             | _ => StatusNotConfigured
             end
         | evs => StatusEnabled (List.length evs)
         end
    /\ (configured (starting_hooks s) <> [] <->
        exists e v, managed e = true /\
                    lookup e (starting_hooks s) = Some v /\ truthy v = true).
Proof.
  intros fs s Hr Hm. split; [|apply configured_nonempty].
  rewrite getStatus_eq, Hr. unfold in_model in Hm. rewrite Hr in Hm.
  assert (Hgo :
    status_line
      (log_of
         (let h := starting_hooks s in
          match configured h with
          | [] =>
              match backup_file fs with
              | Parsed b =>
                  Returned tt fs [StatusTitle; StatusDisabled (keys b)]
              | _ => Returned tt fs [StatusTitle; StatusNotConfigured]
              end
          | _ =>
              with_log
                [StatusTitle; StatusEnabled (List.length (configured h))]
                (for_each (configured h)
                   (fun event => describe event (get h event)) fs)
          end)) =
    Some match configured (starting_hooks s) with
         | [] =>
             match backup_file fs with
             | Parsed b => StatusDisabled (keys b)
             | _ => StatusNotConfigured
             end
         | evs => StatusEnabled (List.length evs)
         end).
  { cbv zeta.
    pose proof (for_each_describe_inside (starting_hooks s)
                  (configured (starting_hooks s)) fs) as Hin.
    destruct (configured (starting_hooks s)) as [|e0 l0].
    - destruct (backup_file fs); reflexivity.
    - destruct (for_each (e0 :: l0) _ fs); [reflexivity|reflexivity|congruence]. }
  destruct (settings_hooks s); [exact Hgo | exact Hgo | contradiction].
Qed.

Lemma status_line_printed_witness :
  status_line (log_of (getStatus disabled_stop))
  = Some (StatusDisabled ["Stop"]).
Proof.
  apply (proj1 (status_line_printed disabled_stop [("model", JStr "opus")]
                  eq_refl I)).
Defined.

(** C8 (as stated) fails: with no hook configured and a backup file that
    holds the empty object, [getStatus] answers DISABLED, for no event. *)
Lemma empty_backup_reports_disabled :
  run mac Status (mkFiles Missing (Parsed []))
  = Returned tt (mkFiles Missing (Parsed []))
      [StatusTitle; StatusDisabled []].
Proof. reflexivity. Qed.

(** ** C9: enabling only reads the backup *)

(** C9.  [enableNotifications], with or without an event, leaves the backup
    file exactly as it found it, whether it restores something, has nothing
    to restore, or fails on an unreadable settings file. *)
Theorem enable_leaves_backup :
  forall (event : option string) (fs fs' : files),
    files_after (enableNotifications event fs) = Some fs' ->
    backup_file fs' = backup_file fs.
Proof.
  intros event [sf bf] fs'. unfold enableNotifications. unfold_monad. simpl.
  intros Hrun. split_all; inversion Hrun; subst; reflexivity.
Qed.

Lemma enable_leaves_backup_witness :
  files_after (enableNotifications None disabled_stop) = Some enabled_stop
  /\ backup_file enabled_stop = backup_file disabled_stop.
Proof.
  split; [reflexivity|].
  apply (enable_leaves_backup None disabled_stop). reflexivity.
Defined.

(** ** C10: an event name outside the enumerated set *)

(** C10 (as amended).  [setupNotification] checks its event against no
    list: for every event name other than [__proto__], once the sound is
    resolved it writes [hooks[event] = [{hooks: entries}]].  When the name
    is outside the enumerated set, a following [backupCurrentConfig] and a
    following [disableNotifications] without event both return, leave that
    entry in the settings, and leave a backup file that is either the one
    they found or a snapshot without that name. *)
Theorem setup_accepts_any_event :
  forall (H : host) (event : string) (sp : option string) (notify : bool)
         (fs : files) (c : platform_config) (p : string) (s : obj),
    event <> "__proto__" ->
    PLATFORM_CONFIGS (os_platform H) = Some c ->
    resolved H c sp = Some p ->
    read (settings_file fs) = Some s ->
    in_model (settings_file fs) ->
    exists fs1 l1,
      setupNotification H event sp notify fs = Returned tt fs1 l1 /\
      hooks_entry (settings_file fs1) event
      = Some (hook_group (built_hooks H (sound_command H c p) notify)) /\
      (managed event = false ->
       (exists b fs2 l2,
          backupCurrentConfig fs1 = Returned b fs2 l2 /\
          settings_file fs2 = settings_file fs1 /\
          (backup_file fs2 = backup_file fs1 \/
           exists doc, backup_file fs2 = Parsed doc /\ lookup event doc = None))
       /\
       (exists fs3 l3,
          disableNotifications None fs1 = Returned tt fs3 l3 /\
          hooks_entry (settings_file fs3) event
          = hooks_entry (settings_file fs1) event /\
          (backup_file fs3 = backup_file fs1 \/
           exists doc, backup_file fs3 = Parsed doc /\ lookup event doc = None))).
Proof.
  intros H event sp notify fs c p s Hproto Hc Hp Hr Hm.
  destruct (setup_returns H event sp notify fs c p s Hc Hp Hr Hm)
    as [fs0 [l1 [_ Hset]]].
  eexists. exists l1. split; [exact Hset|].
  unfold configured_document. simpl settings_file. split.
  - rewrite hooks_entry_define. apply lookup_put_own, Hproto.
  - intros Hu. split.
    + match goal with
      | |- context [backupCurrentConfig ?f] =>
          destruct (backupCurrentConfig_total f _ eq_refl) as [b [fs2 [l2 Eb]]]
      end.
      { unfold in_model. simpl. rewrite settings_hooks_define. exact I. }
      exists b, fs2, l2. split; [exact Eb|].
      assert (Hf : files_after (backupCurrentConfig
                      (mkFiles
                         (Parsed (define "hooks"
                            (JObj (put (starting_hooks s) event
                               (Own (hook_group
                                  (built_hooks H (sound_command H c p) notify)))))
                            s))
                         (backup_file fs0))) = Some fs2)
        by (rewrite Eb; reflexivity).
      apply backupCurrentConfig_files in Hf.
      destruct Hf as [Hs [Hb | [s1 [_ [_ Hb]]]]]; split; auto.
      right. eexists. split; [exact Hb|].
      apply lookup_snapshot_unmanaged, Hu.
    + rewrite disableNotifications_eq. cbn [settings_file backup_file read].
      rewrite settings_hooks_define.
      match goal with
      | |- context [configured ?h] =>
          destruct (configured h) as [|e0 l0] eqn:Ec
      end.
      * eexists. eexists. split; [reflexivity|]. auto.
      * rewrite <- Ec. eexists. eexists. split; [reflexivity|].
        cbn [settings_file backup_file]. split.
        -- rewrite hooks_entry_cleanup, hooks_entry_define.
           rewrite lookup_without_configured, unmanaged_not_configured; auto.
        -- right. eexists. split; [reflexivity|].
           apply lookup_snapshot_unmanaged, Hu.
Qed.

Lemma setup_accepts_any_event_witness :
  exists fs1 l1,
    setupNotification mac "Custom" None true nothing
    = Returned tt fs1 l1 /\
    hooks_entry (settings_file fs1) "Custom"
    = Some (hook_group
              (built_hooks mac
                 (sound_command mac
                    (mkConfig "afplay" "/System/Library/Sounds/Glass.aiff"
                       "/System/Library/Sounds" ".aiff" None)
                    "/System/Library/Sounds/Glass.aiff")
                 true)).
Proof.
  destruct (setup_accepts_any_event mac "Custom" None true nothing
              darwin_config "/System/Library/Sounds/Glass.aiff" [])
    as [fs1 [l1 [Hset [Hentry _]]]];
    try reflexivity; try discriminate; try exact I.
  exists fs1, l1. split; assumption.
Defined.

(** C10 (as stated) fails for the name [__proto__]: the assignment reaches
    the inherited setter, no entry is created, and the written [hooks] is
    empty. *)
Lemma setup_proto_writes_no_entry :
  run mac (Setup "__proto__" None false) nothing
  = Returned tt (mkFiles (Parsed [("hooks", JObj [])]) Missing)
      [UsingDefaultSound "/System/Library/Sounds/Glass.aiff";
       Configured "__proto__" "/System/Library/Sounds/Glass.aiff"; SavedTo]
  /\ hooks_entry (Parsed [("hooks", JObj [])]) "__proto__" = None.
Proof. split; reflexivity. Qed.

(** * Further properties *)

(** ** The backup step *)

Lemma backupCurrentConfig_eq (fs : files) :
  backupCurrentConfig fs =
  match read (settings_file fs) with
  | None => Threw ParseError fs []
  | Some s =>
      match settings_hooks s with
      | HooksOther _ => OutsideModel
      | NoHooks => Returned false fs []
      | HooksMap h =>
          match configured h with
          | [] => Returned false fs []
          | _ =>
              Returned true
                (mkFiles (settings_file fs) (Parsed (snapshot h))) []
          end
      end
  end.
Proof.
  unfold backupCurrentConfig. unfold bind at 1. rewrite readSettings_read.
  destruct (read (settings_file fs)) as [s|]; [|reflexivity].
  destruct (settings_hooks s) as [|h|v]; try reflexivity.
  rewrite keys_snapshot.
  destruct (configured h); reflexivity.
Qed.

Lemma In_existsb_eqb (k : string) (l : list string) :
  existsb (String.eqb k) l = true <-> In k l.
Proof.
  rewrite existsb_exists. split.
  - intros [x [Hin E]]. apply String.eqb_eq in E. subst. exact Hin.
  - intros Hin. exists k. split; [exact Hin | apply String.eqb_refl].
Qed.

Lemma lookup_snapshot_configured (h : obj) (k : string) :
  lookup k (snapshot h) =
  if existsb (String.eqb k) (configured h) then lookup k h else None.
Proof.
  rewrite lookup_snapshot.
  destruct (existsb (String.eqb k) (configured h)) eqn:E.
  - apply In_existsb_eqb in E. apply In_configured in E.
    destruct E as [Hm [v [Hv Ht]]]. rewrite Hm, Hv, Ht. reflexivity.
  - destruct (managed k) eqn:Hm; [|reflexivity].
    destruct (lookup k h) as [v|] eqn:Hv; [|reflexivity].
    destruct (truthy v) eqn:Ht; [|reflexivity].
    assert (Hin : In k (configured h)) by (apply In_configured; eauto).
    apply In_existsb_eqb in Hin. congruence.
Qed.

(** X1.  [backupCurrentConfig] on a readable settings file returns without
    printing and never changes the settings file.  It returns [true] exactly
    when some managed event has a truthy entry; the backup file then holds
    exactly those events, in the order of [AVAILABLE_EVENTS], each with the
    value the settings give it.  When it returns [false] the backup file is
    left as it was. *)
Theorem backup_holds_configured_events (fs : files) (s : obj) :
  read (settings_file fs) = Some s ->
  in_model (settings_file fs) ->
  exists written fs1,
    backupCurrentConfig fs = Returned written fs1 [] /\
    settings_file fs1 = settings_file fs /\
    (written = false ->
     configured (starting_hooks s) = [] /\ backup_file fs1 = backup_file fs) /\
    (written = true ->
     configured (starting_hooks s) <> [] /\
     exists b, backup_file fs1 = Parsed b /\
               keys b = configured (starting_hooks s) /\
               forall k, lookup k b =
                         if existsb (String.eqb k) (configured (starting_hooks s))
                         then lookup k (starting_hooks s) else None).
Proof.
  intros Hr Hin. rewrite backupCurrentConfig_eq, Hr.
  unfold in_model in Hin. rewrite Hr in Hin. unfold starting_hooks.
  destruct (settings_hooks s) as [|h|v]; [| |contradiction].
  - exists false, fs. repeat split; try discriminate.
  - destruct (configured h) as [|e l] eqn:Ec.
    + exists false, fs. repeat split; try discriminate.
    + rewrite <- Ec. eexists true, _. split; [reflexivity|].
      split; [reflexivity|]. split; [discriminate|]. intros _.
      split; [congruence|]. exists (snapshot h).
      split; [reflexivity|]. split; [apply keys_snapshot|].
      apply lookup_snapshot_configured.
Qed.

Lemma backup_holds_configured_events_witness :
  exists written fs1,
    backupCurrentConfig stop_and_custom = Returned written fs1 [] /\
    settings_file fs1 = settings_file stop_and_custom.
Proof.
  destruct (backup_holds_configured_events stop_and_custom _ eq_refl I)
    as [written [fs1 [Hb [Hs _]]]].
  exists written, fs1. split; assumption.
Defined.

(** ** One event at a time *)

Lemma managed_nonempty (e : string) : managed e = true -> (e =? "") = false.
Proof.
  intros Hm. apply managed_In in Hm.
  repeat (destruct Hm as [Hm | Hm]; [subst; reflexivity|]). contradiction.
Qed.

Lemma given_managed (e : string) : managed e = true -> given (Some e) = Some e.
Proof. intros Hm. unfold given. rewrite managed_nonempty; auto. Qed.

Lemma settings_hooks_cleanup_cases (h s : obj) :
  settings_hooks (cleanup h s) = NoHooks \/
  settings_hooks (cleanup h s) = HooksMap h.
Proof.
  destruct (settings_hooks (cleanup h s)) as [|h'|v] eqn:E.
  - left. reflexivity.
  - right. pose proof (starting_hooks_cleanup h s) as Hs.
    unfold starting_hooks in Hs. rewrite E in Hs. congruence.
  - pose proof (cleanup_in_model h s) as Hi. unfold in_model in Hi.
    simpl in Hi. rewrite E in Hi. contradiction.
Qed.

(** X2.  Disabling one configured managed event and enabling it again
    restores it: after [disableNotifications(e)] the entry of [e] is gone and
    every other [hooks] entry is as before; after [enableNotifications(e)]
    every [hooks] entry and every other top-level key has the value it had
    before the disable. *)
Theorem disable_one_then_enable_one (fs : files) (s h : obj) (e : string)
  (v : json) :
  read (settings_file fs) = Some s ->
  settings_hooks s = HooksMap h ->
  managed e = true ->
  lookup e h = Some v ->
  truthy v = true ->
  exists fs1 l1 fs2 l2,
    disableNotifications (Some e) fs = Returned tt fs1 l1 /\
    hooks_entry (settings_file fs1) e = None /\
    (forall k, k <> e ->
       hooks_entry (settings_file fs1) k = hooks_entry (settings_file fs) k) /\
    enableNotifications (Some e) fs1 = Returned tt fs2 l2 /\
    (forall k,
       hooks_entry (settings_file fs2) k = hooks_entry (settings_file fs) k) /\
    (forall k, k <> "hooks" ->
       top_entry (settings_file fs2) k = top_entry (settings_file fs) k).
Proof.
  intros Hr Hh Hm Hv Ht.
  assert (Hin : In e (configured h)) by (apply In_configured; eauto).
  assert (Hget : get h e = Own v) by (rewrite get_managed, Hv; auto).
  assert (Hsnap : get (snapshot h) e = Own v).
  { rewrite get_managed by exact Hm. rewrite lookup_snapshot, Hm, Hv, Ht.
    reflexivity. }
  assert (Hproto : e <> "__proto__").
  { intros E. apply managed_not_proto in Hm. rewrite E in Hm. discriminate. }
  rewrite disableNotifications_eq, Hr, Hh, (given_managed e Hm), Hget.
  destruct (configured h) as [|e0 l0] eqn:Ec; [contradiction|].
  simpl to_boolean. rewrite Ht.
  do 4 eexists. split; [reflexivity|].
  cbn [settings_file backup_file].
  split; [rewrite hooks_entry_cleanup; apply lookup_remove_eq|].
  split.
  { intros k Hk. rewrite hooks_entry_cleanup,
      (hooks_entry_read (settings_file fs) s k Hr), (starting_hooks_map s h Hh).
    apply lookup_remove_neq, Hk. }
  rewrite enableNotifications_eq. cbn [settings_file backup_file read].
  rewrite (given_managed e Hm), Hsnap, starting_hooks_cleanup.
  simpl to_boolean. rewrite Ht.
  assert (Hres :
    match settings_hooks (cleanup (remove e h) s) with
    | HooksOther _ => @OutsideModel unit
    | _ =>
        Returned tt
          (mkFiles
             (Parsed (define "hooks" (JObj (put (remove e h) e (Own v)))
                        (cleanup (remove e h) s)))
             (Parsed (snapshot h)))
          [EventEnabled e]
    end
    = Returned tt
          (mkFiles
             (Parsed (define "hooks" (JObj (put (remove e h) e (Own v)))
                        (cleanup (remove e h) s)))
             (Parsed (snapshot h)))
          [EventEnabled e]).
  { destruct (settings_hooks_cleanup_cases (remove e h) s) as [E | E];
      rewrite E; reflexivity. }
  split; [exact Hres|].
  cbn [settings_file backup_file]. split.
  - intros k. rewrite hooks_entry_define,
      (hooks_entry_read (settings_file fs) s k Hr), (starting_hooks_map s h Hh).
    destruct (String.eqb_spec k e) as [-> | Hk].
    + rewrite lookup_put_own by exact Hproto. symmetry. exact Hv.
    + rewrite lookup_put_neq by exact Hk. apply lookup_remove_neq, Hk.
  - intros k Hk. rewrite top_entry_define by exact Hk.
    rewrite (top_entry_read (settings_file fs) s k Hr).
    unfold cleanup.
    destruct (List.length (keys (remove e h)) =? 0)%nat;
      [apply lookup_remove_neq | apply lookup_define_neq]; exact Hk.
Qed.

Lemma disable_one_then_enable_one_witness :
  exists fs1 l1 fs2 l2,
    disableNotifications (Some "Stop") stop_and_custom = Returned tt fs1 l1 /\
    enableNotifications (Some "Stop") fs1 = Returned tt fs2 l2 /\
    hooks_entry (settings_file fs2) "Stop" = Some glass_group.
Proof.
  destruct (disable_one_then_enable_one stop_and_custom _ _ "Stop" glass_group
              eq_refl eq_refl eq_refl eq_refl eq_refl)
    as [fs1 [l1 [fs2 [l2 [Hd [_ [_ [He [Hk _]]]]]]]]].
  exists fs1, l1, fs2, l2. split; [exact Hd|]. split; [exact He|].
  rewrite Hk. reflexivity.
Defined.

(** X3.  Whenever some managed event is configured, [disableNotifications]
    replaces the backup file by the snapshot of all managed events currently
    configured, whatever its event argument.  This holds even when the named
    event is not configured: the settings file is then left as it is, and
    only the backup is rewritten. *)
Theorem disable_replaces_backup (event : option string) (fs : files)
  (s h : obj) :
  read (settings_file fs) = Some s ->
  settings_hooks s = HooksMap h ->
  configured h <> [] ->
  exists fs1 l1,
    disableNotifications event fs = Returned tt fs1 l1 /\
    backup_file fs1 = Parsed (snapshot h) /\
    (forall e, given event = Some e -> to_boolean (get h e) = false ->
       settings_file fs1 = settings_file fs /\ l1 = [NotConfiguredFor e]).
Proof.
  intros Hr Hh Hc. rewrite disableNotifications_eq, Hr, Hh.
  destruct (configured h) as [|e0 l0] eqn:Ec; [congruence|].
  destruct (given event) as [e|].
  - destruct (to_boolean (get h e)) eqn:Eg.
    + do 2 eexists. split; [reflexivity|]. split; [reflexivity|].
      intros e' E. injection E as <-. congruence.
    + do 2 eexists. split; [reflexivity|]. split; [reflexivity|].
      intros e' E _. injection E as <-. split; reflexivity.
  - do 2 eexists. split; [reflexivity|]. split; [reflexivity|].
    discriminate.
Qed.

Lemma disable_replaces_backup_witness :
  exists fs1 l1,
    disableNotifications (Some "PreCompact") stop_and_custom
    = Returned tt fs1 l1 /\
    backup_file fs1 = Parsed [("Stop", glass_group)] /\
    settings_file fs1 = settings_file stop_and_custom.
Proof.
  destruct (disable_replaces_backup (Some "PreCompact") stop_and_custom _ _
              eq_refl eq_refl)
    as [fs1 [l1 [Hd [Hb Hs]]]]; [vm_compute; discriminate|].
  exists fs1, l1. split; [exact Hd|]. split; [exact Hb|].
  apply (Hs "PreCompact"); reflexivity.
Defined.

(** X4.  After everything was disabled, [enableNotifications(e)] for a
    formerly configured event brings back that entry only: every other
    formerly configured event stays absent from the settings and stays in
    the backup with its former value. *)
Theorem enable_one_after_disable_all (fs : files) (s h : obj) (e : string) :
  read (settings_file fs) = Some s ->
  settings_hooks s = HooksMap h ->
  In e (configured h) ->
  exists fs1 l1 fs2,
    disableNotifications None fs = Returned tt fs1 l1 /\
    enableNotifications (Some e) fs1 = Returned tt fs2 [EventEnabled e] /\
    hooks_entry (settings_file fs2) e = hooks_entry (settings_file fs) e /\
    (forall k, In k (configured h) -> k <> e ->
       hooks_entry (settings_file fs2) k = None /\
       top_entry (backup_file fs2) k = hooks_entry (settings_file fs) k).
Proof.
  intros Hr Hh Hin.
  pose proof Hin as Hin'. apply In_configured in Hin'.
  destruct Hin' as [Hm [v [Hv Ht]]].
  assert (Hsnap : get (snapshot h) e = Own v).
  { rewrite get_managed by exact Hm. rewrite lookup_snapshot, Hm, Hv, Ht.
    reflexivity. }
  assert (Hproto : e <> "__proto__").
  { intros E. apply managed_not_proto in Hm. rewrite E in Hm. discriminate. }
  rewrite disableNotifications_eq, Hr, Hh.
  destruct (configured h) as [|e0 l0] eqn:Ec; [contradiction|].
  rewrite <- Ec in *. cbn [given].
  do 3 eexists. split; [reflexivity|].
  rewrite enableNotifications_eq. cbn [settings_file backup_file read].
  rewrite (given_managed e Hm), Hsnap, starting_hooks_cleanup.
  simpl to_boolean. rewrite Ht.
  split.
  { destruct (settings_hooks_cleanup_cases (without_configured h) s) as [E | E];
      rewrite E; reflexivity. }
  cbn [settings_file backup_file top_entry]. split.
  - rewrite hooks_entry_define, (hooks_entry_read (settings_file fs) s e Hr),
      (starting_hooks_map s h Hh), lookup_put_own by exact Hproto.
    symmetry. exact Hv.
  - intros k Hk Hne. split.
    + rewrite hooks_entry_define, lookup_put_neq by exact Hne.
      rewrite lookup_without_configured.
      apply In_existsb_eqb in Hk. rewrite Hk. reflexivity.
    + rewrite lookup_snapshot_configured.
      apply In_existsb_eqb in Hk. rewrite Hk.
      rewrite (hooks_entry_read (settings_file fs) s k Hr),
        (starting_hooks_map s h Hh). reflexivity.
Qed.

Lemma enable_one_after_disable_all_witness :
  exists fs1 l1 fs2,
    disableNotifications None stop_and_custom = Returned tt fs1 l1 /\
    enableNotifications (Some "Stop") fs1
    = Returned tt fs2 [EventEnabled "Stop"] /\
    hooks_entry (settings_file fs2) "Stop" = Some glass_group.
Proof.
  destruct (enable_one_after_disable_all stop_and_custom _ _ "Stop"
              eq_refl eq_refl)
    as [fs1 [l1 [fs2 [Hd [He [Hk _]]]]]]; [vm_compute; auto|].
  exists fs1, l1, fs2. split; [exact Hd|]. split; [exact He|].
  rewrite Hk. reflexivity.
Defined.

(** X5.  [disableNotifications(e)] does not check that [e] is a managed
    event: while some managed event is configured, it deletes a truthy entry
    of any other name from [hooks].  The backup only ever holds managed
    events, so the deleted entry is in no file afterwards, and
    [enableNotifications(e)] does not bring it back. *)
Theorem disable_unmanaged_event_is_lost (fs : files) (s h : obj) (e : string)
  (v : json) :
  read (settings_file fs) = Some s ->
  settings_hooks s = HooksMap h ->
  configured h <> [] ->
  managed e = false ->
  e <> "" ->
  lookup e h = Some v ->
  truthy v = true ->
  exists fs1 fs2 l2,
    disableNotifications (Some e) fs = Returned tt fs1 [EventDisabled e] /\
    hooks_entry (settings_file fs1) e = None /\
    top_entry (backup_file fs1) e = None /\
    enableNotifications (Some e) fs1 = Returned tt fs2 l2 /\
    hooks_entry (settings_file fs2) e = None.
Proof.
  intros Hr Hh Hc Hm He Hv Ht.
  assert (Hg : get h e = Own v) by (unfold get; rewrite Hv; reflexivity).
  assert (Hgiven : given (Some e) = Some e).
  { unfold given. apply String.eqb_neq in He. rewrite He. reflexivity. }
  assert (Hb : lookup e (snapshot h) = None)
    by (apply lookup_snapshot_unmanaged, Hm).
  rewrite disableNotifications_eq, Hr, Hh, Hgiven, Hg.
  destruct (configured h) as [|e0 l0] eqn:Ec; [congruence|].
  simpl to_boolean. rewrite Ht.
  exists (mkFiles (Parsed (cleanup (remove e h) s)) (Parsed (snapshot h))).
  assert (Hgone : hooks_entry (Parsed (cleanup (remove e h) s)) e = None)
    by (rewrite hooks_entry_cleanup; apply lookup_remove_eq).
  rewrite enableNotifications_eq. cbn [settings_file backup_file read top_entry].
  rewrite Hgiven, starting_hooks_cleanup.
  assert (Hcases :
    exists fs2 l2,
      match settings_hooks (cleanup (remove e h) s) with
      | HooksOther _ => OutsideModel
      | _ =>
          if to_boolean (get (snapshot h) e)
          then
            Returned tt
              (mkFiles
                 (Parsed (define "hooks"
                            (JObj (put (remove e h) e (get (snapshot h) e)))
                            (cleanup (remove e h) s)))
                 (Parsed (snapshot h)))
              [EventEnabled e]
          else
            Returned tt
              (mkFiles (Parsed (cleanup (remove e h) s)) (Parsed (snapshot h)))
              [NoBackupFor e]
      end = Returned tt fs2 l2 /\
      hooks_entry (settings_file fs2) e = None).
  { assert (Hput : lookup e (put (remove e h) e (get (snapshot h) e)) = None).
    { unfold get. rewrite Hb. unfold put.
      destruct (e =? "__proto__") eqn:Ep.
      - rewrite has_own_remove. cbn [negb andb]. apply lookup_remove_eq.
      - cbn [andb].
        destruct (existsb (String.eqb e) object_prototype_methods);
          cbn [serialised]; rewrite remove_remove; apply lookup_remove_eq. }
    destruct (settings_hooks_cleanup_cases (remove e h) s) as [E | E];
      rewrite E;
      (destruct (to_boolean (get (snapshot h) e));
       do 2 eexists; (split; [reflexivity|]); cbn [settings_file];
       [rewrite hooks_entry_define; exact Hput | exact Hgone]). }
  destruct Hcases as [fs2 [l2 [Hen Hk]]].
  exists fs2, l2. split; [reflexivity|]. split; [exact Hgone|].
  split; [exact Hb|]. split; [exact Hen | exact Hk].
Qed.

Lemma disable_unmanaged_event_is_lost_witness :
  exists fs1 fs2 l2,
    disableNotifications (Some "Custom") stop_and_custom
    = Returned tt fs1 [EventDisabled "Custom"] /\
    enableNotifications (Some "Custom") fs1 = Returned tt fs2 l2 /\
    hooks_entry (settings_file fs2) "Custom" = None.
Proof.
  destruct (disable_unmanaged_event_is_lost stop_and_custom _ _ "Custom"
              tink_group eq_refl eq_refl)
    as [fs1 [fs2 [l2 [Hd [_ [_ [He Hk]]]]]]];
    try reflexivity; try (vm_compute; discriminate).
  exists fs1, fs2, l2. split; [exact Hd|]. split; [exact He | exact Hk].
Defined.

(** ** Setting up twice, and what is installed *)

Lemma configured_document_hooks (H : host) (c : platform_config)
  (event p : string) (notify : bool) (s : obj) :
  settings_hooks (configured_document H c event p notify s)
  = HooksMap (put (starting_hooks s) event
                (Own (hook_group
                        (built_hooks H (sound_command H c p) notify)))).
Proof. apply settings_hooks_define. Qed.

Lemma setup_returns_managed (H : host) (event : string) (sp : option string)
  (notify : bool) (fs : files) (c : platform_config) (p : string) (s : obj) :
  PLATFORM_CONFIGS (os_platform H) = Some c ->
  resolved H c sp = Some p ->
  read (settings_file fs) = Some s ->
  in_model (settings_file fs) ->
  exists l,
    setupNotification H event sp notify fs =
    Returned tt
      (mkFiles (Parsed (configured_document H c event p notify s))
         (match configured (starting_hooks s) with
          | [] => backup_file fs
          | _ => Parsed (snapshot (starting_hooks s))
          end)) l.
Proof.
  intros Hc Hp Hr Hin.
  destruct (setup_returns H event sp notify fs c p s Hc Hp Hr Hin)
    as [fs1 [l [Hb Hs]]].
  exists l. rewrite Hs. f_equal. f_equal.
  rewrite backupCurrentConfig_eq, Hr in Hb.
  unfold in_model in Hin. rewrite Hr in Hin. unfold starting_hooks.
  destruct (settings_hooks s) as [|h|v]; [| |contradiction].
  - simpl in Hb. injection Hb as <-. reflexivity.
  - destruct (configured h); simpl in Hb; injection Hb as <-; reflexivity.
Qed.

(** X6.  A second [setupNotification] for the same managed event
    overwrites the entry and moves the first configuration into the backup;
    a following [enableNotifications] without event puts the first
    configuration back over the second. *)
Theorem second_setup_keeps_first_in_backup (H : host) (event : string)
  (sp1 sp2 : option string) (n1 n2 : bool) (fs : files)
  (c : platform_config) (p1 p2 : string) (s : obj) :
  managed event = true ->
  PLATFORM_CONFIGS (os_platform H) = Some c ->
  resolved H c sp1 = Some p1 ->
  resolved H c sp2 = Some p2 ->
  read (settings_file fs) = Some s ->
  in_model (settings_file fs) ->
  exists fs1 l1 fs2 l2 fs3 l3,
    setupNotification H event sp1 n1 fs = Returned tt fs1 l1 /\
    setupNotification H event sp2 n2 fs1 = Returned tt fs2 l2 /\
    hooks_entry (settings_file fs2) event
    = Some (hook_group (built_hooks H (sound_command H c p2) n2)) /\
    top_entry (backup_file fs2) event
    = Some (hook_group (built_hooks H (sound_command H c p1) n1)) /\
    enableNotifications None fs2 = Returned tt fs3 l3 /\
    hooks_entry (settings_file fs3) event
    = Some (hook_group (built_hooks H (sound_command H c p1) n1)).
Proof.
  intros Hm Hc Hp1 Hp2 Hr Hin.
  assert (Hproto : event <> "__proto__").
  { intros E. apply managed_not_proto in Hm. rewrite E in Hm. discriminate. }
  destruct (setup_returns_managed H event sp1 n1 fs c p1 s Hc Hp1 Hr Hin)
    as [l1 Hs1].
  set (g1 := hook_group (built_hooks H (sound_command H c p1) n1)) in *.
  set (g2 := hook_group (built_hooks H (sound_command H c p2) n2)) in *.
  set (s1 := configured_document H c event p1 n1 s) in *.
  set (h1 := put (starting_hooks s) event (Own g1)).
  assert (Hh1 : settings_hooks s1 = HooksMap h1)
    by apply configured_document_hooks.
  assert (Hst1 : starting_hooks s1 = h1) by (apply starting_hooks_map, Hh1).
  assert (Hl1 : lookup event h1 = Some g1) by (apply lookup_put_own, Hproto).
  assert (Hin1 : In event (configured h1)).
  { apply In_configured. split; [exact Hm|]. exists g1. split; [exact Hl1|].
    reflexivity. }
  match type of Hs1 with
  | _ = Returned tt ?f _ => set (fs1 := f) in *
  end.
  assert (Hr1 : read (settings_file fs1) = Some s1) by reflexivity.
  assert (Hin1' : in_model (settings_file fs1)).
  { unfold in_model. rewrite Hr1, Hh1. exact I. }
  destruct (setup_returns_managed H event sp2 n2 fs1 c p2 s1 Hc Hp2 Hr1 Hin1')
    as [l2 Hs2].
  rewrite Hst1 in Hs2.
  destruct (configured h1) as [|e0 l0] eqn:Ec; [contradiction|].
  rewrite <- Ec in *.
  exists fs1, l1. do 4 eexists.
  split; [exact Hs1|]. split; [exact Hs2|].
  cbn [settings_file backup_file top_entry].
  split.
  { unfold configured_document. rewrite hooks_entry_define.
    apply lookup_put_own, Hproto. }
  split.
  { rewrite lookup_snapshot, Hm, Hl1. reflexivity. }
  rewrite enableNotifications_eq. cbn [settings_file backup_file read given].
  rewrite configured_document_hooks. split; [reflexivity|].
  cbn [settings_file]. rewrite hooks_entry_define, lookup_assign_snapshot.
  rewrite lookup_snapshot, Hm, Hl1. reflexivity.
Qed.

Lemma second_setup_keeps_first_in_backup_witness :
  exists fs1 l1 fs2 l2 fs3 l3,
    setupNotification mac "Stop" None true nothing = Returned tt fs1 l1 /\
    setupNotification mac "Stop" None false fs1 = Returned tt fs2 l2 /\
    enableNotifications None fs2 = Returned tt fs3 l3 /\
    hooks_entry (settings_file fs3) "Stop" = Some stop_with_banner.
Proof.
  destruct (second_setup_keeps_first_in_backup mac "Stop" None None true false
              nothing darwin_config "/System/Library/Sounds/Glass.aiff"
              "/System/Library/Sounds/Glass.aiff" []
              eq_refl eq_refl eq_refl eq_refl eq_refl I)
    as [fs1 [l1 [fs2 [l2 [fs3 [l3 [H1 [H2 [_ [_ [H3 H4]]]]]]]]]]].
  exists fs1, l1, fs2, l2, fs3, l3. repeat (split; [assumption|]).
  exact H4.
Defined.

Lemma resolved_spec (H : host) (c : platform_config) (sp : option string)
  (p : string) :
  resolved H c sp = Some p ->
  fs_access H p = true /\
  p = match given sp with
      | None => defaultSound c
      | Some q =>
          if path_isAbsolute H q then q
          else if fs_access H (path_join H (soundsPath c) (q ++ extension c))
               then path_join H (soundsPath c) (q ++ extension c)
               else path_resolve H q
      end.
Proof.
  unfold resolved, resolveSound, given. intros Hres.
  destruct sp as [q|].
  - destruct (q =? ""); unfold_monad; simpl in Hres.
    + destruct (fs_access H (defaultSound c)) eqn:E; simpl in Hres;
        [injection Hres as <-; auto | discriminate].
    + destruct (path_isAbsolute H q); simpl in Hres.
      * destruct (fs_access H q) eqn:E; simpl in Hres;
          [injection Hres as <-; auto | discriminate].
      * destruct (fs_access H (path_join H (soundsPath c) (q ++ extension c)))
          eqn:E1; simpl in Hres.
        -- rewrite E1 in Hres. simpl in Hres. injection Hres as <-. auto.
        -- destruct (fs_access H (path_resolve H q)) eqn:E2; simpl in Hres.
           ++ rewrite E2 in Hres. simpl in Hres. injection Hres as <-. auto.
           ++ discriminate.
  - unfold_monad; simpl in Hres.
    destruct (fs_access H (defaultSound c)) eqn:E; simpl in Hres;
      [injection Hres as <-; auto | discriminate].
Qed.

(** X7.  Whenever [setupNotification] returns, the sound it installed
    exists on the host ([fs.access] succeeds), and it was chosen in this
    order: the platform default for a missing or empty argument, an absolute
    path as given, the system sound of that name when there is one, the path
    resolved against the working directory otherwise. *)
Theorem setup_installs_existing_sound (H : host) (event : string)
  (sp : option string) (notify : bool) (fs fs1 : files) (l : list message) :
  setupNotification H event sp notify fs = Returned tt fs1 l ->
  exists c p,
    PLATFORM_CONFIGS (os_platform H) = Some c /\
    fs_access H p = true /\
    p = match given sp with
        | None => defaultSound c
        | Some q =>
            if path_isAbsolute H q then q
            else if fs_access H (path_join H (soundsPath c) (q ++ extension c))
                 then path_join H (soundsPath c) (q ++ extension c)
                 else path_resolve H q
        end /\
    (event <> "__proto__" ->
     hooks_entry (settings_file fs1) event
     = Some (hook_group (built_hooks H (sound_command H c p) notify))).
Proof.
  intros Hs.
  destruct (setup_returned H event sp notify fs fs1 l Hs)
    as [c [p [s [fs0 [Hc [Hp [Hr [Hin [Hb ->]]]]]]]]].
  destruct (resolved_spec H c sp p Hp) as [Ha Hq].
  exists c, p. split; [exact Hc|]. split; [exact Ha|]. split; [exact Hq|].
  intros Hproto. cbn [settings_file]. unfold configured_document.
  rewrite hooks_entry_define. apply lookup_put_own, Hproto.
Qed.

Lemma setup_installs_existing_sound_witness :
  exists c p,
    PLATFORM_CONFIGS (os_platform mac) = Some c /\
    fs_access mac p = true /\
    p = defaultSound c.
Proof.
  destruct (setup_installs_existing_sound mac "Stop" None true nothing _ _
              eq_refl)
    as [c [p [Hc [Ha [Hp _]]]]].
  exists c, p. split; [exact Hc|]. split; [exact Ha | exact Hp].
Defined.

(** ** Restoring, failing and reading *)

(** X8.  [enableNotifications] without event merges the backup into the
    settings: a key of the backup takes the backup's value, every other
    [hooks] entry and every other top-level key keeps its value.  (For a
    backup with distinct keys and no [__proto__] key, as every backup the
    module writes is.) *)
Theorem enable_all_merges_backup (fs : files) (s b : obj) :
  backup_file fs = Parsed b ->
  read (settings_file fs) = Some s ->
  in_model (settings_file fs) ->
  NoDup (keys b) ->
  has_own "__proto__" b = false ->
  exists fs1,
    enableNotifications None fs
    = Returned tt fs1 [EnabledAll (List.length (keys b))] /\
    (forall k,
       hooks_entry (settings_file fs1) k =
       match lookup k b with
       | Some v => Some v
       | None => hooks_entry (settings_file fs) k
       end) /\
    (forall k, k <> "hooks" ->
       top_entry (settings_file fs1) k = top_entry (settings_file fs) k).
Proof.
  intros Hb Hr Hin Hnd Hp. rewrite enableNotifications_eq, Hb, Hr.
  unfold in_model in Hin. rewrite Hr in Hin. cbn [given].
  assert (Hres :
    match settings_hooks s with
    | HooksOther _ => @OutsideModel unit
    | _ =>
        Returned tt
          (mkFiles
             (Parsed (define "hooks" (JObj (assign (starting_hooks s) b)) s))
             (Parsed b))
          [EnabledAll (List.length (keys b))]
    end
    = Returned tt
          (mkFiles
             (Parsed (define "hooks" (JObj (assign (starting_hooks s) b)) s))
             (Parsed b))
          [EnabledAll (List.length (keys b))]).
  { destruct (settings_hooks s); [reflexivity | reflexivity | contradiction]. }
  eexists. split; [exact Hres|]. cbn [settings_file]. split.
  - intros k. rewrite hooks_entry_define, lookup_assign by assumption.
    rewrite (hooks_entry_read (settings_file fs) s k Hr). reflexivity.
  - intros k Hk. rewrite top_entry_define by exact Hk.
    symmetry. apply top_entry_read, Hr.
Qed.

Lemma enable_all_merges_backup_witness :
  exists fs1,
    enableNotifications None disabled_stop = Returned tt fs1 [EnabledAll 1] /\
    hooks_entry (settings_file fs1) "Stop" = Some glass_group.
Proof.
  destruct (enable_all_merges_backup disabled_stop _ _ eq_refl eq_refl I)
    as [fs1 [He [Hk _]]].
  - repeat constructor. simpl. tauto.
  - reflexivity.
  - exists fs1. split; [exact He|]. rewrite Hk. reflexivity.
Defined.

(** X9.  On a settings file that does not parse,
    [disableNotifications], [removeNotification] and [getStatus] throw the
    parse error at once, and so does [setupNotification] on a supported
    platform (on any other it reports the platform first); nothing is
    printed and no file changes.  [enableNotifications] throws only when a
    backup parses: without one it returns with its no-previous-configuration
    line, since it reads the backup first. *)
Theorem unparsable_settings_stop_every_operation (H : host) (fs : files)
  (text : string) :
  settings_file fs = Unparsable text ->
  (forall event, disableNotifications event fs = Threw ParseError fs []) /\
  (forall event, removeNotification event fs = Threw ParseError fs []) /\
  getStatus fs = Threw ParseError fs [] /\
  (forall event sp notify,
     setupNotification H event sp notify fs
     = match PLATFORM_CONFIGS (os_platform H) with
       | Some _ => Threw ParseError fs []
       | None => Threw UnsupportedPlatform fs []
       end) /\
  (forall event,
     enableNotifications event fs
     = match backup_file fs with
       | Parsed _ => Threw ParseError fs []
       | _ => Returned tt fs [NoPreviousConfiguration]
       end).
Proof.
  intros Hs.
  assert (Hr : read (settings_file fs) = None) by (rewrite Hs; reflexivity).
  split; [intros; rewrite disableNotifications_eq, Hr; reflexivity|].
  split; [intros; rewrite removeNotification_eq, Hr; reflexivity|].
  split; [rewrite getStatus_eq, Hr; reflexivity|].
  split.
  - intros event sp notify. unfold setupNotification.
    unfold bind at 1. unfold getPlatformConfig.
    destruct (PLATFORM_CONFIGS (os_platform H)) as [c|]; [|reflexivity].
    unfold ret at 1. unfold bind at 1.
    rewrite backupCurrentConfig_eq, Hr. reflexivity.
  - intros event. rewrite enableNotifications_eq, Hr.
    destruct (backup_file fs); reflexivity.
Qed.

Lemma unparsable_settings_stop_every_operation_witness :
  getStatus broken = Threw ParseError broken [] /\
  enableNotifications None broken
  = Returned tt broken [NoPreviousConfiguration].
Proof.
  destruct (unparsable_settings_stop_every_operation mac broken "{" eq_refl)
    as [_ [_ [Hs [_ He]]]].
  split; [exact Hs | apply (He None)].
Defined.

(** X10.  [getStatus] writes nothing: whether it returns or throws, both
    files are exactly as before. *)
Theorem status_writes_nothing (fs : files) :
  files_after (getStatus fs) = Some fs \/ getStatus fs = OutsideModel.
Proof.
  destruct (getStatus fs) as [u fs' l | e fs' l |] eqn:E.
  - left. simpl. f_equal. apply getStatus_files. rewrite E. reflexivity.
  - left. simpl. f_equal. eapply getStatus_threw. exact E.
  - right. reflexivity.
Qed.

(** X11.  After [disableNotifications] without event, [getStatus] reports
    DISABLED and lists exactly the events that were configured, in the order
    of [AVAILABLE_EVENTS]. *)
Theorem disable_all_then_status (fs : files) (s h : obj) :
  read (settings_file fs) = Some s ->
  settings_hooks s = HooksMap h ->
  configured h <> [] ->
  exists fs1,
    disableNotifications None fs
    = Returned tt fs1 [DisabledAll (List.length (configured h))] /\
    getStatus fs1 = Returned tt fs1 [StatusTitle; StatusDisabled (configured h)].
Proof.
  intros Hr Hh Hc. rewrite disableNotifications_eq, Hr, Hh.
  destruct (configured h) as [|e0 l0] eqn:Ec; [congruence|].
  rewrite <- Ec. cbn [given]. eexists. split; [reflexivity|].
  rewrite getStatus_eq. cbn [settings_file backup_file read].
  rewrite starting_hooks_cleanup, configured_without_configured, keys_snapshot.
  destruct (settings_hooks_cleanup_cases (without_configured h) s) as [E | E];
    rewrite E; reflexivity.
Qed.

Lemma disable_all_then_status_witness :
  exists fs1,
    disableNotifications None stop_and_custom
    = Returned tt fs1 [DisabledAll 1] /\
    getStatus fs1 = Returned tt fs1 [StatusTitle; StatusDisabled ["Stop"]].
Proof.
  destruct (disable_all_then_status stop_and_custom _ _ eq_refl eq_refl)
    as [fs1 [Hd Hg]]; [vm_compute; discriminate|].
  exists fs1. split; [exact Hd | exact Hg].
Defined.

(** X12.  [removeNotification] of a configured event deletes the whole
    backup file, not only that event's part of it, and leaves the other
    [hooks] entries; afterwards [enableNotifications] restores nothing,
    whatever its argument. *)
Theorem remove_discards_whole_backup (event : string) (fs : files)
  (s h : obj) :
  read (settings_file fs) = Some s ->
  settings_hooks s = HooksMap h ->
  to_boolean (get h event) = true ->
  exists fs1,
    removeNotification event fs = Returned tt fs1 [Removed event] /\
    backup_file fs1 = Missing /\
    (forall k, k <> event ->
       hooks_entry (settings_file fs1) k = hooks_entry (settings_file fs) k) /\
    (forall e, enableNotifications e fs1
               = Returned tt fs1 [NoPreviousConfiguration]).
Proof.
  intros Hr Hh Hg. rewrite removeNotification_eq, Hr, Hh, Hg.
  eexists. split; [reflexivity|]. split; [reflexivity|]. split.
  - intros k Hk. cbn [settings_file].
    rewrite hooks_entry_cleanup, (hooks_entry_read (settings_file fs) s k Hr),
      (starting_hooks_map s h Hh).
    apply lookup_remove_neq, Hk.
  - intros e. rewrite enableNotifications_eq. reflexivity.
Qed.

Lemma remove_discards_whole_backup_witness :
  exists fs1,
    removeNotification "Stop" enabled_stop = Returned tt fs1 [Removed "Stop"] /\
    backup_file fs1 = Missing /\
    enableNotifications None fs1 = Returned tt fs1 [NoPreviousConfiguration].
Proof.
  destruct (remove_discards_whole_backup "Stop" enabled_stop _ _
              eq_refl eq_refl eq_refl)
    as [fs1 [Hr [Hb [_ He]]]].
  exists fs1. split; [exact Hr|]. split; [exact Hb | apply He].
Defined.

(** ** Entries that the status can read *)

Lemma any_marker_absent (markers : list string) :
  any_marker None markers = inr false.
Proof. induction markers; simpl; auto. Qed.

Lemma any_marker_null (markers : list string) :
  any_marker (Some JNull) markers = inr false.
Proof. induction markers; simpl; auto. Qed.

Lemma mentions_plain (markers : list string) (hook : json) :
  plain_hook hook = true ->
  exists b, mentions markers hook = inr b /\
            (b = true -> markers <> [] ->
             exists o c, hook = JObj o /\ lookup "command" o = Some (JStr c)).
Proof.
  unfold plain_hook, mentions. intros Hp.
  destruct hook as [| b | n | str | l | o]; try discriminate; simpl;
    try (rewrite any_marker_absent; exists false; split; [reflexivity|];
         discriminate).
  destruct (lookup "command" o) as [[| b | n | str | l | o']|] eqn:E;
    try discriminate.
  - rewrite any_marker_null. exists false. split; [reflexivity|discriminate].
  - rewrite any_marker_string. eexists. split; [reflexivity|].
    intros _ _. exists o, str. auto.
  - rewrite any_marker_absent. exists false. split; [reflexivity|discriminate].
Qed.

Lemma find_hook_plain (markers : list string) (hooks : list json) :
  markers <> [] ->
  forallb plain_hook hooks = true ->
  find_hook markers hooks = inr None \/
  exists o c, find_hook markers hooks = inr (Some (JObj o)) /\
              lookup "command" o = Some (JStr c).
Proof.
  intros Hm. induction hooks as [|hook rest IH]; simpl; intros Hp.
  - left. reflexivity.
  - apply andb_prop in Hp. destruct Hp as [Hh Hr].
    destruct (mentions_plain markers hook Hh) as [b [E Hb]]. rewrite E.
    destruct b.
    + right. destruct (Hb eq_refl Hm) as [o [c [-> Hc]]]. exists o, c. auto.
    + apply IH, Hr.
Qed.

Lemma some_hook_plain (markers : list string) (hooks : list json) :
  forallb plain_hook hooks = true ->
  exists b, some_hook markers hooks = inr b.
Proof.
  induction hooks as [|hook rest IH]; simpl; intros Hp.
  - exists false. reflexivity.
  - apply andb_prop in Hp. destruct Hp as [Hh Hr].
    destruct (mentions_plain markers hook Hh) as [b [E _]]. rewrite E.
    destruct b; [exists true; reflexivity | apply IH, Hr].
Qed.

Lemma describe_plain (event : string) (x : jsval) (fs : files) :
  plain_entry x = true ->
  exists lines, describe event x fs = Returned tt fs (StatusEvent event :: lines).
Proof.
  unfold plain_entry, describe. intros Hp.
  destruct (group_hooks x) as [| b | n | str | hooks | o]; try discriminate.
  destruct (some_hook_plain desktop_markers hooks Hp) as [b Hb].
  assert (Hm : sound_markers <> []) by discriminate.
  destruct (find_hook_plain sound_markers hooks Hm Hp)
    as [Hf | [o [c [Hf Hc]]]].
  - unfold_monad. simpl. rewrite Hf, Hb. simpl. eexists. reflexivity.
  - unfold_monad. simpl. rewrite Hf, Hb. simpl. rewrite Hc. simpl.
    eexists. reflexivity.
Qed.

Lemma for_each_describe_plain (h : obj) (l : list string) (fs : files) :
  (forall e, In e l -> plain_entry (get h e) = true) ->
  exists log,
    for_each l (fun event => describe event (get h event)) fs
    = Returned tt fs log /\
    (forall e, In e l -> In (StatusEvent e) log).
Proof.
  induction l as [|e rest IH]; intros Hp.
  - exists []. split; [reflexivity|]. intros e [].
  - destruct (describe_plain e (get h e) fs (Hp e (or_introl eq_refl)))
      as [lines Hd].
    destruct IH as [log [Hf Hl]]; [intros; apply Hp; right; assumption|].
    simpl. unfold bind. rewrite Hd, Hf. eexists. split; [reflexivity|].
    intros e' [<- | Hin].
    + left. reflexivity.
    + apply in_or_app. right. apply Hl, Hin.
Qed.

(** X13.  [getStatus] returns, listing every configured managed event
    and no other event, whenever the first group of each configured entry
    lists only hooks whose [command] is absent, [null] or a string (or lists
    no hook at all). *)
Theorem status_returns_on_plain_entries (fs : files) (s : obj) :
  read (settings_file fs) = Some s ->
  in_model (settings_file fs) ->
  (forall e, In e (configured (starting_hooks s)) ->
     plain_entry (get (starting_hooks s) e) = true) ->
  exists log,
    getStatus fs = Returned tt fs log /\
    (forall e, In (StatusEvent e) log <-> In e (configured (starting_hooks s))).
Proof.
  intros Hr Hin Hp.
  assert (Hback : forall log, getStatus fs = Returned tt fs log ->
            forall e, In (StatusEvent e) log ->
                      In e (configured (starting_hooks s))).
  { intros log Hg e He.
    destruct (status_event_is_configured fs e) as [s' [Hr' Hc]].
    - rewrite Hg. exact He.
    - congruence. }
  pose proof (getStatus_eq fs) as Hg. rewrite Hr in Hg.
  unfold in_model in Hin. rewrite Hr in Hin.
  assert (Hg' : getStatus fs =
    let h := starting_hooks s in
    match configured h with
    | [] =>
        match backup_file fs with
        | Parsed b => Returned tt fs [StatusTitle; StatusDisabled (keys b)]
        | _ => Returned tt fs [StatusTitle; StatusNotConfigured]
        end
    | _ =>
        with_log [StatusTitle; StatusEnabled (List.length (configured h))]
          (for_each (configured h)
             (fun event => describe event (get h event)) fs)
    end).
  { rewrite Hg. destruct (settings_hooks s); [reflexivity | reflexivity |
      contradiction]. }
  clear Hg. cbv zeta in Hg'.
  destruct (for_each_describe_plain (starting_hooks s)
              (configured (starting_hooks s)) fs Hp) as [log [Hf Hl]].
  destruct (configured (starting_hooks s)) as [|e0 l0] eqn:Ec.
  - destruct (backup_file fs); eexists; (split; [exact Hg'|]);
      intros e; (split; [|intros []]); apply Hback; exact Hg'.
  - rewrite Hf in Hg'. simpl in Hg'. eexists. split; [exact Hg'|].
    intros e. split; [apply Hback; exact Hg'|].
    intros He. right. right. apply Hl, He.
Qed.

Lemma status_returns_on_plain_entries_witness :
  exists log,
    getStatus enabled_stop = Returned tt enabled_stop log /\
    In (StatusEvent "Stop") log.
Proof.
  destruct (status_returns_on_plain_entries enabled_stop _ eq_refl I)
    as [log [Hg Hl]].
  - intros e He. vm_compute in He. destruct He as [<- | []]. reflexivity.
  - exists log. split; [exact Hg|]. apply Hl. vm_compute. auto.
Defined.

(** ** The sound reference *)

Lemma prefix_split (a s : string) :
  prefix a s = true -> exists rest, s = a ++ rest.
Proof.
  revert s. induction a as [|c a IH]; intros s Hp.
  - exists s. reflexivity.
  - destruct s as [|c' s]; [discriminate|]. simpl in Hp.
    destruct (ascii_dec c c') as [-> | ]; [|discriminate].
    destruct (IH s Hp) as [rest ->]. exists rest. reflexivity.
Qed.

Lemma prefix_append (a rest : string) : prefix a (a ++ rest) = true.
Proof.
  induction a as [|c a IH]; simpl.
  - destruct rest; reflexivity.
  - destruct (ascii_dec c c); [exact IH | congruence].
Qed.

Lemma audio_extension_sound (s e : string) :
  audio_extension s = Some e ->
  In e audio_extensions /\ exists rest, s = e ++ rest.
Proof.
  unfold audio_extension, audio_extensions. intros He.
  repeat match type of He with
  | (if prefix ?a s then _ else _) = _ =>
      destruct (prefix a s) eqn:?
  end; try discriminate; injection He as <-;
    (split; [simpl; tauto | apply prefix_split; assumption]).
Qed.

Lemma audio_extension_complete (e rest : string) :
  In e audio_extensions -> exists e', audio_extension (e ++ rest) = Some e'.
Proof.
  unfold audio_extension. intros He.
  destruct (prefix ".aiff" (e ++ rest)) eqn:E1; [eauto|].
  destruct (prefix ".wav" (e ++ rest)) eqn:E2; [eauto|].
  destruct (prefix ".mp3" (e ++ rest)) eqn:E3; [eauto|].
  destruct (prefix ".oga" (e ++ rest)) eqn:E4; [eauto|].
  exfalso. simpl in He.
  destruct He as [<- | [<- | [<- | [<- | []]]]];
    rewrite prefix_append in *; discriminate.
Qed.

Lemma no_space_cons (c : ascii) (s : string) :
  no_space (String c s) = negb (is_space c) && no_space s.
Proof. reflexivity. Qed.

(** What [run_then_extension] returns is a non-empty run without white space,
    an extension after it, and all of it starts the text. *)
Lemma run_then_extension_sound (s m : string) :
  run_then_extension s = Some m ->
  exists body ext rest,
    m = body ++ ext /\ s = m ++ rest /\ body <> "" /\
    no_space body = true /\ In ext audio_extensions.
Proof.
  revert m. induction s as [|c s IH]; intros m Hm; [discriminate|].
  simpl in Hm. destruct (is_space c) eqn:Ec; [discriminate|].
  destruct (run_then_extension s) as [m'|] eqn:Er.
  - injection Hm as <-.
    destruct (IH m' eq_refl) as [body [ext [rest [-> [-> [Hb [Hn He]]]]]]].
    exists (String c body), ext, rest. repeat split; try assumption.
    + discriminate.
    + rewrite no_space_cons, Ec, Hn. reflexivity.
  - destruct (audio_extension s) as [e|] eqn:Ea; [|discriminate].
    injection Hm as <-.
    destruct (audio_extension_sound s e Ea) as [He [rest ->]].
    exists (String c ""), e, rest. repeat split; try assumption.
    + discriminate.
    + rewrite no_space_cons, Ec. reflexivity.
Qed.

Lemma run_then_extension_complete (body ext rest : string) :
  body <> "" -> no_space body = true -> In ext audio_extensions ->
  exists m, run_then_extension (body ++ ext ++ rest) = Some m.
Proof.
  intros Hb Hn He. induction body as [|c body IH]; [congruence|].
  rewrite no_space_cons in Hn. apply andb_prop in Hn. destruct Hn as [Hc Hn].
  apply negb_true_iff in Hc. simpl. rewrite Hc.
  destruct body as [|c' body'].
  - simpl. destruct (run_then_extension (ext ++ rest)); [eauto|].
    destruct (audio_extension_complete ext rest He) as [e' ->]. eauto.
  - destruct IH as [m Hm]; [discriminate | exact Hn |]. rewrite Hm. eauto.
Qed.

Lemma sound_path_match_sound (s m : string) :
  sound_path_match s = Some m ->
  exists pre body ext post,
    s = pre ++ m ++ post /\ m = "/" ++ body ++ ext /\ body <> "" /\
    no_space body = true /\ In ext audio_extensions.
Proof.
  revert m. induction s as [|c s IH]; intros m Hm; [discriminate|].
  simpl in Hm.
  assert (Hrest : sound_path_match s = Some m ->
    exists pre body ext post,
      String c s = pre ++ m ++ post /\ m = "/" ++ body ++ ext /\ body <> "" /\
      no_space body = true /\ In ext audio_extensions).
  { intros Hs. destruct (IH m Hs) as [pre [body [ext [post [-> H']]]]].
    exists (String c pre), body, ext, post. split; [reflexivity | exact H']. }
  destruct (Ascii.eqb c "/") eqn:Ec; [|auto].
  destruct (run_then_extension s) as [m'|] eqn:Er; [|auto].
  injection Hm as <-. apply Ascii.eqb_eq in Ec. subst c.
  destruct (run_then_extension_sound s m' Er)
    as [body [ext [rest [-> [-> [Hb [Hn He]]]]]]].
  exists "", body, ext, rest. repeat split; assumption.
Qed.

Lemma sound_path_match_complete (pre body ext post : string) :
  body <> "" -> no_space body = true -> In ext audio_extensions ->
  exists m, sound_path_match (pre ++ "/" ++ body ++ ext ++ post) = Some m.
Proof.
  intros Hb Hn He. induction pre as [|c pre IH].
  - simpl.
    destruct (run_then_extension_complete body ext post Hb Hn He) as [m ->].
    eauto.
  - destruct IH as [m Hm].
    change (String c pre ++ "/" ++ body ++ ext ++ post)
      with (String c (pre ++ "/" ++ body ++ ext ++ post)).
    cbn [sound_path_match]. rewrite Hm.
    destruct (Ascii.eqb c "/"); [|eauto].
    destruct (run_then_extension _); eauto.
Qed.

(** X14.  The pattern [/\/[^\s]+\.(aiff|wav|mp3|oga)/] of [getStatus].
    Whatever it matches in a command is a part of the command made of a
    slash, a non-empty run without white space and one of the four
    extensions; and it matches whenever the command has such a part. *)
Theorem sound_reference_shape (cmd : string) :
  (forall m, sound_path_match cmd = Some m ->
     exists pre body ext post,
       cmd = pre ++ m ++ post /\ m = "/" ++ body ++ ext /\ body <> "" /\
       no_space body = true /\ In ext audio_extensions) /\
  ((exists pre body ext post,
      cmd = pre ++ "/" ++ body ++ ext ++ post /\ body <> "" /\
      no_space body = true /\ In ext audio_extensions) ->
   exists m, sound_path_match cmd = Some m).
Proof.
  split.
  - apply sound_path_match_sound.
  - intros [pre [body [ext [post [-> [Hb [Hn He]]]]]]].
    apply sound_path_match_complete; assumption.
Qed.

(** ** The uninstall script *)

Lemma get_remove_neq (h : obj) (k k' : string) :
  k <> k' -> get (remove k' h) k = get h k.
Proof. intros Hk. unfold get. rewrite lookup_remove_neq by exact Hk. reflexivity. Qed.

Lemma remove_loop (l : list string) :
  NoDup l ->
  forall (h : obj) (n : nat),
    fold_left
      (fun st event =>
         if to_boolean (get (fst st) event)
         then (remove event (fst st), S (snd st))
         else st)
      l (h, n)
    = (fold_left (fun acc evt => remove evt acc)
         (filter (fun e => to_boolean (get h e)) l) h,
       (n + List.length (filter (fun e => to_boolean (get h e)) l))%nat).
Proof.
  induction 1 as [|e l Hnot Hnd IH]; intros h n.
  - simpl. f_equal. lia.
  - cbn [fold_left filter fst snd].
    destruct (to_boolean (get h e)) eqn:Eg.
    + rewrite IH.
      assert (Hf : filter (fun e0 => to_boolean (get (remove e h) e0)) l
                   = filter (fun e0 => to_boolean (get h e0)) l).
      { apply filter_ext_in. intros a Ha. rewrite get_remove_neq; [reflexivity|].
        intros E. subst. contradiction. }
      rewrite Hf. cbn [fold_left List.length]. f_equal. lia.
    + apply IH.
Qed.

Lemma remove_managed_eq (h : obj) :
  remove_managed h = (without_configured h, List.length (configured h)).
Proof.
  unfold remove_managed.
  change ccnudgeEvents with eventNames.
  rewrite (remove_loop eventNames NoDup_eventNames). reflexivity.
Qed.

Lemma cleanupSettings_eq (fs : files) :
  cleanupSettings fs =
  match settings_file fs with
  | Missing => (fs, [])
  | Unparsable _ => (fs, [CouldNotCleanUp])
  | Parsed s =>
      match settings_hooks s with
      | NoHooks => (mkFiles (settings_file fs) Missing, [])
      | HooksOther _ => (mkFiles (settings_file fs) Missing, [CleaningUp])
      | HooksMap h =>
          match configured h with
          | [] => (mkFiles (settings_file fs) Missing, [CleaningUp])
          | _ =>
              (mkFiles (Parsed (cleanup (without_configured h) s)) Missing,
               [CleaningUp; ConfigurationRemoved (List.length (configured h))])
          end
      end
  end.
Proof.
  unfold cleanupSettings.
  destruct (settings_file fs) as [| t | s]; try reflexivity.
  destruct (settings_hooks s) as [| h | v]; try reflexivity.
  rewrite remove_managed_eq.
  destruct (configured h); reflexivity.
Qed.

(** X15.  Whenever [disableNotifications] without event returns,
    [cleanupSettings] of the uninstall script leaves the same settings file
    as it does. *)
Theorem uninstall_leaves_what_disable_leaves (fs fs1 : files)
  (l : list message) :
  disableNotifications None fs = Returned tt fs1 l ->
  settings_file (fst (cleanupSettings fs)) = settings_file fs1.
Proof.
  rewrite disableNotifications_eq, cleanupSettings_eq. intros Hd.
  destruct (settings_file fs) as [| t | s] eqn:Es; simpl in Hd.
  - injection Hd as <- _. simpl. congruence.
  - discriminate.
  - destruct (settings_hooks s) as [| h | v]; [| |discriminate].
    + injection Hd as <- _. simpl. congruence.
    + destruct (configured h) as [|e0 l0] eqn:Ec.
      * injection Hd as <- _. simpl. congruence.
      * injection Hd as <- _. reflexivity.
Qed.

Lemma uninstall_leaves_what_disable_leaves_witness :
  settings_file (fst (cleanupSettings stop_and_custom))
  = settings_file custom_only.
Proof.
  apply (uninstall_leaves_what_disable_leaves stop_and_custom custom_only
           [DisabledAll 1]).
  reflexivity.
Defined.

(** X16.  After [cleanupSettings] on a settings file that parses (and
    whose [hooks] member is a mapping, falsy or absent), [getStatus] reports
    NOT CONFIGURED. *)
Theorem uninstall_then_status (fs : files) (s : obj) :
  settings_file fs = Parsed s ->
  in_model (settings_file fs) ->
  getStatus (fst (cleanupSettings fs))
  = Returned tt (fst (cleanupSettings fs)) [StatusTitle; StatusNotConfigured].
Proof.
  intros Es Hin. rewrite cleanupSettings_eq, getStatus_eq.
  unfold in_model in Hin. rewrite Es in *. simpl in Hin.
  destruct (settings_hooks s) as [| h | v] eqn:Eh; [| |contradiction].
  - simpl. rewrite Eh. unfold starting_hooks. rewrite Eh. reflexivity.
  - destruct (configured h) as [|e0 l0] eqn:Ec.
    + simpl. rewrite Eh. unfold starting_hooks. rewrite Eh, Ec. reflexivity.
    + cbn [fst settings_file backup_file read].
      rewrite starting_hooks_cleanup, configured_without_configured.
      destruct (settings_hooks_cleanup_cases (without_configured h) s) as [E | E];
        rewrite E; reflexivity.
Qed.

Lemma uninstall_then_status_witness :
  getStatus (fst (cleanupSettings stop_and_custom))
  = Returned tt (fst (cleanupSettings stop_and_custom))
      [StatusTitle; StatusNotConfigured].
Proof.
  apply (uninstall_then_status stop_and_custom _ eq_refl I).
Defined.

(** X17.  [cleanupSettings] deletes the backup file exactly when the
    settings file exists and parses: with a missing or unparsable settings
    file the backup stays.  It rewrites the settings file only when some
    managed event is configured. *)
Theorem uninstall_backup_and_write_rule (fs : files) :
  backup_file (fst (cleanupSettings fs))
  = match settings_file fs with
    | Parsed _ => Missing
    | _ => backup_file fs
    end /\
  (settings_file (fst (cleanupSettings fs)) <> settings_file fs ->
   exists s h e,
     settings_file fs = Parsed s /\ settings_hooks s = HooksMap h /\
     In e (configured h)).
Proof.
  rewrite cleanupSettings_eq.
  destruct (settings_file fs) as [| t | s] eqn:Es; simpl;
    try (split; [reflexivity | congruence]).
  destruct (settings_hooks s) as [| h | v] eqn:Eh; simpl;
    try (split; [reflexivity | congruence]).
  destruct (configured h) as [|e0 l0] eqn:Ec; simpl;
    try (split; [reflexivity | congruence]).
  split; [reflexivity|]. intros _. exists s, h, e0. rewrite Ec. simpl. auto.
Qed.

(** X18.  [cleanupSettings] removes from [hooks] exactly the managed
    events with a truthy entry; every other [hooks] entry and every other
    top-level key is unchanged. *)
Theorem uninstall_removes_configured_events_only (fs : files) (s : obj) :
  settings_file fs = Parsed s ->
  (forall k,
     hooks_entry (settings_file (fst (cleanupSettings fs))) k
     = if existsb (String.eqb k) (configured (starting_hooks s)) then None
       else hooks_entry (settings_file fs) k) /\
  (forall k, k <> "hooks" ->
     top_entry (settings_file (fst (cleanupSettings fs))) k
     = top_entry (settings_file fs) k).
Proof.
  intros Es. rewrite cleanupSettings_eq, Es.
  unfold starting_hooks.
  destruct (settings_hooks s) as [| h | v] eqn:Eh.
  - split; reflexivity.
  - destruct (configured h) as [|e0 l0] eqn:Ec.
    + split; reflexivity.
    + rewrite <- Ec. cbn [fst settings_file]. split.
      * intros k. rewrite hooks_entry_cleanup, lookup_without_configured.
        rewrite hooks_entry_start, (starting_hooks_map s h Eh). reflexivity.
      * intros k Hk. rewrite top_entry_cleanup by exact Hk. reflexivity.
  - split; reflexivity.
Qed.

Lemma uninstall_removes_configured_events_only_witness :
  hooks_entry (settings_file (fst (cleanupSettings stop_and_custom))) "Stop"
  = None /\
  hooks_entry (settings_file (fst (cleanupSettings stop_and_custom))) "Custom"
  = Some tink_group /\
  top_entry (settings_file (fst (cleanupSettings stop_and_custom))) "model"
  = Some (JStr "opus").
Proof.
  destruct (uninstall_removes_configured_events_only stop_and_custom _ eq_refl)
    as [Hh Ht].
  split; [apply (Hh "Stop")|]. split; [apply (Hh "Custom")|].
  apply (Ht "model"). discriminate.
Defined.

(** ** The install script *)

Lemma isAlreadyConfigured_iff (fs : files) :
  isAlreadyConfigured fs = true <->
  exists s, read (settings_file fs) = Some s /\
            In "Stop" (configured (starting_hooks s)).
Proof.
  unfold isAlreadyConfigured. split.
  - destruct (settings_file fs) as [| t | s]; try discriminate.
    destruct (lookup "hooks" s) as [[| b | n | str | l | h]|] eqn:El;
      try discriminate.
    intros Hg. exists s. split; [reflexivity|].
    apply settings_hooks_map in El.
    rewrite (starting_hooks_map s h El).
    apply filter_In. split; [simpl; auto | exact Hg].
  - intros [s [Hr Hin]]. apply filter_In in Hin. destruct Hin as [_ Hg].
    unfold starting_hooks in Hg.
    destruct (settings_hooks s) as [| h | v] eqn:Eh; try discriminate.
    apply settings_hooks_map in Eh.
    destruct (settings_file fs) as [| t | s']; simpl in Hr.
    + injection Hr as <-. discriminate.
    + discriminate.
    + injection Hr as ->. rewrite Eh. exact Hg.
Qed.

Lemma configured_stop_first (h : obj) :
  In "Stop" (configured h) -> exists rest, configured h = "Stop" :: rest.
Proof.
  intros Hin. apply filter_In in Hin. destruct Hin as [_ Hg].
  unfold configured, eventNames. simpl map. cbn [filter]. rewrite Hg.
  eexists. reflexivity.
Qed.

Lemma for_each_first_event (h : obj) (e : string) (rest : list string)
  (fs : files) :
  In (StatusEvent e)
    (log_of (for_each (e :: rest)
               (fun event => describe event (get h event)) fs)).
Proof.
  cbn [for_each]. unfold bind.
  destruct (describe_log e (get h e) fs) as [tail [Hl _]].
  pose proof (describe_inside e (get h e) fs) as Hd.
  destruct (describe e (get h e) fs) as [u fs1 l1 | err fs1 l1 |];
    simpl in Hl; subst; [| left; reflexivity | congruence].
  pose proof (for_each_describe_inside h rest fs1) as Hf.
  destruct (for_each rest _ fs1) as [u2 fs2 l2 | err fs2 l2 |];
    [left; reflexivity | left; reflexivity | congruence].
Qed.

(** X19.  [isAlreadyConfigured] answers true exactly when [getStatus]
    lists the Stop event as enabled. *)
Theorem already_configured_iff_status_lists_stop (fs : files) :
  isAlreadyConfigured fs = true <->
  In (StatusEvent "Stop") (log_of (getStatus fs)).
Proof.
  rewrite isAlreadyConfigured_iff. split.
  - intros [s [Hr Hin]]. rewrite getStatus_eq, Hr.
    assert (Hh : exists h, settings_hooks s = HooksMap h).
    { apply filter_In in Hin. destruct Hin as [_ Hg].
      unfold starting_hooks in Hg.
      destruct (settings_hooks s) as [| h | v]; try discriminate. eauto. }
    destruct Hh as [h Hh]. rewrite Hh.
    rewrite (starting_hooks_map s h Hh) in *. cbv zeta.
    destruct (configured_stop_first h Hin) as [rest Ec].
    rewrite Ec.
    pose proof (for_each_first_event h "Stop" rest fs) as Hf.
    destruct (for_each ("Stop" :: rest) _ fs) as [u f1 l1 | err f1 l1 |];
      simpl in *; auto.
  - apply status_event_is_configured.
Qed.

(** X20.  After [cleanupSettings], [isAlreadyConfigured] of the install
    script answers false, and a second [cleanupSettings] changes no file. *)
Theorem uninstall_then_not_configured (fs : files) :
  isAlreadyConfigured (fst (cleanupSettings fs)) = false /\
  fst (cleanupSettings (fst (cleanupSettings fs))) = fst (cleanupSettings fs).
Proof.
  rewrite (cleanupSettings_eq fs).
  destruct (settings_file fs) as [| t | s] eqn:Es.
  - cbn [fst]. rewrite cleanupSettings_eq, Es. split; [|reflexivity].
    unfold isAlreadyConfigured. rewrite Es. reflexivity.
  - cbn [fst]. rewrite cleanupSettings_eq, Es. split; [|reflexivity].
    unfold isAlreadyConfigured. rewrite Es. reflexivity.
  - destruct (settings_hooks s) as [| h | v] eqn:Eh.
    + cbn [fst]. rewrite cleanupSettings_eq. cbn [settings_file]. rewrite Eh.
      split; [|reflexivity].
      destruct (isAlreadyConfigured _) eqn:Ea; [|reflexivity].
      apply isAlreadyConfigured_iff in Ea. destruct Ea as [s' [Hr Hin]].
      simpl in Hr. injection Hr as <-. unfold starting_hooks in Hin.
      rewrite Eh in Hin. apply filter_In in Hin. destruct Hin; discriminate.
    + destruct (configured h) as [|e0 l0] eqn:Ec.
      * cbn [fst]. rewrite cleanupSettings_eq. cbn [settings_file].
        rewrite Eh, Ec. split; [|reflexivity].
        destruct (isAlreadyConfigured _) eqn:Ea; [|reflexivity].
        apply isAlreadyConfigured_iff in Ea. destruct Ea as [s' [Hr Hin]].
        simpl in Hr. injection Hr as <-.
        rewrite (starting_hooks_map s h Eh), Ec in Hin. contradiction.
      * cbn [fst]. rewrite cleanupSettings_eq. cbn [settings_file]. split.
        -- destruct (isAlreadyConfigured _) eqn:Ea; [|reflexivity].
           apply isAlreadyConfigured_iff in Ea. destruct Ea as [s' [Hr Hin]].
           simpl in Hr. injection Hr as <-.
           rewrite starting_hooks_cleanup, configured_without_configured in Hin.
           contradiction.
        -- destruct (settings_hooks_cleanup_cases (without_configured h) s)
             as [E | E]; rewrite E; [reflexivity|].
           rewrite configured_without_configured. reflexivity.
    + cbn [fst]. rewrite cleanupSettings_eq. cbn [settings_file]. rewrite Eh.
      split; [|reflexivity].
      destruct (isAlreadyConfigured _) eqn:Ea; [|reflexivity].
      apply isAlreadyConfigured_iff in Ea. destruct Ea as [s' [Hr Hin]].
      simpl in Hr. injection Hr as <-. unfold starting_hooks in Hin.
      rewrite Eh in Hin. apply filter_In in Hin. destruct Hin; discriminate.
Qed.

(** ** Trying the sound *)

Lemma includes_one_of_string (cmd : string) (markers : list string) :
  includes_one_of (Some (JStr cmd)) markers = inr (mentions_any markers cmd).
Proof.
  induction markers as [|m ms IH]; [reflexivity|].
  simpl. destruct (includes cmd m); [reflexivity | exact IH].
Qed.

Lemma notify_command_silent (H : host) (ncmd : string) :
  buildDesktopNotifyCommand H = Some ncmd ->
  mentions_any sound_markers ncmd = false.
Proof.
  unfold buildDesktopNotifyCommand.
  destruct (os_platform H); intros E; try discriminate;
    injection E as <-; vm_compute; reflexivity.
Qed.

Lemma play_hook_command (shell : string -> bool) (cmd : string) :
  play_hook shell (command_entry cmd) =
  if mentions_any sound_markers cmd then
    if shell cmd then Finished [Ran cmd] else Failed (ExecFailed cmd) [Ran cmd]
  else Finished [].
Proof.
  unfold play_hook, command_entry.
  cbn [lookup String.eqb Ascii.eqb Bool.eqb].
  change (lookup "type" [("type", JStr "command"); ("command", JStr cmd)])
    with (Some (JStr "command")).
  change ("command" =? "command") with true. cbv iota.
  change (lookup "command" [("type", JStr "command"); ("command", JStr cmd)])
    with (Some (JStr cmd)).
  rewrite includes_one_of_string.
  destruct (mentions_any sound_markers cmd); reflexivity.
Qed.

Lemma play_built_hooks (H : host) (shell : string -> bool)
  (c : platform_config) (p : string) (notify : bool) :
  PLATFORM_CONFIGS (os_platform H) = Some c ->
  play_hooks shell (built_hooks H (sound_command H c p) notify) =
  if shell (sound_command H c p)
  then Finished [Ran (sound_command H c p)]
  else Failed (ExecFailed (sound_command H c p)) [Ran (sound_command H c p)].
Proof.
  intros Hc. unfold built_hooks. cbn [play_hooks].
  rewrite play_hook_command, (sound_command_marked H c p Hc).
  destruct (shell (sound_command H c p)); [|reflexivity].
  destruct notify; [|reflexivity].
  destruct (buildDesktopNotifyCommand H) as [ncmd|] eqn:En; [|reflexivity].
  cbn [play_hooks]. rewrite play_hook_command, (notify_command_silent H ncmd En).
  reflexivity.
Qed.

Lemma stop_hooks_configured (H : host) (c : platform_config) (p : string)
  (notify : bool) (s : obj) :
  stop_hooks (configured_document H c "Stop" p notify s)
  = Some (JArr (built_hooks H (sound_command H c p) notify)).
Proof.
  unfold stop_hooks, configured_document.
  rewrite lookup_define_eq, lookup_put_own by discriminate.
  reflexivity.
Qed.

(** X21.  After [setupNotification] for Stop returns, [testSound] without
    argument runs exactly one command, the sound command that was
    installed; the desktop notification command carries no sound marker and
    is not run.  A failure of the command is passed on as it is. *)
Theorem test_plays_the_configured_stop_sound (H : host)
  (shell : string -> bool) (sp : option string) (notify : bool)
  (fs fs1 : files) (l : list message) :
  setupNotification H "Stop" sp notify fs = Returned tt fs1 l ->
  exists c p,
    PLATFORM_CONFIGS (os_platform H) = Some c /\
    resolved H c sp = Some p /\
    testSound H shell None fs1
    = if shell (sound_command H c p)
      then Finished [TestingConfigured; Ran (sound_command H c p); Played]
      else Failed (ExecFailed (sound_command H c p))
             [TestingConfigured; Ran (sound_command H c p)].
Proof.
  intros Hs.
  destruct (setup_returned H "Stop" sp notify fs fs1 l Hs)
    as [c [p [s [fs0 [Hc [Hp [Hr [Hin [Hb ->]]]]]]]]].
  exists c, p. split; [exact Hc|]. split; [exact Hp|].
  unfold testSound, getPlatformConfig. rewrite Hc.
  unfold ret at 1. cbn [given]. unfold readSettings. cbn [settings_file].
  rewrite stop_hooks_configured. unfold play_configured.
  unfold built_hooks at 1.
  change (command_entry (sound_command H c p)
          :: (if notify
              then match buildDesktopNotifyCommand H with
                   | Some notifyCommand => [command_entry notifyCommand]
                   | None => []
                   end
              else []))
    with (built_hooks H (sound_command H c p) notify).
  rewrite (play_built_hooks H shell c p notify Hc).
  destruct (shell (sound_command H c p)); reflexivity.
Qed.

Lemma test_plays_the_configured_stop_sound_witness :
  exists c p,
    PLATFORM_CONFIGS (os_platform mac) = Some c /\
    resolved mac c None = Some p /\
    exists fs1 l,
      setupNotification mac "Stop" None true nothing = Returned tt fs1 l /\
      testSound mac always_plays None fs1
      = Finished [TestingConfigured; Ran (sound_command mac c p); Played].
Proof.
  destruct (test_plays_the_configured_stop_sound mac always_plays None true
              nothing _ _ eq_refl)
    as [c [p [Hc [Hp Ht]]]].
  exists c, p. split; [exact Hc|]. split; [exact Hp|].
  eexists. eexists. split; [reflexivity | exact Ht].
Defined.

Lemma play_path_eq (H : host) (shell : string -> bool) (c : platform_config)
  (p : string) (fs : files) :
  PLATFORM_CONFIGS (os_platform H) = Some c ->
  play_path H shell p fs =
  if shell (sound_command H c p)
  then Finished [TestingSound p; Ran (sound_command H c p); Played]
  else Failed (FailedToPlay (sound_command H c p))
         [TestingSound p; Ran (sound_command H c p)].
Proof.
  intros Hc. unfold play_path.
  rewrite (buildSoundCommand_returns H c p Hc). reflexivity.
Qed.

(** X22.  For a non-empty sound argument that [setupNotification]
    resolves, [testSound] plays the same resolved path. *)
Theorem test_resolves_like_setup (H : host) (shell : string -> bool)
  (c : platform_config) (q p : string) (fs : files) :
  PLATFORM_CONFIGS (os_platform H) = Some c ->
  q <> "" ->
  resolved H c (Some q) = Some p ->
  testSound H shell (Some q) fs
  = if shell (sound_command H c p)
    then Finished [TestingSound p; Ran (sound_command H c p); Played]
    else Failed (FailedToPlay (sound_command H c p))
           [TestingSound p; Ran (sound_command H c p)].
Proof.
  intros Hc Hq Hp.
  destruct (resolved_spec H c (Some q) p Hp) as [Ha Hp'].
  apply String.eqb_neq in Hq.
  unfold given in Hp'. rewrite Hq in Hp'.
  unfold testSound, getPlatformConfig. rewrite Hc. unfold ret at 1.
  unfold given. rewrite Hq. unfold test_path.
  destruct (path_isAbsolute H q); cbn [negb].
  - subst p. apply play_path_eq, Hc.
  - destruct (fs_access H (path_join H (soundsPath c) (q ++ extension c))).
    + subst p. apply play_path_eq, Hc.
    + subst p. rewrite Ha. apply play_path_eq, Hc.
Qed.

Lemma test_resolves_like_setup_witness :
  testSound mac always_plays (Some "Glass") nothing
  = Finished [TestingSound "/System/Library/Sounds/Glass.aiff";
              Ran "afplay /System/Library/Sounds/Glass.aiff"; Played].
Proof.
  apply (test_resolves_like_setup mac always_plays darwin_config "Glass"
           "/System/Library/Sounds/Glass.aiff" nothing eq_refl).
  - discriminate.
  - reflexivity.
Defined.

(** X23.  [testSound] does not check that an absolute path exists: where
    [setupNotification] stops with sound-file-not-found, [testSound] hands
    the command with that path to the shell. *)
Theorem test_skips_the_existence_check (H : host) (shell : string -> bool)
  (c : platform_config) (q : string) (event : string) (notify : bool)
  (fs : files) (s : obj) :
  PLATFORM_CONFIGS (os_platform H) = Some c ->
  q <> "" ->
  path_isAbsolute H q = true ->
  fs_access H q = false ->
  read (settings_file fs) = Some s ->
  in_model (settings_file fs) ->
  (exists fs1 l,
     setupNotification H event (Some q) notify fs
     = Threw (SoundNotFound q) fs1 l) /\
  testSound H shell (Some q) fs
  = if shell (sound_command H c q)
    then Finished [TestingSound q; Ran (sound_command H c q); Played]
    else Failed (FailedToPlay (sound_command H c q))
           [TestingSound q; Ran (sound_command H c q)].
Proof.
  intros Hc Hq Habs Hacc Hr Hin. apply String.eqb_neq in Hq. split.
  - unfold setupNotification. unfold bind at 1. unfold getPlatformConfig.
    rewrite Hc. unfold ret at 1. unfold bind at 1.
    destruct (backupCurrentConfig_total fs s Hr Hin) as [b [fs0 [l0 Hb]]].
    rewrite Hb. unfold bind at 1.
    assert (Hres : resolveSound H c (Some q) fs0
                   = Threw (SoundNotFound q) fs0 []).
    { unfold resolveSound. rewrite Hq, Habs. cbn [negb].
      unfold bind, ret, throw. rewrite Hacc. reflexivity. }
    rewrite Hres. eauto.
  - unfold testSound, getPlatformConfig. rewrite Hc. unfold ret at 1.
    unfold given. rewrite Hq. unfold test_path. rewrite Habs. cbn [negb].
    apply play_path_eq, Hc.
Qed.

Lemma test_skips_the_existence_check_witness :
  (exists fs1 l,
     setupNotification mac "Stop" (Some "/tmp/none.wav") false nothing
     = Threw (SoundNotFound "/tmp/none.wav") fs1 l) /\
  testSound mac always_plays (Some "/tmp/none.wav") nothing
  = Finished [TestingSound "/tmp/none.wav"; Ran "afplay /tmp/none.wav"; Played].
Proof.
  apply (test_skips_the_existence_check mac always_plays darwin_config
           "/tmp/none.wav" "Stop" false nothing [] eq_refl).
  - discriminate.
  - reflexivity.
  - reflexivity.
  - reflexivity.
  - exact I.
Defined.

(** X24.  [testSound] without argument only looks at the Stop event:
    after a [setupNotification] for any other event, with no Stop entry in
    the settings, it plays the platform default sound. *)
Theorem test_ignores_every_event_but_stop (H : host) (shell : string -> bool)
  (event : string) (sp : option string) (notify : bool) (fs fs1 : files)
  (l : list message) :
  event <> "Stop" ->
  hooks_entry (settings_file fs) "Stop" = None ->
  setupNotification H event sp notify fs = Returned tt fs1 l ->
  exists c,
    PLATFORM_CONFIGS (os_platform H) = Some c /\
    testSound H shell None fs1
    = if shell (sound_command H c (defaultSound c))
      then Finished [TestingSound (defaultSound c);
                     Ran (sound_command H c (defaultSound c)); Played]
      else Failed (FailedToPlay (sound_command H c (defaultSound c)))
             [TestingSound (defaultSound c);
              Ran (sound_command H c (defaultSound c))].
Proof.
  intros He Hstop Hs.
  destruct (setup_returned H event sp notify fs fs1 l Hs)
    as [c [p [s [fs0 [Hc [Hp [Hr [Hin [Hb ->]]]]]]]]].
  exists c. split; [exact Hc|].
  unfold testSound, getPlatformConfig. rewrite Hc.
  unfold ret at 1. cbn [given]. unfold readSettings. cbn [settings_file].
  assert (Hn : stop_hooks (configured_document H c event p notify s) = None).
  { unfold stop_hooks, configured_document.
    rewrite lookup_define_eq, lookup_put_neq by (intros E; apply He; auto).
    rewrite <- (hooks_entry_read (settings_file fs) s "Stop" Hr), Hstop.
    reflexivity. }
  rewrite Hn. unfold play_configured. apply play_path_eq, Hc.
Qed.

Lemma test_ignores_every_event_but_stop_witness :
  exists c,
    PLATFORM_CONFIGS (os_platform mac) = Some c /\
    exists fs1 l,
      setupNotification mac "Notification" None false nothing
      = Returned tt fs1 l /\
      testSound mac always_plays None fs1
      = Finished [TestingSound (defaultSound c);
                  Ran (sound_command mac c (defaultSound c)); Played].
Proof.
  assert (Hne : "Notification" <> "Stop") by discriminate.
  destruct (test_ignores_every_event_but_stop mac always_plays "Notification"
              None false nothing _ _ Hne eq_refl eq_refl)
    as [c [Hc Ht]].
  exists c. split; [exact Hc|].
  eexists. eexists. split; [reflexivity | exact Ht].
Defined.

Lemma play_command_entries (shell : string -> bool) (cmds : list string) :
  (forall c, In c cmds -> shell c = true) ->
  play_hooks shell (map command_entry cmds)
  = Finished (map Ran (filter (mentions_any sound_markers) cmds)).
Proof.
  induction cmds as [|c cmds IH]; intros Hs; [reflexivity|].
  cbn [map play_hooks filter]. rewrite play_hook_command.
  rewrite IH by (intros; apply Hs; right; assumption).
  destruct (mentions_any sound_markers c); [|reflexivity].
  rewrite (Hs c (or_introl eq_refl)). reflexivity.
Qed.

Lemma play_configured_array (H : host) (shell : string -> bool)
  (c : platform_config) (hook : json) (rest : list json) (fs : files) :
  play_configured H shell c (Some (JArr (hook :: rest))) fs
  = after [TestingConfigured]
      match play_hooks shell (hook :: rest) with
      | Finished l => Finished (l ++ [Played])%list
      | r => r
      end.
Proof. reflexivity. Qed.

(** X25.  When the first group of the Stop entry lists command hooks,
    [testSound] without argument runs every command of that group that
    carries a sound marker, in the order of the group, and no other command:
    none of that group, none of a later group (on a shell where each of
    them succeeds). *)
Theorem test_runs_every_sound_command (H : host) (shell : string -> bool)
  (c : platform_config) (fs : files) (s h group : obj) (groups : list json)
  (cmds : list string) :
  PLATFORM_CONFIGS (os_platform H) = Some c ->
  settings_file fs = Parsed s ->
  lookup "hooks" s = Some (JObj h) ->
  lookup "Stop" h = Some (JArr (JObj group :: groups)) ->
  lookup "hooks" group = Some (JArr (map command_entry cmds)) ->
  cmds <> [] ->
  (forall x, In x cmds -> shell x = true) ->
  testSound H shell None fs
  = Finished
      (TestingConfigured
       :: map Ran (filter (mentions_any sound_markers) cmds) ++ [Played])%list.
Proof.
  intros Hc Hs Hh Hstop Hgroup Hne Hall.
  unfold testSound, getPlatformConfig. rewrite Hc. unfold ret at 1.
  cbn [given]. unfold readSettings. rewrite Hs.
  unfold stop_hooks. rewrite Hh, Hstop. cbn [index0]. rewrite Hgroup.
  destruct cmds as [|x cmds]; [congruence|].
  change (map command_entry (x :: cmds))
    with (command_entry x :: map command_entry cmds).
  rewrite play_configured_array.
  change (command_entry x :: map command_entry cmds)
    with (map command_entry (x :: cmds)).
  rewrite (play_command_entries shell (x :: cmds) Hall). reflexivity.
Qed.

Lemma test_runs_every_sound_command_witness :
  testSound mac always_plays None enabled_stop
  = Finished [TestingConfigured;
              Ran "afplay /System/Library/Sounds/Glass.aiff"; Played].
Proof.
  apply (test_runs_every_sound_command mac always_plays darwin_config
           enabled_stop _ _ _ [] ["afplay /System/Library/Sounds/Glass.aiff"]
           eq_refl eq_refl eq_refl eq_refl eq_refl).
  - discriminate.
  - intros x _. reflexivity.
Defined.
